(** * tg_console_cl: the interactive session core

    A shallow embedding of the parts of the terminal client that its
    specification talks about: the viewport computations of
    [views/chat.py] and [views/dialogs.py], the word wrapping of
    [format_message_text], the TTL cache of [services/cache.py], the
    task table of [utils/async_loader.py], the state manager of
    [state.py] and the message refresh of [cli.py].

    Conventions.  Python [int] is [Z].  A Python [str] is the list of its
    code points, so that [len] counts what Python counts.  [None] is
    [None]; an exception that leaves a function is [None] of an [option]
    result when nothing else is said.  Drawing calls on the curses window
    are left out: the functions return the decisions that drive them. *)

From Stdlib Require Import ZArith List Lia Bool.
From stdpp Require Import base option list strings gmap.
Import ListNotations.

Local Open Scope Z_scope.

(** ** Python sequences *)

Module Py.

Definition len {A} (l : list A) : Z := Z.of_nat (length l).

(** [l[i]]: a negative index counts from the end, an index outside
    [-len, len) raises IndexError. *)
Definition getitem {A} (l : list A) (i : Z) : option A :=
  if 0 <=? i then l !! Z.to_nat i
  else if 0 <=? len l + i then l !! Z.to_nat (len l + i)
  else None.

(** [l[:i]]: never raises. *)
Definition slice_to {A} (l : list A) (i : Z) : list A :=
  if 0 <=? i then take (Z.to_nat i) l else take (Z.to_nat (len l + i)) l.

(** [sum(l)] *)
Definition sum (l : list Z) : Z := fold_left Z.add l 0.

(** [range(a, b)] *)
Definition range (a b : Z) : list Z :=
  map (fun k => a + Z.of_nat k) (seq 0 (Z.to_nat (b - a))).

(** [range(a, -1, -1)]: a, a-1, ..., 0 *)
Definition range_down (a : Z) : list Z :=
  map (fun k => a - Z.of_nat k) (seq 0 (Z.to_nat (a + 1))).

End Py.

(** ** Strings *)

Module Text.

Definition char := N.
Definition str := list char.

Definition space : char := 32%N.
Definition newline : char := 10%N.

(** [bool(s)] of a string *)
Definition truthy (s : str) : bool :=
  match s with [] => false | _ :: _ => true end.

(** The pieces of [s] between the characters that satisfy [p]; there is
    always at least one piece, and pieces may be empty. *)
Fixpoint split_by (p : char -> bool) (s : str) : list str :=
  match s with
  | [] => [[]]
  | c :: s' =>
      if p c then [] :: split_by p s'
      else match split_by p s' with
           | [] => [[c]]
           | w :: ws => (c :: w) :: ws
           end
  end.

(** [s.split(sep)] for a separator of one character *)
Definition split (sep : char) (s : str) : list str := split_by (N.eqb sep) s.

(** [sep.join(parts)] *)
Fixpoint join (sep : str) (parts : list str) : str :=
  match parts with
  | [] => []
  | [p] => p
  | p :: rest => p ++ sep ++ join sep rest
  end.

(** [c.isspace()] *)
Definition isspace (c : char) : bool :=
  ((9 <=? c) && (c <=? 13) || (28 <=? c) && (c <=? 32)
   || (c =? 133) || (c =? 160) || (c =? 5760)
   || (8192 <=? c) && (c <=? 8202) || (c =? 8232) || (c =? 8233)
   || (c =? 8239) || (c =? 8287) || (c =? 12288))%N.

(** [s.split()]: the maximal runs of characters that are not white
    space. *)
Definition words (s : str) : list str := List.filter truthy (split_by isspace s).

End Text.

(** ** Formatting *)

Module Fmt.
Import Text.

Fixpoint digits (d : Decimal.uint) : str :=
  match d with
  | Decimal.Nil => []
  | Decimal.D0 d => 48%N :: digits d
  | Decimal.D1 d => 49%N :: digits d
  | Decimal.D2 d => 50%N :: digits d
  | Decimal.D3 d => 51%N :: digits d
  | Decimal.D4 d => 52%N :: digits d
  | Decimal.D5 d => 53%N :: digits d
  | Decimal.D6 d => 54%N :: digits d
  | Decimal.D7 d => 55%N :: digits d
  | Decimal.D8 d => 56%N :: digits d
  | Decimal.D9 d => 57%N :: digits d
  end.

(** [f"{n}"] of an int *)
Definition str_of_int (n : Z) : str :=
  match Z.to_int n with
  | Decimal.Pos d => digits d
  | Decimal.Neg d => 45%N :: digits d
  end.

(** [f"{v}"] of a string or None *)
Definition str_of (v : option str) : str :=
  match v with
  | Some s => s
  | None => [78; 111; 110; 101]%N
  end.

(** "..." *)
Definition dots : str := [46; 46; 46]%N.

(** [s.lstrip()] and [s.strip()] *)
Fixpoint lstrip (s : str) : str :=
  match s with
  | [] => []
  | c :: s' => if isspace c then lstrip s' else s
  end.

Definition strip (s : str) : str := rev (lstrip (rev (lstrip s))).

End Fmt.

(** ** views/dialogs.py and views/chat.py: names and rows *)

Module DialogRow.
Import Text.

(** What the views read of an entity.  An attribute may be missing
    ([hasattr] is false: the outer [None]) or present with the value None
    (the inner [None]). *)
Record Entity := {
  title : option (option str);
  first_name : option (option str);
  last_name : option (option str)
}.

(** "Неизвестный диалог" *)
Definition unknown_dialog : str :=
  [1053; 1077; 1080; 1079; 1074; 1077; 1089; 1090; 1085; 1099; 1081; 32;
   1076; 1080; 1072; 1083; 1086; 1075]%N.

(** [hasattr(entity, a) and entity.a] *)
Definition present (a : option (option str)) : option str :=
  match a with
  | Some (Some s) => if truthy s then Some s else None
  | _ => None
  end.

(** The result is None when the first name is. *)
Definition get_dialog_display_name (entity : Entity) : option str :=
  match present (title entity) with
  | Some t => Some t
  | None =>
      match first_name entity with
      | Some first =>
          match present (last_name entity) with
          | Some last => Some (Fmt.str_of first ++ [space] ++ last)
          | None => first
          end
      | None => Some unknown_dialog
      end
  end.

(** [if len(name) > width - 4: name = name[:width - 7] + "..."], as the
    rows of the conversation list and the header of the chat have it. *)
Definition shorten (name : str) (width : Z) : str :=
  if Py.len name >? width - 4 then Py.slice_to name (width - 7) ++ Fmt.dots else name.

(** The text of a row of [render_dialogs], and of the header of
    [render_chat]: the name, the unread count when there is one, cut to the
    width.  [None] is the TypeError of [len(None)]. *)
Definition row_text (name : option str) (unread_count width : Z) : option str :=
  let name := if unread_count >? 0
              then Some (Fmt.str_of name ++ [space; 91%N]
                         ++ Fmt.str_of_int unread_count ++ [93%N])
              else name in
  match name with
  | Some name => Some (shorten name width)
  | None => None
  end.

(** What the views read of a telethon [Dialog]. *)
Record Dialog := {
  entity : Entity;
  unread_count : Z
}.

(** The row text of a dialog. *)
Definition dialog_row (dialog : Dialog) (width : Z) : option str :=
  row_text (get_dialog_display_name (entity dialog)) (unread_count dialog) width.

End DialogRow.

(** ** views/chat.py *)

Module ChatView.
Import Text.

(** What the view reads of a telethon [Message]: its text, and the
    class name of its media object when it has one. *)
Record Message := {
  message : option str;
  media : option str
}.

(** "[Пустое сообщение]" *)
Definition empty_message_text : str :=
  [91; 1055; 1091; 1089; 1090; 1086; 1077; 32; 1089; 1086; 1086; 1073;
   1097; 1077; 1085; 1080; 1077; 93]%N.

(** The text that [format_message_text] wraps. *)
Definition display_text (m : Message) : str :=
  let text := match message m with
              | Some t => if truthy t then t else []
              | None => []
              end in
  let text := if truthy text then text
              else match media m with
                   | Some media_type => [91%N] ++ media_type ++ [93%N]
                   | None => text
                   end in
  if truthy text then text else empty_message_text.

(** One turn of the loop over [line.split(" ")]. *)
Definition wrap_word (width : Z) (st : list str * str) (word : str) : list str * str :=
  let '(lines, current_line) := st in
  if Py.len current_line + Py.len word + 1 <=? width then
    (lines, if truthy current_line then current_line ++ [space] ++ word else word)
  else
    (lines ++ [current_line], word).

(** One turn of the loop over [text.split("\n")]. *)
Definition wrap_line (width : Z) (lines : list str) (line : str) : list str :=
  if Py.len line <=? width then lines ++ [line]
  else
    let '(lines, current_line) := fold_left (wrap_word width) (split space line) (lines, []) in
    if truthy current_line then lines ++ [current_line] else lines.

Definition wrap_text (text : str) (width : Z) : list str :=
  fold_left (wrap_line width) (split newline text) [].

Definition format_message_text (m : Message) (width : Z) : list str :=
  wrap_text (display_text m) width.

(** The rows of one message: sender line, text lines, a media line when
    there is a media handler and the message has media, separator. *)
Definition message_height (media_handler : bool) (width : Z) (msg : Message) : Z :=
  let msg_height := 1 in
  let msg_height := msg_height + Py.len (format_message_text msg (width - 8)) in
  let msg_height := if media_handler && bool_decide (is_Some (media msg))
                    then msg_height + 1 else msg_height in
  msg_height + 1.

Definition message_heights (media_handler : bool) (width : Z) (messages : list Message) : list Z :=
  map (message_height media_handler width) messages.

(** The loop [for i in range(target_index - 1, -1, -1)] with its
    [break]. *)
Fixpoint walk_back (message_heights : list Z) (content_height : Z)
    (indices : list Z) (current_height start_index : Z) : option Z :=
  match indices with
  | [] => Some start_index
  | i :: rest =>
      h ← Py.getitem message_heights i;
      if current_height + h <=? content_height
      then walk_back message_heights content_height rest (current_height + h) i
      else Some start_index
  end.

(** The start index for scrolling. *)
Definition start_index (message_heights : list Z) (content_height selected_index : Z)
    : option Z :=
  let total_height := Py.sum message_heights in
  if total_height <=? content_height then Some 0
  else
    let target_index := selected_index in
    let lines_before_target := Py.sum (Py.slice_to message_heights target_index) in
    target_height ← Py.getitem message_heights target_index;
    if lines_before_target + target_height >? content_height then Some target_index
    else walk_back message_heights content_height
           (Py.range_down (target_index - 1)) target_height target_index.

(** The loop that draws the messages: it stops before the first message
    that does not fit, and counts the drawn ones.  Drawing a message
    moves [y_pos] down by its height: the sender line, the media line
    ([get_media_info] gives a preview for every message that has media),
    the text lines and the separator. *)
Fixpoint draw_messages (message_heights : list Z) (height : Z)
    (indices : list Z) (y_pos drawn_messages : Z) : option Z :=
  match indices with
  | [] => Some drawn_messages
  | i :: rest =>
      msg_height ← Py.getitem message_heights i;
      if y_pos + msg_height >? height - 2 then Some drawn_messages
      else draw_messages message_heights height rest (y_pos + msg_height) (drawn_messages + 1)
  end.

(** The scrolling part of [render_chat], on the heights. *)
Definition layout (message_heights : list Z) (height selected_index : Z) : option (Z * Z) :=
  let content_height := height - 4 in
  start ← start_index message_heights content_height selected_index;
  drawn ← draw_messages message_heights height
             (Py.range start (Py.len message_heights)) 2 0;
  Some (start, drawn).

Inductive screen :=
| NoDialog
| LoadingMessages
| NoMessages
| Drawn (start_index drawn_messages : Z).

(** What [render_chat] does below the header: [None] is the IndexError
    of a selected index outside the list. *)
Definition messages_screen (height width : Z) (messages : list Message)
    (selected_index : Z) (is_loading media_handler : bool) : option screen :=
  if is_loading && bool_decide (messages = []) then Some LoadingMessages
  else if bool_decide (messages = []) then Some NoMessages
  else
    '(start, drawn) ← layout (message_heights media_handler width messages)
                             height selected_index;
    Some (Drawn start drawn).

(** [render_chat]: [None] is the TypeError of [len(header_with_unread)]
    for a dialog whose name is None and that has nothing unread, or the
    IndexError below the header. *)
Definition render_chat (height width : Z) (dialog : option DialogRow.Dialog)
    (messages : list Message) (selected_index : Z)
    (is_loading media_handler : bool) : option screen :=
  match dialog with
  | None => Some NoDialog
  | Some dialog =>
      header_with_unread ← DialogRow.dialog_row dialog width;
      messages_screen height width messages selected_index is_loading media_handler
  end.

(** The scrolling of [render_chat], the text of the header apart: what
    it does for a dialog whose header has a text. *)
Definition scroll {D} (height width : Z) (dialog : option D)
    (messages : list Message) (selected_index : Z)
    (is_loading media_handler : bool) : option screen :=
  match dialog with
  | None => Some NoDialog
  | Some _ =>
      messages_screen height width messages selected_index is_loading media_handler
  end.

End ChatView.

(** ** views/dialogs.py *)

Module DialogsView.

Definition start_index (visible_lines n_dialogs selected_index : Z) : Z :=
  Z.max 0 (Z.min (selected_index - visible_lines / 2) (n_dialogs - visible_lines)).

(** The loop that draws the rows: the indices it draws.  [None] is the
    TypeError of [len(name)] for a dialog whose name is None and that has
    nothing unread (and the IndexError of [dialogs[index]], which the test
    before it excludes for a start index that is not negative). *)
Fixpoint draw_rows (dialogs : list DialogRow.Dialog) (width start_index : Z)
    (rows : list Z) : option (list Z) :=
  match rows with
  | [] => Some []
  | i :: rest =>
      let index := start_index + i in
      if index >=? Py.len dialogs then Some []
      else
        dialog ← Py.getitem dialogs index;
        name ← DialogRow.dialog_row dialog width;
        drawn ← draw_rows dialogs width start_index rest;
        Some (index :: drawn)
  end.

Inductive screen :=
| LoadingDialogs
| NoDialogs
| Rows (start_index : Z) (drawn : list Z).

Definition render_dialogs (height width : Z) (dialogs : list DialogRow.Dialog)
    (selected_index : Z) (is_loading : bool) : option screen :=
  if is_loading && bool_decide (length dialogs = 0%nat) then Some LoadingDialogs
  else if bool_decide (length dialogs = 0%nat) then Some NoDialogs
  else
    let visible_lines := height - 3 in
    let start := start_index visible_lines (Py.len dialogs) selected_index in
    drawn ← draw_rows dialogs width start
               (Py.range 0 (Z.min visible_lines (Py.len dialogs)));
    Some (Rows start drawn).

(** The scrolling of [render_dialogs], the texts of the rows apart: the
    rows it goes through when every row has a text. *)
Fixpoint scroll_rows (n_dialogs start_index : Z) (rows : list Z) : list Z :=
  match rows with
  | [] => []
  | i :: rest =>
      let index := start_index + i in
      if index >=? n_dialogs then []
      else index :: scroll_rows n_dialogs start_index rest
  end.

Definition scroll {D} (height : Z) (dialogs : list D) (selected_index : Z)
    (is_loading : bool) : screen :=
  if is_loading && bool_decide (length dialogs = 0%nat) then LoadingDialogs
  else if bool_decide (length dialogs = 0%nat) then NoDialogs
  else
    let visible_lines := height - 3 in
    let start := start_index visible_lines (Py.len dialogs) selected_index in
    Rows start (scroll_rows (Py.len dialogs) start
                  (Py.range 0 (Z.min visible_lines (Py.len dialogs)))).

End DialogsView.

(** ** services/cache.py *)

Module Cache.
Section Cache.

(** The cached payloads: a conversation list and message lists. *)
Context {Dialogs Messages : Type}.

Record dialogs_entry := {
  d_data : option Dialogs;
  d_timestamp : Z;
  d_only_unread : bool
}.

Record messages_entry := {
  m_data : option Messages;
  m_timestamp : Z
}.

Record CacheManager := {
  max_age_minutes : Z;
  dialogs_cache : dialogs_entry;
  messages_cache : gmap Z messages_entry
}.

Definition set_dialogs_cache (c : CacheManager) (d : dialogs_entry) : CacheManager :=
  {| max_age_minutes := max_age_minutes c; dialogs_cache := d;
     messages_cache := messages_cache c |}.

Definition set_messages_cache (c : CacheManager) (m : gmap Z messages_entry) : CacheManager :=
  {| max_age_minutes := max_age_minutes c; dialogs_cache := dialogs_cache c;
     messages_cache := m |}.

(** [now] is the reading of [time.time()], the clock taken to count
    whole seconds. *)
Definition get_dialogs (c : CacheManager) (now : Z) (only_unread : bool) : option Dialogs :=
  let cache_valid :=
    bool_decide (is_Some (d_data (dialogs_cache c)))
    && Bool.eqb (d_only_unread (dialogs_cache c)) only_unread
    && (now - d_timestamp (dialogs_cache c) <? max_age_minutes c * 60) in
  if cache_valid then d_data (dialogs_cache c) else None.

Definition store_dialogs (c : CacheManager) (now : Z) (dialogs : Dialogs)
    (only_unread : bool) : CacheManager :=
  set_dialogs_cache c
    {| d_data := Some dialogs; d_timestamp := now; d_only_unread := only_unread |}.

Definition get_messages (c : CacheManager) (now : Z) (dialog_id : Z) : option Messages :=
  match messages_cache c !! dialog_id with
  | Some cache_entry =>
      if now - m_timestamp cache_entry <? max_age_minutes c * 60
      then m_data cache_entry
      else None
  | None => None
  end.

Definition store_messages (c : CacheManager) (now : Z) (dialog_id : Z)
    (messages : Messages) : CacheManager :=
  set_messages_cache c
    (<[dialog_id := {| m_data := Some messages; m_timestamp := now |}]> (messages_cache c)).

Definition invalidate_dialog_cache (c : CacheManager) : CacheManager :=
  set_dialogs_cache c
    {| d_data := None; d_timestamp := d_timestamp (dialogs_cache c);
       d_only_unread := d_only_unread (dialogs_cache c) |}.

Definition invalidate_messages_cache (c : CacheManager) (dialog_id : option Z) : CacheManager :=
  match dialog_id with
  | None => set_messages_cache c ∅
  | Some dialog_id => set_messages_cache c (delete dialog_id (messages_cache c))
  end.

(** The two metadata files.  A key of the file may be missing
    ([.get(key, default)]); a key of the message file is kept as what
    [int(dialog_id_str)] makes of it, [None] when it raises. *)
Record dialogs_file := {
  f_timestamp : option Z;
  f_only_unread : option bool
}.

Definition messages_file := list (option Z * option Z).

Record files := {
  dialogs_cache_json : option dialogs_file;
  messages_cache_json : option messages_file
}.

(** Only time stamps and keys are written, never the payload. *)
Definition save_cache (c : CacheManager) : files :=
  {| dialogs_cache_json :=
       Some {| f_timestamp := Some (d_timestamp (dialogs_cache c));
               f_only_unread := Some (d_only_unread (dialogs_cache c)) |};
     messages_cache_json :=
       Some (map (fun '(dialog_id, entry) => (Some dialog_id, Some (m_timestamp entry)))
                 (map_to_list (messages_cache c))) |}.

(** The loop over the message file; an exception ends the loading and
    keeps what was loaded. *)
Fixpoint load_messages (entries : messages_file) (cache : gmap Z messages_entry)
    : gmap Z messages_entry :=
  match entries with
  | [] => cache
  | (Some dialog_id, timestamp) :: rest =>
      load_messages rest
        (<[dialog_id := {| m_data := None; m_timestamp := default 0 timestamp |}]> cache)
  | (None, _) :: _ => cache
  end.

Definition load_cache (c : CacheManager) (disk : files) : CacheManager :=
  let c := match dialogs_cache_json disk with
           | Some cache_data =>
               set_dialogs_cache c
                 {| d_data := d_data (dialogs_cache c);
                    d_timestamp := default 0 (f_timestamp cache_data);
                    d_only_unread := default false (f_only_unread cache_data) |}
           | None => c
           end in
  match messages_cache_json disk with
  | Some cache_data => set_messages_cache c (load_messages cache_data (messages_cache c))
  | None => c
  end.

(** [CacheManager(max_age_minutes=...)] over the files found on disk. *)
Definition init (disk : files) (max_age_minutes : Z) : CacheManager :=
  load_cache
    {| max_age_minutes := max_age_minutes;
       dialogs_cache := {| d_data := None; d_timestamp := 0; d_only_unread := false |};
       messages_cache := ∅ |}
    disk.

Definition clean_old_cache (c : CacheManager) (current_time : Z) : CacheManager :=
  let max_age_seconds := max_age_minutes c * 60 in
  let c := if current_time - d_timestamp (dialogs_cache c) >? max_age_seconds
           then invalidate_dialog_cache c else c in
  let dialogs_to_invalidate :=
    map fst (filter (fun '(_, entry) => current_time - m_timestamp entry > max_age_seconds)
                    (map_to_list (messages_cache c))) in
  fold_left (fun c dialog_id => invalidate_messages_cache c (Some dialog_id))
            dialogs_to_invalidate c.

(** The validity of the specification's data model. *)
Definition dialogs_valid (c : CacheManager) (now : Z) (only_unread : bool)
    (v : Dialogs) : Prop :=
  d_data (dialogs_cache c) = Some v
  ∧ now - d_timestamp (dialogs_cache c) < max_age_minutes c * 60
  ∧ d_only_unread (dialogs_cache c) = only_unread.

Definition messages_valid (c : CacheManager) (now : Z) (dialog_id : Z)
    (v : Messages) : Prop :=
  ∃ entry, messages_cache c !! dialog_id = Some entry
           ∧ m_data entry = Some v
           ∧ now - m_timestamp entry < max_age_minutes c * 60.

End Cache.
Arguments CacheManager : clear implicits.
Arguments dialogs_entry : clear implicits.
Arguments messages_entry : clear implicits.
End Cache.

(** ** state.py *)

Module State.

Inductive AppState := INIT | DIALOGS | CHAT | REPLY | SETTINGS | ERROR.

#[global] Instance AppState_eq_dec : EqDecision AppState.
Proof. solve_decision. Defined.

(** The [value] of the enumeration. *)
Definition value (s : AppState) : nat :=
  match s with
  | INIT => 0 | DIALOGS => 1 | CHAT => 2 | REPLY => 3 | SETTINGS => 4 | ERROR => 5
  end%nat.

Definition of_value (n : nat) : option AppState :=
  match n with
  | 0 => Some INIT | 1 => Some DIALOGS | 2 => Some CHAT | 3 => Some REPLY
  | 4 => Some SETTINGS | 5 => Some ERROR | _ => None
  end%nat.

#[global] Instance AppState_countable : Countable AppState.
Proof. apply (inj_countable value of_value). by intros []. Defined.

Section State.

(** The values kept in the state data. *)
Context {V : Type}.

(** A listener is handed the state data dictionary itself: it may
    change it, and it may raise ([true]). *)
Definition callback := gmap string V → gmap string V * bool.

Record StateManager := {
  current_state : AppState;
  prev_state : option AppState;
  state_data : gmap string V;
  state_change_callbacks : gmap AppState (list callback)
}.

Definition new : StateManager :=
  {| current_state := INIT; prev_state := None; state_data := ∅;
     state_change_callbacks := ∅ |}.

(** One listener call that the manager made: for which state, which
    listener of that state's list, and whether it raised. *)
Record call := { for_state : AppState; listener : nat; raised : bool }.

(** The loop of [_notify_state_change]: every listener runs, a raising
    one is logged and the loop goes on. *)
Fixpoint notify_loop (state : AppState) (callbacks : list callback) (k : nat)
    (data : gmap string V) : gmap string V * list call :=
  match callbacks with
  | [] => (data, [])
  | cb :: rest =>
      let '(data, r) := cb data in
      let '(data, calls) := notify_loop state rest (S k) data in
      (data, {| for_state := state; listener := k; raised := r |} :: calls)
  end.

Definition notify_state_change (sm : StateManager) : StateManager * list call :=
  let state := current_state sm in
  match state_change_callbacks sm !! state with
  | Some callbacks =>
      let '(data, calls) := notify_loop state callbacks 0 (state_data sm) in
      ({| current_state := current_state sm; prev_state := prev_state sm;
          state_data := data;
          state_change_callbacks := state_change_callbacks sm |}, calls)
  | None => (sm, [])
  end.

Definition set_state (sm : StateManager) (state : AppState) (data : gmap string V)
    : StateManager * list call :=
  if bool_decide (state ≠ current_state sm) then
    notify_state_change
      {| current_state := state;
         prev_state := Some (current_state sm);
         state_data := data ∪ state_data sm;
         state_change_callbacks := state_change_callbacks sm |}
  else (sm, []).

Definition get_state (sm : StateManager) : AppState := current_state sm.

Definition get_previous_state (sm : StateManager) : option AppState := prev_state sm.

(** A member of a plain [enum.Enum] is always true, [INIT] too, so the
    test is on [None] alone. *)
Definition return_to_previous_state (sm : StateManager) : StateManager * list call :=
  match prev_state sm with
  | Some prev => set_state sm prev ∅
  | None => (sm, [])
  end.

Definition register_state_change_callback (sm : StateManager) (state : AppState)
    (cb : callback) : StateManager :=
  {| current_state := current_state sm; prev_state := prev_state sm;
     state_data := state_data sm;
     state_change_callbacks :=
       <[state := default [] (state_change_callbacks sm !! state) ++ [cb]]>
         (state_change_callbacks sm) |}.

End State.
Arguments StateManager : clear implicits.
End State.

(** ** utils/async_loader.py *)

Module Loader.
Section Loader.

(** Results of the operations, the exceptions they raise, and the
    callbacks handed to [create_task]. *)
Context {value exn cb : Type}.

(** How [await coro] ends inside the wrapper. *)
Inductive outcome :=
| Returned (result : value)
| Raised (e : exn)
| CancelledError.

(** What a callback may do to the loader while it runs. *)
Inductive command :=
| Create (on_complete on_error : option cb)
| CancelTask (task_id : nat)
| CancelAll.

(** The behaviour of a callback on its argument: the loader calls it
    makes, and whether it raises in the end. *)
Context (body : cb → value + exn → list command * bool).

(** The [asyncio.Task] that runs [_task_wrapper]: it is created, then
    suspended at [await coro], then finished; [cancel()] leaves a
    request that the event loop honours the next time it runs the
    task. *)
Inductive phase := Created | Suspended | Finished.

Record Task := {
  t_phase : phase;
  t_must_cancel : bool;
  t_on_complete : option cb;
  t_on_error : option cb
}.

(** [active_tasks]: task_id -> (task, on_complete, on_error) *)
Record AsyncLoader := {
  active_tasks : gmap nat (nat * option cb * option cb)
}.

Inductive event :=
| Called (task_id : nat) (f : cb) (arg : value + exn)
| Deleted (task_id : nat).

(** The loader together with what it runs in: the supply of fresh
    [uuid4] identifiers (a task is named by its identifier), the tasks
    of the event loop, and the calls made so far. *)
Record World := {
  loader : AsyncLoader;
  next_uuid : nat;
  tasks : gmap nat Task;
  trace : list event
}.

Definition empty : World :=
  {| loader := {| active_tasks := ∅ |}; next_uuid := 0; tasks := ∅; trace := [] |}.

Definition set_active_tasks (w : World) (a : gmap nat (nat * option cb * option cb)) : World :=
  {| loader := {| active_tasks := a |}; next_uuid := next_uuid w;
     tasks := tasks w; trace := trace w |}.

Definition set_tasks (w : World) (t : gmap nat Task) : World :=
  {| loader := loader w; next_uuid := next_uuid w; tasks := t; trace := trace w |}.

Definition emit (w : World) (e : event) : World :=
  {| loader := loader w; next_uuid := next_uuid w; tasks := tasks w;
     trace := trace w ++ [e] |}.

Definition set_phase (t : Task) (p : phase) : Task :=
  {| t_phase := p; t_must_cancel := t_must_cancel t;
     t_on_complete := t_on_complete t; t_on_error := t_on_error t |}.

Definition request_cancel (t : Task) : Task :=
  match t_phase t with
  | Finished => t
  | _ => {| t_phase := t_phase t; t_must_cancel := true;
            t_on_complete := t_on_complete t; t_on_error := t_on_error t |}
  end.

(** [task.cancel()] *)
Definition task_cancel (task : nat) (w : World) : World :=
  set_tasks w (alter request_cancel task (tasks w)).

Definition create_task (on_complete on_error : option cb) (w : World) : World * nat :=
  let task_id := next_uuid w in
  ({| loader := {| active_tasks :=
                     <[task_id := (task_id, on_complete, on_error)]>
                       (active_tasks (loader w)) |};
      next_uuid := S task_id;
      tasks := <[task_id := {| t_phase := Created; t_must_cancel := false;
                               t_on_complete := on_complete;
                               t_on_error := on_error |}]> (tasks w);
      trace := trace w |},
   task_id).

Definition cancel_task (task_id : nat) (w : World) : World * bool :=
  match active_tasks (loader w) !! task_id with
  | Some (task, _, _) => (task_cancel task w, true)
  | None => (w, false)
  end.

Definition cancel_all_tasks (w : World) : World :=
  let w := fold_left (fun w '(_, (task, _, _)) => task_cancel task w)
                     (map_to_list (active_tasks (loader w))) w in
  set_active_tasks w ∅.

Definition get_active_tasks_count (w : World) : nat := size (active_tasks (loader w)).

Definition is_task_active (task_id : nat) (w : World) : bool :=
  bool_decide (is_Some (active_tasks (loader w) !! task_id)).

Definition run_command (w : World) (c : command) : World :=
  match c with
  | Create on_complete on_error => fst (create_task on_complete on_error w)
  | CancelTask task_id => fst (cancel_task task_id w)
  | CancelAll => cancel_all_tasks w
  end.

(** A callback call inside its [try]: the call is recorded, the
    callback does what it does, and an exception it raises is logged
    and goes no further. *)
Definition call (task_id : nat) (f : cb) (arg : value + exn) (w : World) : World :=
  fold_left run_command (fst (body f arg)) (emit w (Called task_id f arg)).

(** [_task_wrapper] from the point where [await coro] ends.  The
    boolean tells whether CancelledError leaves the wrapper. *)
Definition task_wrapper (task_id : nat) (o : outcome)
    (on_complete on_error : option cb) (w : World) : World * bool :=
  let '(w, cancelled) :=
    match o with
    | Returned result =>
        (match on_complete with
         | Some f => call task_id f (inl result) w
         | None => w
         end, false)
    | CancelledError => (w, true)
    | Raised e =>
        (match on_error with
         | Some g => call task_id g (inr e) w
         | None => w
         end, false)
    end in
  let w := if bool_decide (is_Some (active_tasks (loader w) !! task_id))
           then emit (set_active_tasks w (delete task_id (active_tasks (loader w))))
                     (Deleted task_id)
           else w in
  (w, cancelled).

(** The event loop runs a task for the first time.  A task that was
    cancelled before has CancelledError thrown into a coroutine that
    has not begun: none of the wrapper's body runs, its [finally]
    included, and the task is done. *)
Definition loop_start (task : nat) (w : World) : World :=
  match tasks w !! task with
  | Some t =>
      match t_phase t with
      | Created =>
          set_tasks w (<[task := set_phase t (if t_must_cancel t then Finished
                                               else Suspended)]> (tasks w))
      | _ => w
      end
  | None => w
  end.

(** The event loop resumes a suspended task: [await coro] ends with
    the outcome of the operation, or with CancelledError when
    cancellation was requested (the operations let it pass), and the
    wrapper runs to its end. *)
Definition loop_resume (task : nat) (o : outcome) (w : World) : World :=
  match tasks w !! task with
  | Some t =>
      match t_phase t with
      | Suspended =>
          let o := if t_must_cancel t then CancelledError else o in
          let w := fst (task_wrapper task o (t_on_complete t) (t_on_error t) w) in
          set_tasks w (alter (fun t => set_phase t Finished) task (tasks w))
      | _ => w
      end
  | None => w
  end.

(** What can happen to a loader, one thing at a time. *)
Inductive action :=
| DoCreate (on_complete on_error : option cb)
| DoCancel (task_id : nat)
| DoCancelAll
| DoStart (task : nat)
| DoResume (task : nat) (o : outcome).

Definition act (w : World) (a : action) : World :=
  match a with
  | DoCreate on_complete on_error => fst (create_task on_complete on_error w)
  | DoCancel task_id => fst (cancel_task task_id w)
  | DoCancelAll => cancel_all_tasks w
  | DoStart task => loop_start task w
  | DoResume task o => loop_resume task o w
  end.

Definition run (actions : list action) : World := fold_left act actions empty.

(** The callback calls of a trace. *)
Definition is_call (e : event) : bool :=
  match e with Called _ _ _ => true | Deleted _ => false end.

Definition all_calls (tr : list event) : list event := List.filter is_call tr.

End Loader.
Arguments outcome : clear implicits.
Arguments command : clear implicits.
Arguments Task : clear implicits.
Arguments AsyncLoader : clear implicits.
Arguments event : clear implicits.
Arguments World : clear implicits.
Arguments action : clear implicits.
End Loader.

(** ** cli.py *)

Module Cli.
Import Text.

(** What the session reads of a telethon [Dialog]; the entity is
    stood for by the identifier. *)
Record Dialog := {
  id : Z;
  unread_count : Z
}.

Definition Message := ChatView.Message.

(** The coroutines that the session hands to
    [async_loader.create_task]. *)
Inductive operation :=
| GetDialogs (only_unread : bool)
| GetMessages (dialog : Dialog)
| SendMessage (dialog : Dialog) (text : str) (reply_to : Message)
| MarkAsRead (dialog : Dialog) (message : Message)
| RefreshMessages.

Record TelegramCLI := {
  dialog_list : list Dialog;
  selected_messages : list Message;
  selected_dialog_index : Z;
  selected_message_index : Z;
  is_all_dialogs_mode : bool;
  is_loading : bool;
  cache_manager : Cache.CacheManager (list Dialog) (list Message);
  scheduled : list operation
}.

Definition set_selected_messages (c : TelegramCLI) (l : list Message) : TelegramCLI :=
  {| dialog_list := dialog_list c; selected_messages := l;
     selected_dialog_index := selected_dialog_index c;
     selected_message_index := selected_message_index c;
     is_all_dialogs_mode := is_all_dialogs_mode c; is_loading := is_loading c;
     cache_manager := cache_manager c; scheduled := scheduled c |}.

Definition set_selected_message_index (c : TelegramCLI) (i : Z) : TelegramCLI :=
  {| dialog_list := dialog_list c; selected_messages := selected_messages c;
     selected_dialog_index := selected_dialog_index c;
     selected_message_index := i;
     is_all_dialogs_mode := is_all_dialogs_mode c; is_loading := is_loading c;
     cache_manager := cache_manager c; scheduled := scheduled c |}.

Definition set_is_loading (c : TelegramCLI) (b : bool) : TelegramCLI :=
  {| dialog_list := dialog_list c; selected_messages := selected_messages c;
     selected_dialog_index := selected_dialog_index c;
     selected_message_index := selected_message_index c;
     is_all_dialogs_mode := is_all_dialogs_mode c; is_loading := b;
     cache_manager := cache_manager c; scheduled := scheduled c |}.

Definition set_cache_manager (c : TelegramCLI)
    (m : Cache.CacheManager (list Dialog) (list Message)) : TelegramCLI :=
  {| dialog_list := dialog_list c; selected_messages := selected_messages c;
     selected_dialog_index := selected_dialog_index c;
     selected_message_index := selected_message_index c;
     is_all_dialogs_mode := is_all_dialogs_mode c; is_loading := is_loading c;
     cache_manager := m; scheduled := scheduled c |}.

(** [self.async_loader.create_task(op, ...)] *)
Definition create_task (c : TelegramCLI) (op : operation) : TelegramCLI :=
  {| dialog_list := dialog_list c; selected_messages := selected_messages c;
     selected_dialog_index := selected_dialog_index c;
     selected_message_index := selected_message_index c;
     is_all_dialogs_mode := is_all_dialogs_mode c; is_loading := is_loading c;
     cache_manager := cache_manager c; scheduled := scheduled c ++ [op] |}.

(** "Сброс индекса при обновлении списка" *)
Definition reset_message_index (c : TelegramCLI) : TelegramCLI :=
  if selected_message_index c >=? Py.len (selected_messages c)
  then set_selected_message_index c 0 else c.

(** The [except] branch of [refresh_messages]. *)
Definition refresh_messages_failed (c : TelegramCLI) : TelegramCLI :=
  set_selected_messages (set_is_loading c false) [].

(** [refresh_messages] at time [now]; [screen_raises] tells whether the
    redraw at its end raises. *)
Definition refresh_messages (now : Z) (screen_raises : bool) (c : TelegramCLI)
    : TelegramCLI :=
  if bool_decide (dialog_list c = [])
     || (selected_dialog_index c >=? Py.len (dialog_list c))
  then set_selected_messages c []
  else
    match Py.getitem (dialog_list c) (selected_dialog_index c) with
    | None => refresh_messages_failed c
    | Some dialog =>
        let c := set_is_loading c true in
        let cached_messages := Cache.get_messages (cache_manager c) now (id dialog) in
        match cached_messages with
        | Some (m :: ms) =>
            let c := set_selected_messages c (m :: ms) in
            let c := set_is_loading c false in
            reset_message_index c
        | _ =>
            let c := create_task c (GetMessages dialog) in
            if screen_raises then refresh_messages_failed c else c
        end
    end.

Definition _on_messages_loaded (now : Z) (dialog_id : Z) (messages : list Message)
    (c : TelegramCLI) : TelegramCLI :=
  let c := set_selected_messages c messages in
  let c := set_cache_manager c
             (Cache.store_messages (cache_manager c) now dialog_id messages) in
  let c := reset_message_index c in
  set_is_loading c false.

Definition send_reply (text : str) (c : TelegramCLI) : TelegramCLI :=
  if bool_decide (dialog_list c = [])
     || (selected_dialog_index c >=? Py.len (dialog_list c))
  then c
  else if bool_decide (selected_messages c = [])
          || (selected_message_index c >=? Py.len (selected_messages c))
  then c
  else
    match Py.getitem (dialog_list c) (selected_dialog_index c),
          Py.getitem (selected_messages c) (selected_message_index c) with
    | Some dialog, Some message =>
        create_task (set_is_loading c true) (SendMessage dialog text message)
    | _, _ => set_is_loading c false
    end.

Definition _on_reply_sent (dialog : Dialog) (message : Message) (c : TelegramCLI)
    : TelegramCLI :=
  create_task c (MarkAsRead dialog message).

Definition _on_message_marked_read (c : TelegramCLI) : TelegramCLI :=
  set_is_loading (create_task c RefreshMessages) false.

(** What follows a reply that was sent: the read mark, and when that
    succeeded too, the refresh task, run at time [now]. *)
Definition after_reply_sent (now : Z) (dialog : Dialog) (message : Message)
    (c : TelegramCLI) : TelegramCLI :=
  refresh_messages now false (_on_message_marked_read (_on_reply_sent dialog message c)).

(** Whether a fetch of the messages from the remote client is among
    the scheduled operations. *)
Definition fetches_messages (ops : list operation) : bool :=
  existsb (fun op => match op with GetMessages _ => true | _ => false end) ops.

End Cli.

(** ** The viewport as the specification words it *)

Module ViewportSpec.

(** Walking back from the item above the selected one: [above] holds
    the heights of the items above, nearest first; the result is how
    many of them are absorbed. *)
Fixpoint absorb (above : list Z) (H cumulative : Z) : nat :=
  match above with
  | [] => 0
  | h :: rest =>
      if cumulative + h <=? H then S (absorb rest H (cumulative + h)) else 0
  end.

Definition sum (l : list Z) : Z := fold_right Z.add 0 l.

(** The three cases. *)
Definition start (heights : list Z) (H : Z) (S : nat) : nat :=
  if sum heights <=? H then 0%nat
  else
    let heightBefore := sum (take S heights) in
    let heightOfS := nth S heights 0 in
    if heightBefore + heightOfS >? H then S
    else (S - absorb (rev (take S heights)) H heightOfS)%nat.

End ViewportSpec.

(** * More of the code *)

(** ** views/chat.py and views/dialogs.py: the scroll bar *)

Module Scrollbar.

(** [int(a * b / c)]: the quotient is taken in floating point and cut
    towards zero; for the sizes of a screen, far below 2^53, that is the
    integer quotient cut towards zero. *)
Definition int_div (a c : Z) : Z := a ÷ c.

(** Height and position of the thumb. *)
Definition thumb (track shown total offset : Z) : Z * Z :=
  let scrollbar_height := Z.max 1 (int_div (track * shown) total) in
  let scrollbar_pos := Z.min (track - scrollbar_height) (int_div (offset * track) total) in
  (scrollbar_height, scrollbar_pos).

(** The scroll bar of [render_chat]; there is none when every message
    was drawn. *)
Definition chat_scrollbar (content_height n_messages start_index drawn_messages : Z)
    : option (Z * Z) :=
  if n_messages >? drawn_messages
  then Some (thumb content_height drawn_messages n_messages start_index)
  else None.

(** The scroll bar of [render_dialogs]. *)
Definition dialogs_scrollbar (visible_lines n_dialogs start_index : Z) : option (Z * Z) :=
  if n_dialogs >? visible_lines
  then Some (thumb visible_lines visible_lines n_dialogs start_index)
  else None.

(** Whether row [i] of the track is drawn full. *)
Definition filled (bar : Z * Z) (i : Z) : bool :=
  let '(scrollbar_height, scrollbar_pos) := bar in
  (scrollbar_pos <=? i) && (i <? scrollbar_pos + scrollbar_height).

(** The rows of the track, [for i in range(track)]. *)
Definition rows (track : Z) (bar : Z * Z) : list bool := map (filled bar) (Py.range 0 track).

End Scrollbar.

(** ** views/chat.py: the preview of the message replied to *)

Module Preview.
Import Text.




(** The name in the header of the preview. *)
Definition shorten (sender_name : str) (width : Z) : str :=
  if Py.len sender_name >? width - 10
  then Py.slice_to sender_name (width - 13) ++ Fmt.dots else sender_name.


End Preview.

(** ** input/keys.py *)

Module Keys.

Inductive handler :=
| _handle_exit
| _handle_reconnect
| _handle_refresh
| _handle_dialog_up
| _handle_dialog_down
| _handle_open_dialog
| _handle_toggle_dialog_mode
| _handle_message_up
| _handle_message_down
| _handle_back_to_dialogs
| _handle_reply_mode
| _handle_save_media
| _handle_cancel_reply
| _handle_send_reply.

(** The key codes that curses gives to the arrows. *)
Record curses := {
  KEY_UP : Z;
  KEY_DOWN : Z;
  KEY_LEFT : Z;
  KEY_RIGHT : Z
}.

Definition ENTER : Z := 10.
Definition ESC : Z := 27.
Definition TAB : Z := 9.
Definition R : Z := 114.
Definition Q : Z := 113.
Definition S : Z := 115.
Definition CTRL_C : Z := 3.
Definition CTRL_R : Z := 18.
Definition CTRL_L : Z := 12.

(** A dictionary display: a later entry with the same key replaces an
    earlier one. *)
Definition dict (entries : list (Z * handler)) : gmap Z handler :=
  fold_left (fun m '(k, h) => <[k := h]> m) entries ∅.

Definition global_handlers : gmap Z handler :=
  dict [(CTRL_C, _handle_exit); (CTRL_R, _handle_reconnect); (CTRL_L, _handle_refresh)].

Definition state_handlers (c : curses) (state : State.AppState) : option (gmap Z handler) :=
  match state with
  | State.DIALOGS =>
      Some (dict [(KEY_UP c, _handle_dialog_up); (KEY_DOWN c, _handle_dialog_down);
                  (KEY_RIGHT c, _handle_open_dialog); (TAB, _handle_toggle_dialog_mode);
                  (Q, _handle_exit)])
  | State.CHAT =>
      Some (dict [(KEY_UP c, _handle_message_up); (KEY_DOWN c, _handle_message_down);
                  (KEY_LEFT c, _handle_back_to_dialogs); (R, _handle_reply_mode);
                  (S, _handle_save_media); (Q, _handle_back_to_dialogs)])
  | State.REPLY =>
      Some (dict [(ESC, _handle_cancel_reply); (ENTER, _handle_send_reply)])
  | _ => None
  end.

(** [handle_key]: the handler that is awaited, or [None] when the key is
    not handled and False is returned. *)
Definition handle_key (c : curses) (key : Z) (current_state : State.AppState)
    : option handler :=
  match global_handlers !! key with
  | Some h => Some h
  | None =>
      match state_handlers c current_state with
      | Some handlers => handlers !! key
      | None => None
      end
  end.

End Keys.

(** ** cli.py and input/keys.py: the conversation list and the selection *)

Module CliOps.
Import Cli.

Definition set_dialog_list (c : TelegramCLI) (l : list Dialog) : TelegramCLI :=
  {| dialog_list := l; selected_messages := selected_messages c;
     selected_dialog_index := selected_dialog_index c;
     selected_message_index := selected_message_index c;
     is_all_dialogs_mode := is_all_dialogs_mode c; is_loading := is_loading c;
     cache_manager := cache_manager c; scheduled := scheduled c |}.

Definition set_selected_dialog_index (c : TelegramCLI) (i : Z) : TelegramCLI :=
  {| dialog_list := dialog_list c; selected_messages := selected_messages c;
     selected_dialog_index := i;
     selected_message_index := selected_message_index c;
     is_all_dialogs_mode := is_all_dialogs_mode c; is_loading := is_loading c;
     cache_manager := cache_manager c; scheduled := scheduled c |}.

Definition set_is_all_dialogs_mode (c : TelegramCLI) (b : bool) : TelegramCLI :=
  {| dialog_list := dialog_list c; selected_messages := selected_messages c;
     selected_dialog_index := selected_dialog_index c;
     selected_message_index := selected_message_index c;
     is_all_dialogs_mode := b; is_loading := is_loading c;
     cache_manager := cache_manager c; scheduled := scheduled c |}.

(** [client.get_dialogs]: what the remote client lists, narrowed to the
    conversations with unread messages when asked. *)
Definition get_dialogs (remote : list Dialog) (only_unread : bool) : list Dialog :=
  if only_unread then List.filter (fun dialog => unread_count dialog >? 0) remote
  else remote.

(** [refresh_dialogs]; [screen_raises] tells whether the redraw at its
    end raises. *)
Definition refresh_dialogs (screen_raises : bool) (c : TelegramCLI) : TelegramCLI :=
  let c := set_is_loading c true in
  let c := create_task c (GetDialogs (negb (is_all_dialogs_mode c))) in
  if screen_raises then set_is_loading c false else c.

Definition _on_dialogs_loaded (dialogs : list Dialog) (c : TelegramCLI) : TelegramCLI :=
  let c := set_dialog_list c dialogs in
  let c := if selected_dialog_index c >=? Py.len (dialog_list c)
           then set_selected_dialog_index c 0 else c in
  set_is_loading c false.

Definition toggle_dialogs_mode (screen_raises : bool) (c : TelegramCLI) : TelegramCLI :=
  refresh_dialogs screen_raises (set_is_all_dialogs_mode c (negb (is_all_dialogs_mode c))).

Definition _handle_dialog_up (c : TelegramCLI) : TelegramCLI :=
  if bool_decide (dialog_list c = []) then c
  else set_selected_dialog_index c (Z.max 0 (selected_dialog_index c - 1)).

Definition _handle_dialog_down (c : TelegramCLI) : TelegramCLI :=
  if bool_decide (dialog_list c = []) then c
  else set_selected_dialog_index c
         (Z.min (Py.len (dialog_list c) - 1) (selected_dialog_index c + 1)).

Definition _handle_message_up (c : TelegramCLI) : TelegramCLI :=
  if bool_decide (selected_messages c = []) then c
  else set_selected_message_index c (Z.max 0 (selected_message_index c - 1)).

Definition _handle_message_down (c : TelegramCLI) : TelegramCLI :=
  if bool_decide (selected_messages c = []) then c
  else set_selected_message_index c
         (Z.min (Py.len (selected_messages c) - 1) (selected_message_index c + 1)).

(** The keys that move the selection. *)
Inductive move := Up | Down.

Definition move_dialog (m : move) : TelegramCLI → TelegramCLI :=
  match m with Up => _handle_dialog_up | Down => _handle_dialog_down end.

Definition move_message (m : move) : TelegramCLI → TelegramCLI :=
  match m with Up => _handle_message_up | Down => _handle_message_down end.

End CliOps.

(** ** cli.py and input/keys.py: the session and its handlers *)

Module Session.
Section Session.
Import Text.

(** The values kept in the state data. *)
Context {V : Type}.

(** The session with its state manager: the fields of [TelegramCLI]
    that [Cli.TelegramCLI] leaves out, and the media downloads handed to
    [async_loader.create_task]. *)
Record TelegramApp := {
  cli : Cli.TelegramCLI;
  state_manager : State.StateManager V;
  reply_mode : bool;
  running : bool;
  media_tasks : list Cli.Message
}.

Definition set_cli (s : TelegramApp) (c : Cli.TelegramCLI) : TelegramApp :=
  {| cli := c; state_manager := state_manager s; reply_mode := reply_mode s;
     running := running s; media_tasks := media_tasks s |}.

(** [self.state_manager.set_state(state)] *)
Definition set_app_state (s : TelegramApp) (state : State.AppState) : TelegramApp :=
  {| cli := cli s; state_manager := (State.set_state (state_manager s) state ∅).1;
     reply_mode := reply_mode s; running := running s; media_tasks := media_tasks s |}.

Definition set_reply_mode (s : TelegramApp) (b : bool) : TelegramApp :=
  {| cli := cli s; state_manager := state_manager s; reply_mode := b;
     running := running s; media_tasks := media_tasks s |}.

Definition set_running (s : TelegramApp) (b : bool) : TelegramApp :=
  {| cli := cli s; state_manager := state_manager s; reply_mode := reply_mode s;
     running := b; media_tasks := media_tasks s |}.

(** [TelegramCLI(client, state_manager)], with the cache manager that
    [CacheManager()] gives. *)
Definition init (cache_manager : Cache.CacheManager (list Cli.Dialog) (list Cli.Message))
    (state_manager : State.StateManager V) : TelegramApp :=
  {| cli := {| Cli.dialog_list := []; Cli.selected_messages := [];
               Cli.selected_dialog_index := 0; Cli.selected_message_index := 0;
               Cli.is_all_dialogs_mode := false; Cli.is_loading := false;
               Cli.cache_manager := cache_manager; Cli.scheduled := [] |};
     state_manager := state_manager; reply_mode := false; running := false;
     media_tasks := [] |}.

(** [run], [_main_loop] and the head of [_async_main_loop], up to the
    loop: [screen_raises] tells whether the redraw in [refresh_dialogs]
    raises. *)
Definition start (screen_raises : bool) (s : TelegramApp) : TelegramApp :=
  let s := set_running s true in
  let s := set_app_state s State.DIALOGS in
  set_cli s (CliOps.refresh_dialogs screen_raises (cli s)).

Definition open_selected_dialog (now : Z) (screen_raises : bool) (s : TelegramApp)
    : TelegramApp :=
  if bool_decide (Cli.dialog_list (cli s) = [])
     || (Cli.selected_dialog_index (cli s) >=? Py.len (Cli.dialog_list (cli s)))
  then s
  else
    let s := set_cli s (Cli.refresh_messages now screen_raises (cli s)) in
    set_app_state s State.CHAT.

Definition back_to_dialogs (screen_raises : bool) (s : TelegramApp) : TelegramApp :=
  let s := set_cli s (Cli.set_selected_message_index (cli s) 0) in
  let s := set_cli s (Cli.set_selected_messages (cli s) []) in
  let s := set_reply_mode s false in
  let s := set_cli s (CliOps.refresh_dialogs screen_raises (cli s)) in
  set_app_state s State.DIALOGS.

(** [enter_reply_mode]; [reply_text] is the line that was read, [None]
    when reading it raises.  The result tells whether the call raised. *)
Definition enter_reply_mode (reply_text : option str) (s : TelegramApp)
    : TelegramApp * bool :=
  if bool_decide (Cli.selected_messages (cli s) = [])
     || (Cli.selected_message_index (cli s) >=? Py.len (Cli.selected_messages (cli s)))
  then (s, false)
  else
    let s := set_reply_mode s true in
    match reply_text with
    | None => (s, true)
    | Some reply_text =>
        let s := if truthy (Fmt.strip reply_text)
                 then set_cli s (Cli.send_reply reply_text (cli s)) else s in
        (set_reply_mode s false, false)
    end.

(** [save_media]; it raises when the index is out of range on the
    negative side. *)
Definition save_media (s : TelegramApp) : TelegramApp * bool :=
  if bool_decide (Cli.selected_messages (cli s) = [])
     || (Cli.selected_message_index (cli s) >=? Py.len (Cli.selected_messages (cli s)))
  then (s, false)
  else
    match Py.getitem (Cli.selected_messages (cli s)) (Cli.selected_message_index (cli s)) with
    | None => (s, true)
    | Some message =>
        if bool_decide (is_Some (ChatView.media message))
        then
          let s := set_cli s (Cli.set_is_loading (cli s) true) in
          ({| cli := cli s; state_manager := state_manager s; reply_mode := reply_mode s;
              running := running s; media_tasks := media_tasks s ++ [message] |}, false)
        else (s, false)
    end.

Definition _on_media_downloaded (s : TelegramApp) : TelegramApp :=
  set_cli s (Cli.set_is_loading (cli s) false).

(** What [refresh_screen] draws; the status bar is drawn in every
    state. *)
Inductive view :=
| DialogsScreen (v : DialogsView.screen)
| ChatScreen (v : ChatView.screen)
| StatusBar.

(** [refresh_screen] on a screen of the given size, as far as the
    selection goes: [None] is the IndexError of a selection outside its
    list.  The texts of the rows and of the header, which the session does
    not read, are those of [DialogsView.render_dialogs] and
    [ChatView.render_chat]. *)
Definition refresh_screen (height width : Z) (s : TelegramApp) : option view :=
  match State.get_state (state_manager s) with
  | State.DIALOGS =>
      Some (DialogsScreen
              (DialogsView.scroll height (Cli.dialog_list (cli s))
                 (Cli.selected_dialog_index (cli s)) (Cli.is_loading (cli s))))
  | State.CHAT =>
      dialog ← (if bool_decide (Cli.dialog_list (cli s) = []) then Some None
                else Some <$> Py.getitem (Cli.dialog_list (cli s))
                                (Cli.selected_dialog_index (cli s)));
      ChatScreen <$> ChatView.scroll height width dialog
                       (Cli.selected_messages (cli s))
                       (Cli.selected_message_index (cli s)) (Cli.is_loading (cli s)) true
  | _ => Some StatusBar
  end.

(** *** The handlers of input/keys.py *)

(** What a handler meets when it runs: the time, whether a redraw
    raises, whether the reconnection raises, and the line read in reply
    mode. *)
Record env := {
  now : Z;
  screen_raises : bool;
  reconnect_raises : bool;
  reply_text : option str
}.

Definition _handle_reply_mode (reply_text : option str) (s : TelegramApp)
    : TelegramApp * bool :=
  if reply_mode s then (s, false)
  else
    let s := set_app_state s State.REPLY in
    let '(s, raised) := enter_reply_mode reply_text s in
    if raised then (s, true) else (set_app_state s State.CHAT, false).

Definition _handle_cancel_reply (s : TelegramApp) : TelegramApp :=
  set_app_state (set_reply_mode s false) State.CHAT.

(** The handler that runs, and whether it raises. *)
Definition dispatch (h : Keys.handler) (e : env) (s : TelegramApp) : TelegramApp * bool :=
  match h with
  | Keys._handle_exit => (set_running s false, false)
  | Keys._handle_reconnect =>
      (if reconnect_raises e then s
       else set_cli s (CliOps.refresh_dialogs (screen_raises e) (cli s)), false)
  | Keys._handle_refresh => (s, screen_raises e)
  | Keys._handle_dialog_up => (set_cli s (CliOps._handle_dialog_up (cli s)), false)
  | Keys._handle_dialog_down => (set_cli s (CliOps._handle_dialog_down (cli s)), false)
  | Keys._handle_open_dialog => (open_selected_dialog (now e) (screen_raises e) s, false)
  | Keys._handle_toggle_dialog_mode =>
      (set_cli s (CliOps.toggle_dialogs_mode (screen_raises e) (cli s)), false)
  | Keys._handle_message_up => (set_cli s (CliOps._handle_message_up (cli s)), false)
  | Keys._handle_message_down => (set_cli s (CliOps._handle_message_down (cli s)), false)
  | Keys._handle_back_to_dialogs => (back_to_dialogs (screen_raises e) s, false)
  | Keys._handle_reply_mode => _handle_reply_mode (reply_text e) s
  | Keys._handle_save_media => save_media s
  | Keys._handle_cancel_reply => (_handle_cancel_reply s, false)
  | Keys._handle_send_reply => (s, false)
  end.

(** [KeyHandler.handle_key] on the session. *)
Definition handle_key (c : Keys.curses) (key : Z) (e : env) (s : TelegramApp)
    : TelegramApp * bool :=
  match Keys.handle_key c key (State.get_state (state_manager s)) with
  | Some h => dispatch h e s
  | None => (s, false)
  end.

(** *** The loop *)

(** What happens in a turn of [_async_main_loop]: a key is handled, a
    task of the loader ends and its callback runs, or an exception reaches
    the loop. *)
Inductive event :=
| KeyPressed (key : Z) (e : env)
| DialogsLoaded (dialogs : list Cli.Dialog)
| MessagesLoaded (now : Z) (dialog_id : Z) (messages : list Cli.Message)
| ReplySent (dialog : Cli.Dialog) (message : Cli.Message)
| MessageMarkedRead
| MessagesRefreshed (now : Z) (screen_raises : bool)
| MediaDownloaded
| Failed.

(** The loop goes on while [running]; an exception that reaches it
    clears the flag. *)
Definition step (c : Keys.curses) (s : TelegramApp) (ev : event) : TelegramApp :=
  if running s then
    match ev with
    | KeyPressed key e =>
        let '(s, raised) := handle_key c key e s in
        if raised then set_running s false else s
    | DialogsLoaded dialogs => set_cli s (CliOps._on_dialogs_loaded dialogs (cli s))
    | MessagesLoaded now dialog_id messages =>
        set_cli s (Cli._on_messages_loaded now dialog_id messages (cli s))
    | ReplySent dialog message => set_cli s (Cli._on_reply_sent dialog message (cli s))
    | MessageMarkedRead => set_cli s (Cli._on_message_marked_read (cli s))
    | MessagesRefreshed now screen_raises =>
        set_cli s (Cli.refresh_messages now screen_raises (cli s))
    | MediaDownloaded => _on_media_downloaded s
    | Failed => set_running s false
    end
  else s.

(** The session after the events. *)
Definition run (c : Keys.curses) (events : list event) (s : TelegramApp) : TelegramApp :=
  fold_left (step c) events s.

End Session.
Arguments TelegramApp : clear implicits.
Arguments event : clear implicits.
End Session.

(** ** state.py: the state data, and managers in use *)

Module StateOps.
Section StateOps.
Context {V : Type}.

Definition get_state_data (sm : State.StateManager V) (key : string) (default : option V)
    : option V :=
  match State.state_data sm !! key with
  | Some v => Some v
  | None => default
  end.

Definition set_state_data (sm : State.StateManager V) (key : string) (value : V)
    : State.StateManager V :=
  {| State.current_state := State.current_state sm;
     State.prev_state := State.prev_state sm;
     State.state_data := <[key := value]> (State.state_data sm);
     State.state_change_callbacks := State.state_change_callbacks sm |}.

(** The calls that a program makes on its manager. *)
Inductive op :=
| SetState (state : State.AppState) (data : gmap string V)
| ReturnToPreviousState
| SetStateData (key : string) (value : V)
| Register (state : State.AppState) (cb : State.callback (V := V)).

Definition apply (sm : State.StateManager V) (o : op) : State.StateManager V :=
  match o with
  | SetState state data => (State.set_state sm state data).1
  | ReturnToPreviousState => (State.return_to_previous_state sm).1
  | SetStateData key value => set_state_data sm key value
  | Register state cb => State.register_state_change_callback sm state cb
  end.

(** The manager after the calls, from [StateManager()]. *)
Definition run (ops : list op) : State.StateManager V := fold_left apply ops State.new.

End StateOps.
Arguments op : clear implicits.
End StateOps.

(** ** config.py *)

Module Config.
Section Config.

(** The values of the configuration, and which of them count as true. *)
Context {V : Type} (truthy : V → bool).

(** [update_config]: only a key that exists is written. *)
Definition update_config (config : gmap string V) (key : string) (value : V)
    : gmap string V :=
  if bool_decide (is_Some (config !! key)) then <[key := value]> config else config.

Definition get_value (config : gmap string V) (key : string) (default : option V)
    : option V :=
  match config !! key with
  | Some v => Some v
  | None => default
  end.

(** [validate]: the API id and the API hash are there and true. *)
Definition validate (config : gmap string V) : bool :=
  match config !! "api_id", config !! "api_hash" with
  | Some api_id, Some api_hash => truthy api_id && truthy api_hash
  | _, _ => false
  end.

End Config.
End Config.

(** ** Notions used in the properties *)

(** The words held by the lines made so far and by the line in the
    making. *)
Definition held_words (st : list Text.str * Text.str) : list Text.str :=
  flat_map Text.words (fst st) ++ Text.words (snd st).

(** A line is within the width, or it holds no space: it is a single
    word that is longer than the width. *)
Definition line_ok (width : Z) (l : Text.str) : Prop :=
  Py.len l ≤ width ∨ (width < Py.len l ∧ ¬ In Text.space l).

(** What [save_cache] writes for one entry of the message cache. *)
Definition saved {Messages : Type} (p : Z * Cache.messages_entry Messages) : option Z * option Z :=
  let '(dialog_id, entry) := p in (Some dialog_id, Some (Cache.m_timestamp entry)).

Section LoaderNotions.
Context {value exn cb : Type}.
Implicit Types (w : Loader.World value exn cb) (t : Loader.Task cb).
Implicit Types (tr : list (Loader.event value exn cb)).

(** The tasks named by the callback calls of a trace. *)
Definition call_ids tr : list nat :=
  omap (λ e, match e with
             | Loader.Called i _ _ => Some i
             | Loader.Deleted _ => None
             end) tr.

(** The callback is the one the task was given for that end. *)
Definition own_callback t (f : cb) (arg : value + exn) : Prop :=
  match arg with
  | inl _ => Loader.t_on_complete t = Some f
  | inr _ => Loader.t_on_error t = Some f
  end.

(** The tasks of the event loop are those named 0 .. next_uuid - 1: one
    for every call of [create_task] so far. *)
Definition bounded w : Prop :=
  ∀ i, is_Some (Loader.tasks w !! i) ↔ (i < Loader.next_uuid w)%nat.

(** How the tasks of the event loop may change: no task is lost, a task
    keeps its callbacks, a finished task stays finished, and new tasks take
    fresh identifiers. *)
Definition evolves w w' : Prop :=
  (Loader.next_uuid w ≤ Loader.next_uuid w')%nat
  ∧ (∀ i t, Loader.tasks w !! i = Some t →
       ∃ t', Loader.tasks w' !! i = Some t'
             ∧ Loader.t_on_complete t' = Loader.t_on_complete t
             ∧ Loader.t_on_error t' = Loader.t_on_error t
             ∧ (Loader.t_phase t = Loader.Finished → Loader.t_phase t' = Loader.Finished))
  ∧ (∀ i, is_Some (Loader.tasks w' !! i) ↔
       is_Some (Loader.tasks w !! i)
       ∨ (Loader.next_uuid w ≤ i < Loader.next_uuid w')%nat).

(** What holds of every world that the loader can be in. *)
Definition invariant w : Prop :=
  NoDup (call_ids (Loader.trace w))
  ∧ bounded w
  ∧ (∀ i f arg, Loader.Called i f arg ∈ Loader.trace w →
       ∃ t, Loader.tasks w !! i = Some t
            ∧ Loader.t_phase t = Loader.Finished ∧ own_callback t f arg).

(** The callback calls that a wrapper makes when [await coro] ends with
    [o]: the callback for that end if there is one, no call after a
    cancellation. *)
Definition expected_calls (task_id : nat) (o : Loader.outcome value exn)
    (on_complete on_error : option cb) : list (Loader.event value exn cb) :=
  match o with
  | Loader.Returned result =>
      match on_complete with
      | Some f => [Loader.Called task_id f (inl result)]
      | None => []
      end
  | Loader.Raised e =>
      match on_error with
      | Some g => [Loader.Called task_id g (inr e)]
      | None => []
      end
  | Loader.CancelledError => []
  end.

End LoaderNotions.

(** The previous state is never the current one. *)
Definition distinct_states {V : Type} (sm : State.StateManager V) : Prop :=
  State.prev_state sm ≠ Some (State.current_state sm).

(** The selected indices point into their lists, when those are not
    empty. *)
Definition selection_ok (c : Cli.TelegramCLI) : Prop :=
  0 ≤ Cli.selected_dialog_index c
  ∧ (Cli.dialog_list c = [] ∨ Cli.selected_dialog_index c < Py.len (Cli.dialog_list c))
  ∧ 0 ≤ Cli.selected_message_index c
  ∧ (Cli.selected_messages c = []
     ∨ Cli.selected_message_index c < Py.len (Cli.selected_messages c)).

(** A dialog whose row has a text: it has a name, or unread messages. *)
Definition has_text (width : Z) (dialog : DialogRow.Dialog) : Prop :=
  is_Some (DialogRow.dialog_row dialog width).

(** What the listeners of a state leave of the state data, each given
    what the one before it left. *)
Definition listeners_leave {V : Type} (callbacks : list (State.callback (V := V)))
    (data : gmap string V) : gmap string V :=
  fold_left (λ data cb, (cb data).1) callbacks data.

(** A scroll bar whose thumb, [bar = (height, position)], lies in the
    track: the rows of the track are empty rows, then the rows of the thumb,
    at least one, then empty rows. *)
Definition in_track (track : Z) (bar : Z * Z) : Prop :=
  1 ≤ bar.1 ∧ 0 ≤ bar.2 ∧ bar.2 + bar.1 ≤ track
  ∧ Scrollbar.rows track bar
    = replicate (Z.to_nat bar.2) false ++ replicate (Z.to_nat bar.1) true
      ++ replicate (Z.to_nat (track - bar.2 - bar.1)) false.

Section LoaderTable.
Context {value exn cb : Type}.
Implicit Types (w : Loader.World value exn cb).

(** The tasks that the wrappers deleted from the table, in order. *)
Definition deletion_ids (tr : list (Loader.event value exn cb)) : list nat :=
  omap (λ e, match e with
             | Loader.Deleted i => Some i
             | Loader.Called _ _ _ => None
             end) tr.

(** What holds of the table of every loader in use: the identifiers in
    it were handed out already, an entry holds the task of its own
    identifier, and a task that a wrapper deleted was deleted once and is
    in the table no more. *)
Definition table_invariant w : Prop :=
  NoDup (deletion_ids (Loader.trace w))
  ∧ (∀ i, is_Some (Loader.active_tasks (Loader.loader w) !! i) →
       (i < Loader.next_uuid w)%nat)
  ∧ (∀ i, i ∈ deletion_ids (Loader.trace w) →
       (i < Loader.next_uuid w)%nat
       ∧ Loader.active_tasks (Loader.loader w) !! i = None)
  ∧ (∀ i task on_complete on_error,
       Loader.active_tasks (Loader.loader w) !! i = Some (task, on_complete, on_error) →
       task = i).

(** The tasks that the entries of a table hold. *)
Definition handles (entries : list (nat * (nat * option cb * option cb))) : list nat :=
  map (λ '(_, (task, _, _)), task) entries.

End LoaderTable.

(** ** Sample values *)

Definition sample_cache : Cache.CacheManager (list nat) (list nat) :=
  Cache.store_messages
    (Cache.init {| Cache.dialogs_cache_json := None; Cache.messages_cache_json := None |} 5)
    100 7 [1; 2]%nat.

Definition sample_message : Cli.Message :=
  {| ChatView.message := Some [104; 105]%N; ChatView.media := None |}.

Definition sample_dialog : Cli.Dialog := {| Cli.id := 7; Cli.unread_count := 1 |}.

(** A session in the chat of conversation 7, whose message list was
    cached at time [stored_at]. *)
Definition sample_cli (stored_at : Z) (cached : list Cli.Message) : Cli.TelegramCLI :=
  {| Cli.dialog_list := [sample_dialog];
     Cli.selected_messages := cached;
     Cli.selected_dialog_index := 0;
     Cli.selected_message_index := 0;
     Cli.is_all_dialogs_mode := false;
     Cli.is_loading := false;
     Cli.cache_manager :=
       Cache.store_messages
         (Cache.init {| Cache.dialogs_cache_json := None; Cache.messages_cache_json := None |} 5)
         stored_at 7 cached;
     Cli.scheduled := [] |}.

(** Callbacks that do nothing. *)
Definition idle (f : nat) (arg : nat + nat) : list (Loader.command nat) * bool := ([], false).

(** A group with a title and nothing unread. *)
Definition titled_dialog : DialogRow.Dialog :=
  {| DialogRow.entity := {| DialogRow.title := Some (Some [104; 105]%N);
                            DialogRow.first_name := None; DialogRow.last_name := None |};
     DialogRow.unread_count := 0 |}.

(** A listener that writes a key of the state data, and one that writes
    another key and raises. *)
Definition sample_listener (data : gmap string nat) : gmap string nat * bool :=
  (<["seen" := 1%nat]> data, false).

Definition raising_listener (data : gmap string nat) : gmap string nat * bool :=
  (<["tried" := 2%nat]> data, true).

(** The key codes of ncurses. *)
Definition sample_curses : Keys.curses :=
  {| Keys.KEY_UP := 259; Keys.KEY_DOWN := 258; Keys.KEY_LEFT := 260; Keys.KEY_RIGHT := 261 |}.

Definition empty_disk : Cache.files :=
  {| Cache.dialogs_cache_json := None; Cache.messages_cache_json := None |}.

Definition sample_env : Session.env :=
  {| Session.now := 100; Session.screen_raises := false; Session.reconnect_raises := false;
     Session.reply_text := Some [104; 105]%N |}.

(** * Properties *)

(** ** Sums and Python indexing *)

Lemma sum_fold_left (l : list Z) (a : Z) : fold_left Z.add l a = a + ViewportSpec.sum l.
Proof.
  revert a; induction l as [|h l IH]; intros a; simpl.
  - lia.
  - rewrite IH. lia.
Qed.

Lemma py_sum_spec (l : list Z) : Py.sum l = ViewportSpec.sum l.
Proof. unfold Py.sum. rewrite sum_fold_left. lia. Qed.

Lemma sum_app (l1 l2 : list Z) :
  ViewportSpec.sum (l1 ++ l2) = ViewportSpec.sum l1 + ViewportSpec.sum l2.
Proof. induction l1 as [|h l1 IH]; simpl; lia. Qed.

Lemma sum_nonneg (l : list Z) : Forall (λ h, 0 ≤ h) l → 0 ≤ ViewportSpec.sum l.
Proof. induction 1; simpl; lia. Qed.

Lemma sum_take_drop (k : nat) (l : list Z) :
  ViewportSpec.sum l = ViewportSpec.sum (take k l) + ViewportSpec.sum (drop k l).
Proof. rewrite <- sum_app, take_drop. reflexivity. Qed.

Lemma getitem_nat {A} (l : list A) (k : nat) : Py.getitem l (Z.of_nat k) = l !! k.
Proof.
  unfold Py.getitem. destruct (Z.leb_spec 0 (Z.of_nat k)); [|lia].
  by rewrite Nat2Z.id.
Qed.

Lemma slice_to_nat {A} (l : list A) (k : nat) : Py.slice_to l (Z.of_nat k) = take k l.
Proof.
  unfold Py.slice_to. destruct (Z.leb_spec 0 (Z.of_nat k)); [|lia].
  by rewrite Nat2Z.id.
Qed.

Lemma range_down_nil : Py.range_down (Z.of_nat 0 - 1) = [].
Proof. reflexivity. Qed.

Lemma range_down_succ (k : nat) :
  Py.range_down (Z.of_nat (S k) - 1) = Z.of_nat k :: Py.range_down (Z.of_nat k - 1).
Proof.
  unfold Py.range_down.
  replace (Z.to_nat (Z.of_nat (S k) - 1 + 1)) with (S k) by lia.
  replace (Z.to_nat (Z.of_nat k - 1 + 1)) with k by lia.
  simpl. f_equal; [lia|].
  rewrite <- seq_shift, map_map. apply map_ext. intros; lia.
Qed.

Lemma take_succ_rev {A} (l : list A) (k : nat) (x : A) :
  l !! k = Some x → rev (take (S k) l) = x :: rev (take k l).
Proof.
  intros Hk. rewrite (take_S_r _ _ _ Hk), rev_app_distr. reflexivity.
Qed.

(** ** The start index of the message list *)

(** The loop of [render_chat] walks as the specification says. *)
Lemma walk_back_absorb (heights : list Z) (H : Z) (k : nat) (cur : Z) :
  (k ≤ length heights)%nat →
  ChatView.walk_back heights H (Py.range_down (Z.of_nat k - 1)) cur (Z.of_nat k)
  = Some (Z.of_nat (k - ViewportSpec.absorb (rev (take k heights)) H cur)).
Proof.
  revert cur. induction k as [|k IH]; intros cur Hk.
  - reflexivity.
  - destruct (lookup_lt_is_Some_2 heights k) as [h Hh]; [lia|].
    rewrite range_down_succ, (take_succ_rev _ _ _ Hh). simpl.
    rewrite getitem_nat, Hh. simpl.
    destruct (Z.leb_spec (cur + h) H).
    + rewrite IH by lia. reflexivity.
    + reflexivity.
Qed.

Lemma start_index_spec (heights : list Z) (H : Z) (S : nat) :
  (S < length heights)%nat →
  ChatView.start_index heights H (Z.of_nat S)
  = Some (Z.of_nat (ViewportSpec.start heights H S)).
Proof.
  intros HS. unfold ChatView.start_index, ViewportSpec.start.
  rewrite !py_sum_spec, slice_to_nat, getitem_nat.
  destruct (Z.leb_spec (ViewportSpec.sum heights) H); [reflexivity|].
  destruct (lookup_lt_is_Some_2 heights S HS) as [h Hh].
  rewrite Hh. simpl.
  rewrite (nth_lookup_Some _ _ 0 _ Hh).
  destruct (Z.gtb_spec (ViewportSpec.sum (take S heights) + h) H); [reflexivity|].
  apply walk_back_absorb. lia.
Qed.

Lemma spec_start_le (heights : list Z) (H : Z) (S : nat) :
  (ViewportSpec.start heights H S ≤ S)%nat.
Proof.
  unfold ViewportSpec.start.
  repeat match goal with |- context [if ?b then _ else _] => destruct b end; lia.
Qed.

Lemma sum_take_succ (l : list Z) (k : nat) (h : Z) :
  l !! k = Some h → ViewportSpec.sum (take (S k) l) = ViewportSpec.sum (take k l) + h.
Proof. intros Hk. rewrite (take_S_r _ _ _ Hk), sum_app. simpl. lia. Qed.

Lemma sum_take_le (l : list Z) (k : nat) :
  Forall (λ h, 0 ≤ h) l → ViewportSpec.sum (take k l) ≤ ViewportSpec.sum l.
Proof.
  intros Hl. rewrite (sum_take_drop k l).
  pose proof (sum_nonneg (drop k l) (Forall_drop _ _ _ Hl)). lia.
Qed.

Lemma sum_window (l : list Z) (a m : nat) :
  ViewportSpec.sum (take m (drop a l))
  = ViewportSpec.sum (take (a + m) l) - ViewportSpec.sum (take a l).
Proof. rewrite <- take_take_drop, sum_app. lia. Qed.

(** ** The loop that draws the messages *)

Lemma range_seq (a b : Z) :
  Py.range a b = map (λ k, a + Z.of_nat k) (seq 0 (Z.to_nat (b - a))).
Proof. reflexivity. Qed.

(** From any point of the loop on: the loop ends, it draws no more items
    than are left, and it draws every run of items that fits. *)
Lemma draw_messages_bounds (heights : list Z) (height : Z) (start n : nat) :
  Forall (λ h, 0 ≤ h) heights →
  ∀ (a : nat) (y d : Z),
    (start + a + n ≤ length heights)%nat →
    ∃ r, ChatView.draw_messages heights height
           (map (λ k, Z.of_nat start + Z.of_nat k) (seq a n)) y d = Some r
         ∧ d ≤ r ≤ d + Z.of_nat n
         ∧ ∀ m, (m ≤ n)%nat →
             y + ViewportSpec.sum (take m (drop (start + a) heights)) ≤ height - 2 →
             d + Z.of_nat m ≤ r.
Proof.
  intros Hpos. induction n as [|n IH]; intros a y d Hlen; simpl.
  - exists d. split; [reflexivity|]. split; [lia|].
    intros m Hm _. lia.
  - destruct (lookup_lt_is_Some_2 heights (start + a)) as [h Hh]; [lia|].
    replace (Z.of_nat start + Z.of_nat a) with (Z.of_nat (start + a)) by lia.
    rewrite getitem_nat, Hh. simpl.
    assert (0 ≤ h) as Hh0.
    { eapply (Forall_lookup_1 _ _ _ _ Hpos Hh). }
    rewrite (drop_S _ _ _ Hh).
    destruct (Z.gtb_spec (y + h) (height - 2)) as [Hbig|Hfit].
    + exists d. split; [reflexivity|]. split; [lia|].
      intros [|m] Hm Hsum; [lia|]. simpl in Hsum.
      pose proof (sum_nonneg (take m (drop (S (start + a)) heights))
                    (Forall_take _ _ _ (Forall_drop _ _ _ Hpos))). lia.
    + destruct (IH (S a) (y + h) (d + 1)) as (r & Hr & Hb & Hfull); [lia|].
      exists r. split; [exact Hr|]. split; [lia|].
      intros [|m] Hm Hsum; [lia|]. simpl in Hsum.
      replace (start + S a)%nat with (S (start + a)) in Hfull by lia.
      specialize (Hfull m ltac:(lia) ltac:(lia)). lia.
Qed.

(** The loop draws nothing when its first item does not fit. *)
Lemma draw_messages_first_too_high (heights : list Z) (height : Z) (S : nat) (h : Z) :
  heights !! S = Some h →
  height - 4 < h →
  ChatView.draw_messages heights height
    (Py.range (Z.of_nat S) (Py.len heights)) 2 0 = Some 0.
Proof.
  intros Hh Hbig. pose proof (lookup_lt_Some _ _ _ Hh) as HS.
  rewrite range_seq. unfold Py.len.
  replace (Z.to_nat (Z.of_nat (length heights) - Z.of_nat S))
    with (Datatypes.S (length heights - S - 1)) by lia.
  simpl. rewrite Z.add_0_r, getitem_nat, Hh. simpl.
  destruct (Z.gtb_spec (2 + h) (height - 2)); [reflexivity|lia].
Qed.

(** ** The rendered range of the message list *)

Lemma spec_start_too_high (heights : list Z) (H : Z) (S : nat) (h : Z) :
  Forall (λ h, 0 ≤ h) heights →
  heights !! S = Some h →
  H < h →
  ViewportSpec.start heights H S = S.
Proof.
  intros Hpos Hh Hbig. unfold ViewportSpec.start.
  rewrite (nth_lookup_Some _ _ 0 _ Hh).
  pose proof (sum_take_le heights (Datatypes.S S) Hpos) as Hle.
  rewrite (sum_take_succ _ _ _ Hh) in Hle.
  pose proof (sum_nonneg (take S heights) (Forall_take _ _ _ Hpos)).
  destruct (Z.leb_spec (ViewportSpec.sum heights) H); [lia|].
  destruct (Z.gtb_spec (ViewportSpec.sum (take S heights) + h) H); [reflexivity|lia].
Qed.

(** The items from the start index to the selected one fit together when
    the selected one fits alone. *)
Lemma spec_start_window_fits (heights : list Z) (H : Z) (S : nat) (h : Z) :
  Forall (λ h, 0 ≤ h) heights →
  heights !! S = Some h →
  h ≤ H →
  let st := ViewportSpec.start heights H S in
  ViewportSpec.sum (take (S - st + 1) (drop st heights)) ≤ H.
Proof.
  intros Hpos Hh Hfit st.
  pose proof (spec_start_le heights H S) as Hle. fold st in Hle.
  rewrite sum_window. replace (st + (S - st + 1))%nat with (Datatypes.S S) by lia.
  rewrite (sum_take_succ _ _ _ Hh).
  pose proof (sum_nonneg (take st heights) (Forall_take _ _ _ Hpos)).
  subst st. unfold ViewportSpec.start in *.
  rewrite (nth_lookup_Some _ _ 0 _ Hh) in *.
  destruct (Z.leb_spec (ViewportSpec.sum heights) H).
  - pose proof (sum_take_le heights (Datatypes.S S) Hpos) as Hle'.
    rewrite (sum_take_succ _ _ _ Hh) in Hle'. simpl. lia.
  - destruct (Z.gtb_spec (ViewportSpec.sum (take S heights) + h) H); lia.
Qed.

Lemma layout_selected (heights : list Z) (height : Z) (S : nat) (h : Z) :
  Forall (λ h, 0 ≤ h) heights →
  heights !! S = Some h →
  ∃ start drawn,
    ChatView.layout heights height (Z.of_nat S) = Some (start, drawn)
    ∧ (h ≤ height - 4 → start ≤ Z.of_nat S < start + drawn)
    ∧ (height - 4 < h → start = Z.of_nat S ∧ drawn = 0).
Proof.
  intros Hpos Hh. pose proof (lookup_lt_Some _ _ _ Hh) as HS.
  unfold ChatView.layout. rewrite (start_index_spec _ _ _ HS). simpl.
  set (st := ViewportSpec.start heights (height - 4) S).
  pose proof (spec_start_le heights (height - 4) S) as Hle. fold st in Hle.
  destruct (Z_le_gt_dec h (height - 4)) as [Hfit|Hbig].
  - rewrite range_seq. unfold Py.len.
    destruct (draw_messages_bounds heights height st
                (Z.to_nat (Z.of_nat (length heights) - Z.of_nat st)) Hpos 0%nat 2 0)
      as (r & Hr & Hb & Hfull); [lia|].
    rewrite Hr. simpl. exists (Z.of_nat st), r. split; [reflexivity|].
    split; [|lia]. intros _.
    pose proof (spec_start_window_fits heights (height - 4) S h Hpos Hh Hfit) as Hw.
    fold st in Hw. simpl in Hw.
    specialize (Hfull (S - st + 1)%nat ltac:(lia)).
    rewrite Nat.add_0_r in Hfull. specialize (Hfull ltac:(lia)). lia.
  - assert (st = S) as ->.
    { apply (spec_start_too_high heights (height - 4) S h Hpos Hh). lia. }
    rewrite (draw_messages_first_too_high heights height S h Hh) by lia.
    simpl. exists (Z.of_nat S), 0. split; [reflexivity|]. split; lia.
Qed.

Lemma message_height_pos (media_handler : bool) (width : Z) (msg : ChatView.Message) :
  2 ≤ ChatView.message_height media_handler width msg.
Proof.
  unfold ChatView.message_height, Py.len.
  destruct (media_handler && bool_decide (is_Some (ChatView.media msg))); lia.
Qed.

Lemma message_heights_nonneg (media_handler : bool) (width : Z)
    (messages : list ChatView.Message) :
  Forall (λ h, 0 ≤ h) (ChatView.message_heights media_handler width messages).
Proof.
  unfold ChatView.message_heights. apply Forall_map, Forall_forall.
  intros msg _. simpl. pose proof (message_height_pos media_handler width msg). lia.
Qed.

(** C4: for the message list, [render_chat] computes the start index by
    the three cases of the specification: 0 when all the heights sum to at
    most H; the selected index S when the heights before S plus the height
    of S exceed H; otherwise the index reached by walking back from S-1 and
    absorbing items while the absorbed heights plus the height of S stay
    within H.  And for ten items of which items 0 to 4 sum to H-1 rows, with
    item 5 selected and needing 3 rows more than remain, the start index
    is 5. *)
Theorem C4_start_index_three_cases (heights : list Z) (H : Z) (S : nat) :
  (S < length heights)%nat →
  ChatView.start_index heights H (Z.of_nat S)
  = Some (Z.of_nat (ViewportSpec.start heights H S))
  ∧ (length heights = 10%nat →
     S = 5%nat →
     Forall (λ h, 0 ≤ h) heights →
     Py.sum (take 5 heights) = H - 1 →
     heights !! 5%nat = Some (H - Py.sum (take 5 heights) + 3) →
     ChatView.start_index heights H 5 = Some 5).
Proof.
  intros HS. split; [by apply start_index_spec|].
  intros Hlen -> Hpos Hsum Hh.
  change 5 with (Z.of_nat 5). rewrite (start_index_spec _ _ _ HS).
  do 2 f_equal. rewrite py_sum_spec in Hsum, Hh.
  unfold ViewportSpec.start. rewrite (nth_lookup_Some _ _ 0 _ Hh).
  pose proof (sum_take_le heights 6 Hpos) as Hle.
  rewrite (sum_take_succ _ _ _ Hh) in Hle.
  destruct (Z.leb_spec (ViewportSpec.sum heights) H); [lia|].
  destruct (Z.gtb_spec (ViewportSpec.sum (take 5 heights)
                        + (H - ViewportSpec.sum (take 5 heights) + 3)) H);
    [reflexivity|lia].
Qed.

Lemma C4_start_index_three_cases_witness :
  ChatView.start_index [2; 2; 2; 2; 2; 4; 2; 2; 2; 2] 11 (Z.of_nat 5)
  = Some (Z.of_nat (ViewportSpec.start [2; 2; 2; 2; 2; 4; 2; 2; 2; 2] 11 5))
  ∧ ChatView.start_index [2; 2; 2; 2; 2; 4; 2; 2; 2; 2] 11 5 = Some 5.
Proof.
  destruct (C4_start_index_three_cases [2; 2; 2; 2; 2; 4; 2; 2; 2; 2] 11 5)
    as [Hspec Hscenario].
  - simpl. lia.
  - split; [exact Hspec|]. apply Hscenario.
    + reflexivity.
    + reflexivity.
    + repeat constructor; lia.
    + reflexivity.
    + reflexivity.
Defined.



(** ** The conversation list *)

#[local] Instance has_text_dec (width : Z) (dialog : DialogRow.Dialog) :
  Decision (has_text width dialog).
Proof. unfold has_text. apply _. Defined.

(** The row loop on rows that all have a text, and on rows of which one
    has none. *)
Lemma draw_rows_texts (dialogs : list DialogRow.Dialog) (width : Z) (start n : nat) :
  ∀ a : nat,
    (start + a + n ≤ length dialogs)%nat →
    Forall (has_text width) (take n (drop (start + a) dialogs)) →
    DialogsView.draw_rows dialogs width (Z.of_nat start)
      (map (λ k, 0 + Z.of_nat k) (seq a n))
    = Some (map (λ k, Z.of_nat start + Z.of_nat k) (seq a n)).
Proof.
  induction n as [|n IH]; intros a Hle Htexts; simpl; [reflexivity|].
  destruct (lookup_lt_is_Some_2 dialogs (start + a)) as [dialog Hd]; [lia|].
  rewrite (drop_S _ _ _ Hd) in Htexts. simpl in Htexts.
  apply Forall_cons in Htexts as [[name Hname] Htexts].
  unfold Py.len. destruct (Z.geb_spec (Z.of_nat start + (0 + Z.of_nat a))
                             (Z.of_nat (length dialogs))); [lia|].
  replace (Z.of_nat start + (0 + Z.of_nat a)) with (Z.of_nat (start + a)) by lia.
  rewrite getitem_nat, Hd. simpl. rewrite Hname. simpl.
  rewrite IH; [simpl; do 2 f_equal; lia|lia|].
  by replace (start + S a)%nat with (S (start + a)) by lia.
Qed.

Lemma draw_rows_raises (dialogs : list DialogRow.Dialog) (width : Z) (start n : nat) :
  ∀ a : nat,
    (start + a + n ≤ length dialogs)%nat →
    Exists (λ dialog, ¬ has_text width dialog) (take n (drop (start + a) dialogs)) →
    DialogsView.draw_rows dialogs width (Z.of_nat start)
      (map (λ k, 0 + Z.of_nat k) (seq a n))
    = None.
Proof.
  induction n as [|n IH]; intros a Hle Hnone; simpl.
  - by apply Exists_nil in Hnone.
  - destruct (lookup_lt_is_Some_2 dialogs (start + a)) as [dialog Hd]; [lia|].
    rewrite (drop_S _ _ _ Hd) in Hnone. simpl in Hnone.
    unfold Py.len. destruct (Z.geb_spec (Z.of_nat start + (0 + Z.of_nat a))
                               (Z.of_nat (length dialogs))); [lia|].
    replace (Z.of_nat start + (0 + Z.of_nat a)) with (Z.of_nat (start + a)) by lia.
    rewrite getitem_nat, Hd. simpl.
    destruct (DialogRow.dialog_row dialog width) as [name|] eqn:Hname; [|reflexivity].
    simpl. apply Exists_cons in Hnone as [Hhead|Htail].
    + destruct Hhead. unfold has_text. rewrite Hname. by eexists.
    + rewrite IH; [reflexivity|lia|].
      by replace (start + S a)%nat with (S (start + a)) by lia.
Qed.

(** C1, as the code has it: when the conversation list does not fit
    (N > H, with H = height - 3 at least 1) and S is an index of the list,
    [render_dialogs] starts at max(0, min(S - H div 2, N - H)): a window of
    H rows around the selected row, kept inside the list.  When every row
    of the window has a text, the rows start .. start+H-1 are drawn and S is
    one of them; when a row of the window has none (a dialog whose name is
    None and that has nothing unread), [render_dialogs] raises.  The start
    is a computation of its own, not the one of the message list, and it
    does not put as many rows as possible above S. *)
Theorem C1_dialogs_window_around_selected (height width : Z)
    (dialogs : list DialogRow.Dialog) (S : Z) (is_loading : bool) :
  1 ≤ height - 3 →
  height - 3 < Py.len dialogs →
  0 ≤ S < Py.len dialogs →
  let H := height - 3 in
  let N := Py.len dialogs in
  let start := Z.max 0 (Z.min (S - H / 2) (N - H)) in
  let window := take (Z.to_nat H) (drop (Z.to_nat start) dialogs) in
  0 ≤ start ∧ start ≤ S < start + H ∧ start + H ≤ N
  ∧ (Forall (has_text width) window →
     DialogsView.render_dialogs height width dialogs S is_loading
     = Some (DialogsView.Rows start (Py.range start (start + H))))
  ∧ (¬ Forall (has_text width) window →
     DialogsView.render_dialogs height width dialogs S is_loading = None).
Proof.
  intros HH HN HS H N start window. fold H in HH, HN. fold N in HN, HS.
  assert (0 ≤ H / 2 ∧ H / 2 < H) as Hhalf.
  { split; [apply Z.div_pos; lia|apply Z.div_lt; lia]. }
  assert (0 ≤ start ∧ start ≤ S < start + H ∧ start + H ≤ N) as Hb by (subst start; lia).
  split; [apply Hb|]. split; [apply Hb|]. split; [apply Hb|].
  assert (length dialogs ≠ 0%nat) as Hne by (unfold N, Py.len in HN; lia).
  assert (DialogsView.render_dialogs height width dialogs S is_loading
          = drawn ← DialogsView.draw_rows dialogs width (Z.of_nat (Z.to_nat start))
                      (map (λ k, 0 + Z.of_nat k) (seq 0 (Z.to_nat H)));
            Some (DialogsView.Rows start drawn)) as ->.
  { unfold DialogsView.render_dialogs.
    rewrite (bool_decide_eq_false_2 _ Hne), andb_false_r.
    fold H N. unfold DialogsView.start_index. fold start.
    rewrite range_seq, Z2Nat.id by lia.
    by replace (Z.min H N - 0) with H by lia. }
  assert (Z.to_nat start + 0 + Z.to_nat H ≤ length dialogs)%nat as Hlen
    by (unfold N, Py.len in Hb; lia).
  split.
  - intros Htexts.
    rewrite (draw_rows_texts dialogs width (Z.to_nat start) (Z.to_nat H) 0%nat Hlen)
      by (by rewrite Nat.add_0_r).
    simpl. rewrite range_seq, Z2Nat.id by lia.
    by replace (start + H - start) with H by lia.
  - intros Hnone. apply not_Forall_Exists in Hnone; [|apply _].
    rewrite (draw_rows_raises dialogs width (Z.to_nat start) (Z.to_nat H) 0%nat Hlen)
      by (by rewrite Nat.add_0_r).
    reflexivity.
Qed.

Lemma C1_dialogs_window_around_selected_witness :
  DialogsView.render_dialogs 7 80 (repeat titled_dialog 10) 5 false
  = Some (DialogsView.Rows 3 [3; 4; 5; 6]).
Proof.
  refine (proj1 (proj2 (proj2 (proj2
            (C1_dialogs_window_around_selected 7 80 (repeat titled_dialog 10) 5 false
               _ _ _)))) _).
  - lia.
  - unfold Py.len. simpl. lia.
  - unfold Py.len. simpl. lia.
  - apply (bool_decide_unpack _). vm_compute. exact I.
Defined.

(** C1 as stated fails: with ten conversations, four visible rows and
    row 5 selected, [render_dialogs] starts at row 3 and draws rows 3 to 6,
    where max(0, S - (H - 1)) is 2; and the message list computation, on
    ten items of height 1 with the same H and S, starts at 5. *)
Lemma C1_counterexample :
  DialogsView.render_dialogs 7 80 (repeat titled_dialog 10) 5 false
  = Some (DialogsView.Rows 3 [3; 4; 5; 6])
  ∧ Z.max 0 (5 - ((7 - 3) - 1)) = 2
  ∧ ChatView.start_index (repeat 1 10) (7 - 3) 5 = Some 5
  ∧ DialogsView.start_index (7 - 3) 10 5 ≠ Z.max 0 (5 - ((7 - 3) - 1)).
Proof. repeat split; try reflexivity. vm_compute. discriminate. Qed.

(** ** Splitting, joining and words *)

Lemma split_by_nonempty (p : Text.char → bool) (s : Text.str) : Text.split_by p s ≠ [].
Proof.
  destruct s as [|c s]; simpl; [discriminate|].
  destruct (p c); [discriminate|]. destruct (Text.split_by p s); discriminate.
Qed.

Lemma split_by_app (p : Text.char → bool) (a b : Text.str) (c : Text.char) :
  p c = true →
  Text.split_by p (a ++ c :: b) = Text.split_by p a ++ Text.split_by p b.
Proof.
  intros Hc. induction a as [|x a IH]; simpl.
  - by rewrite Hc.
  - rewrite IH. destruct (p x); [reflexivity|].
    pose proof (split_by_nonempty p a).
    destruct (Text.split_by p a); [done|reflexivity].
Qed.

(** The pieces hold no separator. *)
Lemma split_by_pieces (p : Text.char → bool) (s w : Text.str) (c : Text.char) :
  In w (Text.split_by p s) → In c w → p c = false.
Proof.
  revert w. induction s as [|x s IH]; intros w Hw Hc; simpl in Hw.
  - destruct Hw as [<-|[]]. destruct Hc.
  - destruct (p x) eqn:Hx.
    + destruct Hw as [<-|Hw]; [destruct Hc|eauto].
    + pose proof (split_by_nonempty p s).
      destruct (Text.split_by p s) as [|w0 ws]; [done|].
      destruct Hw as [<-|Hw].
      * destruct Hc as [<-|Hc]; [exact Hx|]. apply (IH w0); [by left|exact Hc].
      * apply (IH w); [by right|exact Hc].
Qed.

Lemma join_split (c : Text.char) (s : Text.str) : Text.join [c] (Text.split c s) = s.
Proof.
  unfold Text.split. induction s as [|x s IH]; simpl; [reflexivity|].
  pose proof (split_by_nonempty (N.eqb c) s).
  destruct (N.eqb_spec c x) as [->|Hne].
  - destruct (Text.split_by (N.eqb x) s); [done|]. simpl in *. by rewrite IH.
  - destruct (Text.split_by (N.eqb c) s) as [|w ws]; [done|].
    destruct ws; simpl in *; by rewrite <- IH.
Qed.

Lemma words_nil : Text.words [] = [].
Proof. reflexivity. Qed.

Lemma words_app_sep (a b : Text.str) (c : Text.char) :
  Text.isspace c = true → Text.words (a ++ c :: b) = Text.words a ++ Text.words b.
Proof.
  intros Hc. unfold Text.words. by rewrite (split_by_app _ _ _ _ Hc), List.filter_app.
Qed.

Lemma words_join (c : Text.char) (parts : list Text.str) :
  Text.isspace c = true →
  Text.words (Text.join [c] parts) = flat_map Text.words parts.
Proof.
  intros Hc. induction parts as [|p [|q rest] IH]; simpl.
  - reflexivity.
  - by rewrite app_nil_r.
  - rewrite (words_app_sep _ _ _ Hc). f_equal. exact IH.
Qed.

(** The words of a text are the words of its pieces, in order. *)
Lemma words_split (c : Text.char) (s : Text.str) :
  Text.isspace c = true → flat_map Text.words (Text.split c s) = Text.words s.
Proof. intros Hc. by rewrite <- (words_join c _ Hc), join_split. Qed.

(** ** Word wrapping *)

Lemma wrap_word_words (width : Z) (st : list Text.str * Text.str) (word : Text.str) :
  held_words (ChatView.wrap_word width st word) = held_words st ++ Text.words word.
Proof.
  destruct st as [lines cur]. unfold ChatView.wrap_word, held_words.
  destruct (_ <=? width); simpl.
  - destruct cur as [|x cur]; simpl.
    + by rewrite words_nil, app_nil_r.
    + change (x :: cur ++ Text.space :: word) with ((x :: cur) ++ Text.space :: word).
      rewrite (words_app_sep _ _ Text.space) by reflexivity. by rewrite app_assoc.
  - rewrite flat_map_app. simpl. by rewrite app_nil_r.
Qed.

Lemma wrap_words_words (width : Z) (ws : list Text.str) (st : list Text.str * Text.str) :
  held_words (fold_left (ChatView.wrap_word width) ws st)
  = held_words st ++ flat_map Text.words ws.
Proof.
  revert st. induction ws as [|w ws IH]; intros st; simpl.
  - by rewrite app_nil_r.
  - by rewrite IH, wrap_word_words, app_assoc.
Qed.

Lemma wrap_line_words (width : Z) (lines : list Text.str) (line : Text.str) :
  flat_map Text.words (ChatView.wrap_line width lines line)
  = flat_map Text.words lines ++ Text.words line.
Proof.
  unfold ChatView.wrap_line. destruct (_ <=? width).
  - rewrite flat_map_app. simpl. by rewrite app_nil_r.
  - pose proof (wrap_words_words width (Text.split Text.space line) (lines, [])) as Hw.
    destruct (fold_left _ _ _) as [lines' cur].
    unfold held_words in Hw. simpl in Hw.
    rewrite words_nil, app_nil_r, (words_split Text.space) in Hw by reflexivity.
    rewrite <- Hw. destruct cur as [|x cur]; simpl.
    + by rewrite words_nil, app_nil_r.
    + rewrite flat_map_app. simpl. by rewrite app_nil_r.
Qed.

Lemma wrap_text_words (text : Text.str) (width : Z) :
  flat_map Text.words (ChatView.wrap_text text width) = Text.words text.
Proof.
  unfold ChatView.wrap_text.
  assert (∀ ls acc, flat_map Text.words (fold_left (ChatView.wrap_line width) ls acc)
                    = flat_map Text.words acc ++ flat_map Text.words ls) as Hfold.
  { induction ls as [|l ls IH]; intros acc; simpl.
    - by rewrite app_nil_r.
    - by rewrite IH, wrap_line_words, app_assoc. }
  rewrite Hfold. simpl. by apply words_split.
Qed.

Lemma no_space_line_ok (width : Z) (l : Text.str) : ¬ In Text.space l → line_ok width l.
Proof. intros Hl. unfold line_ok. destruct (Z_le_gt_dec (Py.len l) width); [by left|right]. split; [lia|done]. Qed.

Lemma wrap_word_ok (width : Z) (st : list Text.str * Text.str) (word : Text.str) :
  ¬ In Text.space word →
  Forall (line_ok width) (fst st) → line_ok width (snd st) →
  Forall (line_ok width) (fst (ChatView.wrap_word width st word))
  ∧ line_ok width (snd (ChatView.wrap_word width st word)).
Proof.
  destruct st as [lines cur]. simpl. intros Hword Hlines Hcur.
  unfold ChatView.wrap_word.
  destruct (Z.leb_spec (Py.len cur + Py.len word + 1) width) as [Hfit|Hno]; simpl.
  - split; [exact Hlines|]. destruct cur as [|x cur]; simpl.
    + by apply no_space_line_ok.
    + left. unfold Py.len in *. simpl in *. rewrite length_app. simpl. lia.
  - split; [|by apply no_space_line_ok].
    apply Forall_app. split; [exact Hlines|]. by constructor.
Qed.

Lemma wrap_words_ok (width : Z) (ws : list Text.str) (st : list Text.str * Text.str) :
  Forall (λ w, ¬ In Text.space w) ws →
  Forall (line_ok width) (fst st) → line_ok width (snd st) →
  Forall (line_ok width) (fst (fold_left (ChatView.wrap_word width) ws st))
  ∧ line_ok width (snd (fold_left (ChatView.wrap_word width) ws st)).
Proof.
  revert st. induction ws as [|w ws IH]; intros st Hws Hlines Hcur; simpl.
  - by split.
  - inversion Hws as [|? ? Hw Hws']; subst.
    destruct (wrap_word_ok width st w Hw Hlines Hcur) as [H1 H2].
    by apply IH.
Qed.

Lemma split_space_no_space (line : Text.str) :
  Forall (λ w, ¬ In Text.space w) (Text.split Text.space line).
Proof.
  apply Forall_forall. intros w Hw Hin.
  apply list_elem_of_In in Hw.
  pose proof (split_by_pieces _ _ _ _ Hw Hin) as Hf.
  by rewrite N.eqb_refl in Hf.
Qed.

Lemma wrap_line_ok (width : Z) (lines : list Text.str) (line : Text.str) :
  Forall (line_ok width) lines →
  Forall (line_ok width) (ChatView.wrap_line width lines line).
Proof.
  intros Hlines. unfold ChatView.wrap_line.
  destruct (Z.leb_spec (Py.len line) width) as [Hfit|Hno].
  - apply Forall_app. split; [exact Hlines|]. constructor; [by left|constructor].
  - pose proof (wrap_words_ok width (Text.split Text.space line) (lines, [])
                  (split_space_no_space line) Hlines) as Hw.
    destruct (fold_left _ _ _) as [lines' cur]. simpl in Hw.
    destruct Hw as [H1 H2]; [apply no_space_line_ok; by intros []|].
    destruct (Text.truthy cur); [|exact H1].
    apply Forall_app. split; [exact H1|]. by constructor.
Qed.

Lemma wrap_text_ok (text : Text.str) (width : Z) :
  Forall (line_ok width) (ChatView.wrap_text text width).
Proof.
  unfold ChatView.wrap_text.
  assert (∀ ls acc, Forall (line_ok width) acc →
                    Forall (line_ok width) (fold_left (ChatView.wrap_line width) ls acc))
    as Hfold.
  { induction ls as [|l ls IH]; intros acc Hacc; simpl; [exact Hacc|].
    apply IH. by apply wrap_line_ok. }
  apply Hfold. constructor.
Qed.

Lemma display_text_of_text (m : ChatView.Message) (text : Text.str) :
  ChatView.message m = Some text → text ≠ [] → ChatView.display_text m = text.
Proof.
  intros Hm Hne. unfold ChatView.display_text. rewrite Hm.
  destruct text; [done|reflexivity].
Qed.

(** C8, as the code has it: for every message and width W, every line
    that [format_message_text] produces is at most W characters long, or it
    is longer and holds no space (a single word, left whole); and the lines
    joined by single spaces have the same sequence of white-space separated
    words as the text that was wrapped.  That text is the body text of the
    message when the body is not empty; for an empty body it is a
    placeholder, whose words are not those of the body. *)
Theorem C8_wrapping_keeps_width_and_words (m : ChatView.Message) (width : Z) :
  (∀ l, In l (ChatView.format_message_text m width) →
        Py.len l ≤ width ∨ (width < Py.len l ∧ ¬ In Text.space l))
  ∧ Text.words (Text.join [Text.space] (ChatView.format_message_text m width))
    = Text.words (ChatView.display_text m)
  ∧ (∀ text, ChatView.message m = Some text → text ≠ [] →
       ChatView.display_text m = text
       ∧ Text.words (Text.join [Text.space] (ChatView.format_message_text m width))
         = Text.words text).
Proof.
  assert (Text.words (Text.join [Text.space] (ChatView.format_message_text m width))
          = Text.words (ChatView.display_text m)) as Hwords.
  { unfold ChatView.format_message_text.
    rewrite (words_join Text.space) by reflexivity. apply wrap_text_words. }
  split; [|split].
  - intros l Hl. pose proof (wrap_text_ok (ChatView.display_text m) width) as Hok.
    rewrite Forall_forall in Hok. apply Hok. by apply list_elem_of_In.
  - exact Hwords.
  - intros text Hm Hne. rewrite Hwords.
    by rewrite (display_text_of_text m text Hm Hne).
Qed.

Lemma C8_wrapping_keeps_width_and_words_witness :
  ChatView.display_text
    {| ChatView.message := Some [97; 97; 32; 98; 98; 32; 99; 99; 99; 99; 99; 99; 32; 100]%N;
       ChatView.media := None |}
  = [97; 97; 32; 98; 98; 32; 99; 99; 99; 99; 99; 99; 32; 100]%N
  ∧ Text.words (Text.join [Text.space]
                  (ChatView.format_message_text
                     {| ChatView.message := Some [97; 97; 32; 98; 98; 32; 99; 99; 99; 99; 99; 99; 32; 100]%N;
                        ChatView.media := None |} 5))
    = Text.words [97; 97; 32; 98; 98; 32; 99; 99; 99; 99; 99; 99; 32; 100]%N.
Proof.
  refine (proj2 (proj2 (C8_wrapping_keeps_width_and_words
                          {| ChatView.message :=
                               Some [97; 97; 32; 98; 98; 32; 99; 99; 99; 99; 99; 99; 32; 100]%N;
                             ChatView.media := None |} 5))
            [97; 97; 32; 98; 98; 32; 99; 99; 99; 99; 99; 99; 32; 100]%N _ _).
  - reflexivity.
  - discriminate.
Defined.

(** The wrapping at work: "aa bb cccccc d" at width 5. *)
Example format_message_text_example :
  ChatView.format_message_text
    {| ChatView.message := Some [97; 97; 32; 98; 98; 32; 99; 99; 99; 99; 99; 99; 32; 100]%N;
       ChatView.media := None |} 5
  = [[97; 97; 32; 98; 98]; [99; 99; 99; 99; 99; 99]; [100]]%N.
Proof. reflexivity. Qed.

(** C8 as stated fails on the empty text: the lines are those of the
    placeholder, two words, where the text has none. *)
Lemma C8_counterexample :
  ChatView.format_message_text {| ChatView.message := Some []; ChatView.media := None |} 80
  = [ChatView.empty_message_text]
  ∧ Text.words (Text.join [Text.space]
                  (ChatView.format_message_text
                     {| ChatView.message := Some []; ChatView.media := None |} 80))
    ≠ Text.words [].
Proof. split; [reflexivity|]. vm_compute. discriminate. Qed.

(** ** The cache *)

Section CacheProperties.
Context {Dialogs Messages : Type}.
Implicit Types (c : Cache.CacheManager Dialogs Messages).
Implicit Types (cache : gmap Z (Cache.messages_entry Messages)).

Lemma get_dialogs_valid c now only_unread v :
  Cache.get_dialogs c now only_unread = Some v ↔ Cache.dialogs_valid c now only_unread v.
Proof.
  unfold Cache.get_dialogs, Cache.dialogs_valid.
  destruct (Cache.d_data (Cache.dialogs_cache c)) as [d|] eqn:Hd; simpl.
  - destruct (Bool.eqb_spec (Cache.d_only_unread (Cache.dialogs_cache c)) only_unread);
      simpl.
    + destruct (Z.ltb_spec (now - Cache.d_timestamp (Cache.dialogs_cache c))
                  (Cache.max_age_minutes c * 60)).
      * split.
        -- intros [= <-]. split; [reflexivity|]. split; [lia|done].
        -- intros ([= <-] & _). reflexivity.
      * split; [discriminate|]. intros (_ & ? & _). lia.
    + split; [discriminate|]. intros (_ & _ & ?). done.
  - split; [discriminate|]. intros (? & _). discriminate.
Qed.

Lemma get_messages_valid c now dialog_id v :
  Cache.get_messages c now dialog_id = Some v ↔ Cache.messages_valid c now dialog_id v.
Proof.
  unfold Cache.get_messages, Cache.messages_valid.
  destruct (Cache.messages_cache c !! dialog_id) as [entry|]; simpl.
  - destruct (Z.ltb_spec (now - Cache.m_timestamp entry) (Cache.max_age_minutes c * 60)).
    + split; [by eauto|]. intros (e & [= <-] & ? & _). done.
    + split; [discriminate|]. intros (e & [= <-] & _ & ?). lia.
  - split; [discriminate|]. intros (e & ? & _). discriminate.
Qed.

Lemma option_none_iff {A} (o : option A) (P : A → Prop) :
  (∀ v, o = Some v ↔ P v) → (o = None ↔ ∀ v, ¬ P v).
Proof.
  intros HP. destruct o as [a|].
  - split; [discriminate|]. intros Hn. exfalso. apply (Hn a), HP. reflexivity.
  - split; [|reflexivity]. intros _ v Hv. apply HP in Hv. discriminate.
Qed.

(** Loading only ever writes entries without a payload. *)
Lemma load_messages_no_payload (entries : Cache.messages_file) cache :
  (∀ k e, cache !! k = Some e → Cache.m_data e = None) →
  ∀ k e, Cache.load_messages entries cache !! k = Some e → Cache.m_data e = None.
Proof.
  revert cache. induction entries as [|[[dialog_id|] timestamp] rest IH];
    intros cache Hcache; simpl; try exact Hcache.
  apply IH. intros k e. rewrite lookup_insert.
  case_decide; [intros [= <-]; reflexivity|apply Hcache].
Qed.

Lemma init_no_payload (disk : Cache.files) (max_age now dialog_id : Z) :
  Cache.get_messages (Cache.init (Dialogs := Dialogs) (Messages := Messages) disk max_age)
    now dialog_id = None.
Proof.
  unfold Cache.get_messages.
  destruct (Cache.messages_cache _ !! dialog_id) as [entry|] eqn:He; [|reflexivity].
  assert (Cache.m_data entry = None) as ->; [|by destruct (_ <? _)].
  revert He. unfold Cache.init, Cache.load_cache.
  destruct (Cache.messages_cache_json disk) as [cache_data|];
    destruct (Cache.dialogs_cache_json disk); simpl;
    try (rewrite lookup_empty; discriminate);
    apply load_messages_no_payload; intros k e; rewrite lookup_empty; discriminate.
Qed.

Lemma load_saved_other (l : list (Z * Cache.messages_entry Messages)) cache (k : Z) :
  k ∉ l.*1 → Cache.load_messages (map saved l) cache !! k = cache !! k.
Proof.
  revert cache. induction l as [|[k0 e0] l IH]; intros cache Hk; simpl; [reflexivity|].
  rewrite fmap_cons, not_elem_of_cons in Hk. destruct Hk as [Hne Hk]. simpl in Hne.
  rewrite IH by exact Hk. by rewrite lookup_insert_ne.
Qed.

Lemma load_saved_entry (l : list (Z * Cache.messages_entry Messages)) cache (k : Z)
    (e : Cache.messages_entry Messages) :
  NoDup l.*1 → (k, e) ∈ l →
  Cache.load_messages (map saved l) cache !! k
  = Some {| Cache.m_data := None; Cache.m_timestamp := Cache.m_timestamp e |}.
Proof.
  revert cache. induction l as [|[k0 e0] l IH]; intros cache Hnd Hin; simpl.
  - by apply elem_of_nil in Hin.
  - rewrite fmap_cons in Hnd. apply NoDup_cons in Hnd as [Hk0 Hnd].
    apply elem_of_cons in Hin as [[= -> ->]|Hin].
    + rewrite load_saved_other by exact Hk0. by rewrite lookup_insert_eq.
    + by apply IH.
Qed.

(** What was saved comes back with its time stamp and no payload. *)
Lemma init_save_entry c (max_age dialog_id : Z) (entry : Cache.messages_entry Messages) :
  Cache.messages_cache c !! dialog_id = Some entry →
  Cache.messages_cache (Cache.init (Dialogs := Dialogs) (Cache.save_cache c) max_age)
    !! dialog_id
  = Some ({| Cache.m_data := None; Cache.m_timestamp := Cache.m_timestamp entry |}
          : Cache.messages_entry Messages).
Proof.
  intros He. unfold Cache.init, Cache.load_cache, Cache.save_cache. simpl.
  apply (load_saved_entry (map_to_list (Cache.messages_cache c))).
  - apply NoDup_fst_map_to_list.
  - by apply elem_of_map_to_list.
Qed.

End CacheProperties.

(** C5: a cache read returns the stored value exactly when the entry is
    valid: a value is present, now - timestamp is below the TTL
    (max_age_minutes, in seconds), and for the conversation list the
    stored only_unread flag is the requested one; a read of an entry that
    is not valid gives None, as a read of an absent entry does.  After the
    metadata were restored from disk, every per-conversation read is a
    miss, whatever the time stamps: an entry that was saved comes back with
    its time stamp and without its value. *)
Theorem C5_cache_read_iff_valid {Dialogs Messages : Type}
    (c : Cache.CacheManager Dialogs Messages) (now : Z) (only_unread : bool)
    (dialog_id : Z) :
  (∀ v, Cache.get_dialogs c now only_unread = Some v
        ↔ Cache.dialogs_valid c now only_unread v)
  ∧ (∀ v, Cache.get_messages c now dialog_id = Some v
          ↔ Cache.messages_valid c now dialog_id v)
  ∧ (Cache.get_dialogs c now only_unread = None
     ↔ ∀ v, ¬ Cache.dialogs_valid c now only_unread v)
  ∧ (Cache.get_messages c now dialog_id = None
     ↔ ∀ v, ¬ Cache.messages_valid c now dialog_id v)
  ∧ (∀ (disk : Cache.files) (max_age : Z),
       Cache.get_messages
         (Cache.init (Dialogs := Dialogs) (Messages := Messages) disk max_age)
         now dialog_id = None)
  ∧ (∀ (entry : Cache.messages_entry Messages),
       Cache.messages_cache c !! dialog_id = Some entry →
       now - Cache.m_timestamp entry < Cache.max_age_minutes c * 60 →
       let restored :=
         Cache.init (Dialogs := Dialogs) (Cache.save_cache c) (Cache.max_age_minutes c) in
       Cache.messages_cache restored !! dialog_id
       = Some ({| Cache.m_data := None; Cache.m_timestamp := Cache.m_timestamp entry |}
               : Cache.messages_entry Messages)
       ∧ Cache.get_messages restored now dialog_id = None).
Proof.
  split; [intros v; apply get_dialogs_valid|].
  split; [intros v; apply get_messages_valid|].
  split; [apply option_none_iff; intros v; apply get_dialogs_valid|].
  split; [apply option_none_iff; intros v; apply get_messages_valid|].
  split; [intros disk max_age; apply init_no_payload|].
  intros entry He _ restored. split.
  - by apply init_save_entry.
  - apply init_no_payload.
Qed.

Lemma C5_cache_read_iff_valid_witness :
  Cache.get_messages sample_cache 130 7 = Some [1; 2]%nat
  ∧ Cache.get_messages sample_cache 400 7 = None
  ∧ Cache.messages_cache
      (Cache.init (Dialogs := list nat) (Cache.save_cache sample_cache)
         (Cache.max_age_minutes sample_cache)) !! 7
    = Some ({| Cache.m_data := None; Cache.m_timestamp := 100 |}
            : Cache.messages_entry (list nat))
  ∧ Cache.get_messages (Messages := list nat)
      (Cache.init (Dialogs := list nat) (Cache.save_cache sample_cache)
         (Cache.max_age_minutes sample_cache))
      130 7 = None.
Proof.
  assert (Cache.messages_cache sample_cache !! 7
          = Some {| Cache.m_data := Some [1; 2]%nat; Cache.m_timestamp := 100 |}) as He.
  { unfold sample_cache. simpl. apply lookup_insert_eq. }
  destruct (C5_cache_read_iff_valid sample_cache 130 false 7)
    as (_ & Hget & _ & _ & _ & Hrestore).
  destruct (C5_cache_read_iff_valid sample_cache 400 false 7)
    as (_ & _ & _ & Hmiss & _ & _).
  split; [|split].
  - apply Hget. eexists. split; [exact He|]. split; [reflexivity|]. simpl. lia.
  - apply Hmiss. intros v (e & He' & _ & Hfresh).
    rewrite He in He'. injection He' as <-. simpl in Hfresh. lia.
  - apply (Hrestore _ He). simpl. lia.
Defined.

(** ** The state manager *)

Section StateProperties.
Context {V : Type}.
Implicit Types (sm : State.StateManager V) (data : gmap string V).

Lemma notify_keeps_states sm :
  State.current_state (State.notify_state_change sm).1 = State.current_state sm
  ∧ State.prev_state (State.notify_state_change sm).1 = State.prev_state sm.
Proof.
  unfold State.notify_state_change.
  destruct (State.state_change_callbacks sm !! State.current_state sm) as [cbs|];
    [|by split].
  destruct (State.notify_loop _ cbs 0 (State.state_data sm)). by split.
Qed.

Lemma set_state_same sm data :
  State.set_state sm (State.current_state sm) data = (sm, []).
Proof.
  unfold State.set_state. rewrite bool_decide_eq_false_2; [reflexivity|]. by intros ?.
Qed.

Lemma set_state_other sm state data :
  state ≠ State.current_state sm →
  State.current_state (State.set_state sm state data).1 = state
  ∧ State.prev_state (State.set_state sm state data).1 = Some (State.current_state sm).
Proof.
  intros Hne. unfold State.set_state. rewrite (bool_decide_eq_true_2 _ Hne).
  apply (notify_keeps_states
           {| State.current_state := state;
              State.prev_state := Some (State.current_state sm);
              State.state_data := data ∪ State.state_data sm;
              State.state_change_callbacks := State.state_change_callbacks sm |}).
Qed.

(** After [set_state(B)] the current state is B in any case. *)
Lemma set_state_current sm state data :
  State.current_state (State.set_state sm state data).1 = state.
Proof.
  destruct (decide (state = State.current_state sm)) as [->|Hne].
  - by rewrite set_state_same.
  - by apply set_state_other.
Qed.

End StateProperties.

(** C9: [set_state(X)] when the current state is X already changes
    nothing and calls no listener; and after [set_state(A)] and then
    [set_state(B)] with A different from B, [return_to_previous_state()]
    makes A the current state and B the previous one. *)
Theorem C9_set_state_and_return {V : Type} (sm : State.StateManager V)
    (A B : State.AppState) (data dataA dataB : gmap string V) :
  State.set_state sm (State.current_state sm) data = (sm, [])
  ∧ (A ≠ B →
     let sm1 := (State.set_state sm A dataA).1 in
     let sm2 := (State.set_state sm1 B dataB).1 in
     let sm3 := (State.return_to_previous_state sm2).1 in
     State.get_state sm3 = A ∧ State.get_previous_state sm3 = Some B).
Proof.
  split; [apply set_state_same|].
  intros Hne sm1 sm2 sm3.
  assert (State.current_state sm1 = A) as H1 by apply set_state_current.
  assert (B ≠ State.current_state sm1) as Hne1 by (rewrite H1; congruence).
  destruct (set_state_other sm1 B dataB Hne1) as [H2c H2p]. fold sm2 in H2c, H2p.
  rewrite H1 in H2p.
  unfold State.get_state, State.get_previous_state.
  subst sm3. unfold State.return_to_previous_state. rewrite H2p.
  assert (A ≠ State.current_state sm2) as Hne2 by (rewrite H2c; congruence).
  destruct (set_state_other sm2 A ∅ Hne2) as [H3c H3p].
  rewrite H3c, H3p, H2c. by split.
Qed.

Lemma C9_set_state_and_return_witness :
  State.set_state (V := nat) State.new State.INIT ∅ = (State.new, [])
  ∧ State.get_state
      (State.return_to_previous_state
         (State.set_state (State.set_state (V := nat) State.new State.DIALOGS ∅).1
            State.CHAT ∅).1).1 = State.DIALOGS
  ∧ State.get_previous_state
      (State.return_to_previous_state
         (State.set_state (State.set_state (V := nat) State.new State.DIALOGS ∅).1
            State.CHAT ∅).1).1 = Some State.CHAT.
Proof.
  destruct (C9_set_state_and_return (V := nat) State.new State.DIALOGS State.CHAT ∅ ∅ ∅)
    as [Hsame Hreturn].
  split; [exact Hsame|]. apply Hreturn. discriminate.
Defined.

(** ** The session *)

Lemma refresh_messages_selected (now : Z) (screen_raises : bool) (c : Cli.TelegramCLI)
    (dialog : Cli.Dialog) :
  Cli.selected_dialog_index c < Py.len (Cli.dialog_list c) →
  Py.getitem (Cli.dialog_list c) (Cli.selected_dialog_index c) = Some dialog →
  Cli.refresh_messages now screen_raises c
  = match Cache.get_messages (Cli.cache_manager c) now (Cli.id dialog) with
    | Some (m :: ms) =>
        Cli.reset_message_index
          (Cli.set_is_loading
             (Cli.set_selected_messages (Cli.set_is_loading c true) (m :: ms)) false)
    | _ =>
        if screen_raises
        then Cli.refresh_messages_failed
               (Cli.create_task (Cli.set_is_loading c true) (Cli.GetMessages dialog))
        else Cli.create_task (Cli.set_is_loading c true) (Cli.GetMessages dialog)
    end.
Proof.
  intros Hlt Hget. unfold Cli.refresh_messages.
  assert (Cli.dialog_list c ≠ []) as Hne.
  { intros Hnil. rewrite Hnil in Hget. unfold Py.getitem in Hget. simpl in Hget.
    by repeat case_match. }
  rewrite (bool_decide_eq_false_2 _ Hne). simpl.
  destruct (Z.geb_spec (Cli.selected_dialog_index c) (Py.len (Cli.dialog_list c))); [lia|].
  rewrite Hget. reflexivity.
Qed.

Lemma reset_message_index_scheduled (c : Cli.TelegramCLI) :
  Cli.scheduled (Cli.reset_message_index c) = Cli.scheduled c
  ∧ Cli.selected_messages (Cli.reset_message_index c) = Cli.selected_messages c
  ∧ Cli.is_loading (Cli.reset_message_index c) = Cli.is_loading c.
Proof. unfold Cli.reset_message_index. by destruct (_ >=? _). Qed.

(** Nothing on the way from a sent reply to the refresh touches the
    cache. *)
Lemma after_reply_sent_keeps_cache (now : Z) (dialog : Cli.Dialog) (message : Cli.Message)
    (c : Cli.TelegramCLI) :
  Cli.cache_manager (Cli.after_reply_sent now dialog message c) = Cli.cache_manager c.
Proof.
  unfold Cli.after_reply_sent, Cli.refresh_messages, Cli.reset_message_index.
  repeat case_match; reflexivity.
Qed.

(** C10: in [refresh_messages] a cached message list that is empty
    counts as a miss, because the cached value is tested for truth: for the
    selected conversation with a fresh cache entry, an empty stored list
    makes the session schedule a fetch from the remote client, and a stored
    list that is not empty is shown with no fetch. *)
Theorem C10_empty_cached_list_refetched (now : Z) (screen_raises : bool)
    (c : Cli.TelegramCLI) (dialog : Cli.Dialog)
    (entry : Cache.messages_entry (list Cli.Message)) :
  Cli.selected_dialog_index c < Py.len (Cli.dialog_list c) →
  Py.getitem (Cli.dialog_list c) (Cli.selected_dialog_index c) = Some dialog →
  Cache.messages_cache (Cli.cache_manager c) !! Cli.id dialog = Some entry →
  now - Cache.m_timestamp entry < Cache.max_age_minutes (Cli.cache_manager c) * 60 →
  (Cache.m_data entry = Some [] →
   Cache.get_messages (Cli.cache_manager c) now (Cli.id dialog) = Some []
   ∧ Cli.scheduled (Cli.refresh_messages now screen_raises c)
     = Cli.scheduled c ++ [Cli.GetMessages dialog])
  ∧ (∀ m ms, Cache.m_data entry = Some (m :: ms) →
     Cli.scheduled (Cli.refresh_messages now screen_raises c) = Cli.scheduled c
     ∧ Cli.selected_messages (Cli.refresh_messages now screen_raises c) = m :: ms
     ∧ Cli.is_loading (Cli.refresh_messages now screen_raises c) = false).
Proof.
  intros Hlt Hget He Hfresh.
  rewrite (refresh_messages_selected now screen_raises c dialog Hlt Hget).
  assert (Cache.get_messages (Cli.cache_manager c) now (Cli.id dialog) = Cache.m_data entry)
    as ->.
  { unfold Cache.get_messages. rewrite He.
    destruct (Z.ltb_spec (now - Cache.m_timestamp entry)
                (Cache.max_age_minutes (Cli.cache_manager c) * 60)); [reflexivity|lia]. }
  split.
  - intros ->. split; [reflexivity|]. by destruct screen_raises.
  - intros m ms ->.
    destruct (reset_message_index_scheduled
                (Cli.set_is_loading
                   (Cli.set_selected_messages (Cli.set_is_loading c true) (m :: ms)) false))
      as (-> & -> & ->).
    by repeat split.
Qed.

Lemma C10_empty_cached_list_refetched_witness :
  (Cache.get_messages (Cli.cache_manager (sample_cli 100 [])) 130 7 = Some []
   ∧ Cli.scheduled (Cli.refresh_messages 130 false (sample_cli 100 []))
     = [Cli.GetMessages sample_dialog])
  ∧ Cli.scheduled (Cli.refresh_messages 130 false (sample_cli 100 [sample_message])) = []
  ∧ Cli.selected_messages (Cli.refresh_messages 130 false (sample_cli 100 [sample_message]))
    = [sample_message]
  ∧ Cli.is_loading (Cli.refresh_messages 130 false (sample_cli 100 [sample_message]))
    = false.
Proof.
  split.
  - refine (proj1 (C10_empty_cached_list_refetched 130 false (sample_cli 100 []) sample_dialog
                     {| Cache.m_data := Some []; Cache.m_timestamp := 100 |} _ _ _ _) _).
    + unfold Py.len. simpl. lia.
    + reflexivity.
    + simpl. apply lookup_insert_eq.
    + simpl. lia.
    + reflexivity.
  - refine (proj2 (C10_empty_cached_list_refetched 130 false
                     (sample_cli 100 [sample_message]) sample_dialog
                     {| Cache.m_data := Some [sample_message]; Cache.m_timestamp := 100 |}
                     _ _ _ _) sample_message [] _).
    + unfold Py.len. simpl. lia.
    + reflexivity.
    + simpl. apply lookup_insert_eq.
    + simpl. lia.
    + reflexivity.
Defined.

(** C3 on the code: nothing between a sent reply and the refresh that
    follows it touches the cache, so the refresh reads the list that was
    cached before the reply.  In the chat of conversation 7, whose list was
    cached at time 100, a reply is sent and the refresh runs at time 130,
    within the five minutes: the list of before the reply is shown again,
    the cache entry is still there, and no fetch from the remote client is
    scheduled. *)
Theorem C3_reply_leaves_cached_list :
  (∀ now dialog message c,
     Cli.cache_manager (Cli.after_reply_sent now dialog message c) = Cli.cache_manager c)
  ∧ Cache.get_messages
      (Cli.cache_manager
         (Cli.after_reply_sent 130 sample_dialog sample_message
            (sample_cli 100 [sample_message]))) 130 7
    = Some [sample_message]
  ∧ Cli.selected_messages
      (Cli.after_reply_sent 130 sample_dialog sample_message
         (sample_cli 100 [sample_message]))
    = [sample_message]
  ∧ Cli.scheduled
      (Cli.after_reply_sent 130 sample_dialog sample_message
         (sample_cli 100 [sample_message]))
    = [Cli.MarkAsRead sample_dialog sample_message; Cli.RefreshMessages]
  ∧ Cli.fetches_messages
      (Cli.scheduled
         (Cli.after_reply_sent 130 sample_dialog sample_message
            (sample_cli 100 [sample_message])))
    = false.
Proof.
  split; [apply after_reply_sent_keeps_cache|].
  split.
  - rewrite after_reply_sent_keeps_cache. unfold Cache.get_messages. simpl.
    rewrite lookup_insert_eq. reflexivity.
  - assert (Cli.after_reply_sent 130 sample_dialog sample_message
              (sample_cli 100 [sample_message])
            = Cli.reset_message_index
                (Cli.set_is_loading
                   (Cli.set_selected_messages
                      (Cli.set_is_loading
                         (Cli._on_message_marked_read
                            (Cli._on_reply_sent sample_dialog sample_message
                               (sample_cli 100 [sample_message]))) true)
                      [sample_message]) false)) as ->.
    { unfold Cli.after_reply_sent.
      rewrite (refresh_messages_selected 130 false _ sample_dialog).
      - unfold Cache.get_messages. simpl. rewrite lookup_insert_eq. reflexivity.
      - unfold Py.len. simpl. lia.
      - reflexivity. }
    repeat split.
Qed.

(** ** The task loader *)

Section LoaderProperties.
Context {value exn cb : Type}.
Context (body : cb → value + exn → list (Loader.command cb) * bool).
Implicit Types (w : Loader.World value exn cb) (t : Loader.Task cb).
Implicit Types (tr evs : list (Loader.event value exn cb)).

Lemma evolves_refl w : evolves w w.
Proof.
  split; [lia|]. split.
  - intros i t Ht. exists t. by repeat split.
  - intros i. split; [by left|]. intros [?|?]; [done|lia].
Qed.

Lemma evolves_trans w1 w2 w3 : evolves w1 w2 → evolves w2 w3 → evolves w1 w3.
Proof.
  intros (Hn1 & Hk1 & Hb1) (Hn2 & Hk2 & Hb2). split; [lia|]. split.
  - intros i t Ht. destruct (Hk1 i t Ht) as (t' & Ht' & Hc & He & Hf).
    destruct (Hk2 i t' Ht') as (t'' & Ht'' & Hc' & He' & Hf').
    exists t''. repeat split; try congruence. auto.
  - intros i. rewrite (Hb2 i), (Hb1 i). split.
    + intros [[?|?]|?]; [by left|right; lia|right; lia].
    + intros [?|?]; [by left; left|].
      destruct (decide (i < Loader.next_uuid w2)%nat); [left; right; lia|right; lia].
Qed.

Lemma evolves_bounded w w' : evolves w w' → bounded w → bounded w'.
Proof.
  intros (Hn & _ & Hb) Hw i. rewrite (Hb i), (Hw i). lia.
Qed.

Lemma call_ids_app tr evs : call_ids (tr ++ evs) = call_ids tr ++ call_ids evs.
Proof. unfold call_ids. apply omap_app. Qed.

Lemma elem_of_call_ids tr i :
  i ∈ call_ids tr ↔ ∃ f arg, Loader.Called i f arg ∈ tr.
Proof.
  unfold call_ids. rewrite list_elem_of_omap. split.
  - intros ([j f arg|j] & Hin & Heq); [|discriminate].
    injection Heq as ->. eauto.
  - intros (f & arg & Hin). exists (Loader.Called i f arg). by split.
Qed.

(** A step that records nothing keeps the invariant. *)
Lemma invariant_silent w w' :
  invariant w → evolves w w' → Loader.trace w' = Loader.trace w → invariant w'.
Proof.
  intros (Hnd & Hb & Hc) Hev Htr. split; [by rewrite Htr|].
  split; [by apply (evolves_bounded w)|].
  intros i f arg Hin. rewrite Htr in Hin.
  destruct (Hc i f arg Hin) as (t & Ht & Hfin & Hown).
  destruct Hev as (_ & Hk & _). destruct (Hk i t Ht) as (t' & Ht' & Hoc & Hoe & Hf).
  exists t'. split; [exact Ht'|]. split; [auto|].
  destruct arg; simpl in *; congruence.
Qed.

(** *** The loader calls record nothing *)

Lemma task_cancel_evolves (task : nat) w :
  evolves w (Loader.task_cancel task w)
  ∧ Loader.trace (Loader.task_cancel task w) = Loader.trace w.
Proof.
  split; [|reflexivity]. split; [simpl; lia|]. split.
  - intros i t Ht. simpl. rewrite lookup_alter. case_decide as Hi.
    + subst i. rewrite Ht. simpl. exists (Loader.request_cancel t).
      split; [reflexivity|]. unfold Loader.request_cancel.
      destruct (Loader.t_phase t) eqn:Hp; simpl; by repeat split.
    + exists t. by repeat split.
  - intros i. simpl. rewrite lookup_alter_is_Some. split; [by left|].
    intros [?|?]; [done|lia].
Qed.

Lemma create_task_evolves (on_complete on_error : option cb) w :
  bounded w →
  evolves w (Loader.create_task on_complete on_error w).1
  ∧ Loader.trace (Loader.create_task on_complete on_error w).1 = Loader.trace w.
Proof.
  intros Hb. split; [|reflexivity]. split; [simpl; lia|]. split.
  - intros i t Ht. simpl. exists t.
    assert (Loader.next_uuid w ≠ i) as Hne.
    { intros <-. pose proof (proj1 (Hb (Loader.next_uuid w)) ltac:(eauto)). lia. }
    rewrite lookup_insert_ne by exact Hne. by repeat split.
  - intros i. simpl. rewrite lookup_insert_is_Some. split.
    + intros [<-|[_ Hi]]; [right; lia|by left].
    + intros [Hi|Hi]; [|left; lia].
      destruct (decide (Loader.next_uuid w = i)); [by left|by right].
Qed.

Lemma cancel_task_evolves (task_id : nat) w :
  evolves w (Loader.cancel_task task_id w).1
  ∧ Loader.trace (Loader.cancel_task task_id w).1 = Loader.trace w.
Proof.
  unfold Loader.cancel_task.
  destruct (Loader.active_tasks (Loader.loader w) !! task_id) as [[[task ?] ?]|]; simpl.
  - apply task_cancel_evolves.
  - split; [apply evolves_refl|reflexivity].
Qed.

Lemma cancel_all_tasks_evolves w :
  evolves w (Loader.cancel_all_tasks w)
  ∧ Loader.trace (Loader.cancel_all_tasks w) = Loader.trace w.
Proof.
  unfold Loader.cancel_all_tasks.
  generalize (map_to_list (Loader.active_tasks (Loader.loader w))). intros l.
  assert (∀ w0, evolves w w0 ∧ Loader.trace w0 = Loader.trace w →
            evolves w
              (fold_left (λ w1 '(_, (task, _, _)), Loader.task_cancel task w1) l w0)
            ∧ Loader.trace
                (fold_left (λ w1 '(_, (task, _, _)), Loader.task_cancel task w1) l w0)
              = Loader.trace w) as Hfold.
  { induction l as [|[k [[task oc] oe]] l IH]; intros w0 [Hev Htr]; simpl; [by split|].
    apply IH. destruct (task_cancel_evolves task w0) as [Hev' Htr'].
    split; [by apply (evolves_trans _ w0)|congruence]. }
  destruct (Hfold w (conj (evolves_refl w) eq_refl)) as [Hev Htr].
  split; [|exact Htr]. exact Hev.
Qed.

Lemma run_command_evolves (c : Loader.command cb) w :
  bounded w →
  evolves w (Loader.run_command w c)
  ∧ Loader.trace (Loader.run_command w c) = Loader.trace w.
Proof.
  intros Hb. destruct c; simpl.
  - by apply create_task_evolves.
  - apply cancel_task_evolves.
  - apply cancel_all_tasks_evolves.
Qed.

Lemma run_commands_evolve (cmds : list (Loader.command cb)) w :
  bounded w →
  evolves w (fold_left Loader.run_command cmds w)
  ∧ Loader.trace (fold_left Loader.run_command cmds w) = Loader.trace w.
Proof.
  revert w. induction cmds as [|c cmds IH]; intros w Hb; simpl.
  - split; [apply evolves_refl|reflexivity].
  - destruct (run_command_evolves c w Hb) as [Hev Htr].
    destruct (IH _ (evolves_bounded _ _ Hev Hb)) as [Hev' Htr'].
    split; [by apply (evolves_trans _ (Loader.run_command w c))|congruence].
Qed.

Lemma loop_start_evolves (task : nat) w :
  evolves w (Loader.loop_start task w)
  ∧ Loader.trace (Loader.loop_start task w) = Loader.trace w.
Proof.
  unfold Loader.loop_start.
  destruct (Loader.tasks w !! task) as [t|] eqn:Ht;
    [|split; [apply evolves_refl|reflexivity]].
  destruct (Loader.t_phase t) eqn:Hp; try (split; [apply evolves_refl|reflexivity]).
  split; [|reflexivity]. split; [simpl; lia|]. split.
  - intros i t0 Ht0. simpl. rewrite lookup_insert. case_decide as Hi.
    + subst i. rewrite Ht in Ht0. injection Ht0 as <-.
      eexists. split; [reflexivity|]. simpl. repeat split. congruence.
    + exists t0. by repeat split.
  - intros i. simpl. rewrite lookup_insert_is_Some. split.
    + intros [<-|[_ Hi]]; [left; eauto|by left].
    + intros [Hi|Hi]; [|lia].
      destruct (decide (task = i)); [by left|by right].
Qed.

(** *** The wrapper *)

Lemma emit_evolves w (e : Loader.event value exn cb) : evolves w (Loader.emit w e).
Proof. exact (evolves_refl w). Qed.

Lemma call_trace (task_id : nat) (f : cb) (arg : value + exn) w :
  bounded w →
  evolves w (Loader.call body task_id f arg w)
  ∧ Loader.trace (Loader.call body task_id f arg w)
    = Loader.trace w ++ [Loader.Called task_id f arg].
Proof.
  intros Hb. unfold Loader.call.
  destruct (run_commands_evolve (body f arg).1 (Loader.emit w (Loader.Called task_id f arg)))
    as [Hev Htr]; [exact Hb|].
  split; [|exact Htr]. apply (evolves_trans _ _ _ (emit_evolves w _) Hev).
Qed.

Lemma task_wrapper_trace (task_id : nat) (o : Loader.outcome value exn)
    (on_complete on_error : option cb) w :
  bounded w →
  evolves w (Loader.task_wrapper body task_id o on_complete on_error w).1
  ∧ ∃ del, (del = [] ∨ del = [Loader.Deleted task_id])
           ∧ Loader.trace (Loader.task_wrapper body task_id o on_complete on_error w).1
             = Loader.trace w ++ expected_calls task_id o on_complete on_error ++ del.
Proof.
  intros Hb. unfold Loader.task_wrapper.
  set (w1 := match o with
             | Loader.Returned result =>
                 match on_complete with
                 | Some f => Loader.call body task_id f (inl result) w
                 | None => w
                 end
             | Loader.Raised e =>
                 match on_error with
                 | Some g => Loader.call body task_id g (inr e) w
                 | None => w
                 end
             | Loader.CancelledError => w
             end).
  assert (evolves w w1
          ∧ Loader.trace w1
            = Loader.trace w ++ expected_calls task_id o on_complete on_error) as [Hev Htr].
  { subst w1. destruct o as [result|e|]; simpl.
    - destruct on_complete as [f|]; [by apply call_trace|].
      split; [apply evolves_refl|by rewrite app_nil_r].
    - destruct on_error as [g|]; [by apply call_trace|].
      split; [apply evolves_refl|by rewrite app_nil_r].
    - split; [apply evolves_refl|by rewrite app_nil_r]. }
  assert ((let '(w0, cancelled) :=
             match o with
             | Loader.Returned result =>
                 (match on_complete with
                  | Some f => Loader.call body task_id f (inl result) w
                  | None => w
                  end, false)
             | Loader.Raised e =>
                 (match on_error with
                  | Some g => Loader.call body task_id g (inr e) w
                  | None => w
                  end, false)
             | Loader.CancelledError => (w, true)
             end in
           (if bool_decide (is_Some (Loader.active_tasks (Loader.loader w0) !! task_id))
            then Loader.emit
                   (Loader.set_active_tasks w0
                      (delete task_id (Loader.active_tasks (Loader.loader w0))))
                   (Loader.Deleted task_id)
            else w0, cancelled)).1
          = if bool_decide (is_Some (Loader.active_tasks (Loader.loader w1) !! task_id))
            then Loader.emit
                   (Loader.set_active_tasks w1
                      (delete task_id (Loader.active_tasks (Loader.loader w1))))
                   (Loader.Deleted task_id)
            else w1) as ->.
  { subst w1. by destruct o. }
  destruct (bool_decide _).
  - split; [exact Hev|]. exists [Loader.Deleted task_id]. split; [by right|].
    simpl. rewrite Htr. by rewrite <- app_assoc.
  - split; [exact Hev|]. exists []. split; [by left|]. by rewrite app_nil_r.
Qed.

(** After the wrapper the task is in the table no more, whatever the
    callbacks did. *)
Lemma task_wrapper_removes (task_id : nat) (o : Loader.outcome value exn)
    (on_complete on_error : option cb) w :
  Loader.active_tasks
    (Loader.loader (Loader.task_wrapper body task_id o on_complete on_error w).1)
  !! task_id = None.
Proof.
  unfold Loader.task_wrapper.
  destruct (match o with
            | Loader.Returned _ => _ | Loader.Raised _ => _ | Loader.CancelledError => _
            end) as [w0 cancelled].
  simpl. destruct (bool_decide _) eqn:Hd; simpl.
  - apply lookup_delete_eq.
  - apply bool_decide_eq_false in Hd. by apply eq_None_not_Some.
Qed.

(** A task that the loop resumes at its [await] is out of the table
    afterwards, however the operation ended. *)
Lemma loop_resume_removes (task : nat) (o : Loader.outcome value exn) w t :
  Loader.tasks w !! task = Some t →
  Loader.t_phase t = Loader.Suspended →
  Loader.is_task_active task (Loader.loop_resume body task o w) = false.
Proof.
  intros Ht Hp. unfold Loader.loop_resume, Loader.is_task_active. rewrite Ht, Hp. simpl.
  apply bool_decide_eq_false_2. rewrite task_wrapper_removes. by intros [? ?].
Qed.

Lemma cancel_all_tasks_count w :
  Loader.get_active_tasks_count (Loader.cancel_all_tasks w) = 0%nat.
Proof. unfold Loader.get_active_tasks_count, Loader.cancel_all_tasks. simpl. apply map_size_empty. Qed.

(** *** The event loop *)

Lemma finish_evolves (task : nat) w :
  evolves w (Loader.set_tasks w
               (alter (λ t, Loader.set_phase t Loader.Finished) task (Loader.tasks w))).
Proof.
  split; [simpl; lia|]. split.
  - intros i t Ht. simpl. rewrite lookup_alter. case_decide as Hi.
    + subst i. rewrite Ht. simpl. eexists. split; [reflexivity|]. by repeat split.
    + exists t. by repeat split.
  - intros i. simpl. rewrite lookup_alter_is_Some. split; [by left|].
    intros [?|?]; [done|lia].
Qed.

Lemma loop_resume_trace (task : nat) (o : Loader.outcome value exn) w t :
  bounded w →
  Loader.tasks w !! task = Some t →
  Loader.t_phase t = Loader.Suspended →
  evolves w (Loader.loop_resume body task o w)
  ∧ (∃ t', Loader.tasks (Loader.loop_resume body task o w) !! task = Some t'
           ∧ Loader.t_phase t' = Loader.Finished
           ∧ Loader.t_on_complete t' = Loader.t_on_complete t
           ∧ Loader.t_on_error t' = Loader.t_on_error t)
  ∧ ∃ del, (del = [] ∨ del = [Loader.Deleted task])
           ∧ Loader.trace (Loader.loop_resume body task o w)
             = Loader.trace w
               ++ expected_calls task
                    (if Loader.t_must_cancel t then Loader.CancelledError else o)
                    (Loader.t_on_complete t) (Loader.t_on_error t)
               ++ del.
Proof.
  intros Hb Ht Hp. unfold Loader.loop_resume. rewrite Ht, Hp.
  set (o' := if Loader.t_must_cancel t then Loader.CancelledError else o).
  destruct (task_wrapper_trace task o' (Loader.t_on_complete t) (Loader.t_on_error t) w Hb)
    as (Hev & del & Hdel & Htr).
  set (w1 := (Loader.task_wrapper body task o' (Loader.t_on_complete t)
                (Loader.t_on_error t) w).1) in *.
  split; [apply (evolves_trans _ w1); [exact Hev|apply finish_evolves]|].
  split.
  - destruct Hev as (_ & Hk & _). destruct (Hk task t Ht) as (t1 & Ht1 & Hoc & Hoe & _).
    exists (Loader.set_phase t1 Loader.Finished). simpl.
    rewrite lookup_alter_eq, Ht1. by repeat split.
  - exists del. split; [exact Hdel|exact Htr].
Qed.

Lemma call_ids_expected (task : nat) (o : Loader.outcome value exn)
    (on_complete on_error : option cb) :
  call_ids (expected_calls task o on_complete on_error) = []
  ∨ call_ids (expected_calls task o on_complete on_error) = [task].
Proof.
  destruct o as [result|e|]; simpl; [destruct on_complete|destruct on_error|];
    simpl; auto.
Qed.

Lemma call_ids_deleted (task : nat) (del : list (Loader.event value exn cb)) :
  del = [] ∨ del = [Loader.Deleted task] → call_ids del = [].
Proof. by intros [->| ->]. Qed.

Lemma expected_calls_own (task : nat) (o : Loader.outcome value exn) t
    (i : nat) (f : cb) (arg : value + exn) :
  Loader.Called i f arg
    ∈ expected_calls task o (Loader.t_on_complete t) (Loader.t_on_error t) →
  i = task ∧ own_callback t f arg.
Proof.
  destruct o as [result|e|]; simpl.
  - destruct (Loader.t_on_complete t) as [g|] eqn:Hg; [|by intros ?%elem_of_nil].
    intros [= -> -> ->]%list_elem_of_singleton. by split.
  - destruct (Loader.t_on_error t) as [g|] eqn:Hg; [|by intros ?%elem_of_nil].
    intros [= -> -> ->]%list_elem_of_singleton. by split.
  - by intros ?%elem_of_nil.
Qed.

Lemma loop_resume_invariant (task : nat) (o : Loader.outcome value exn) w :
  invariant w → invariant (Loader.loop_resume body task o w).
Proof.
  intros Hinv.
  destruct (Loader.tasks w !! task) as [t|] eqn:Ht;
    [|unfold Loader.loop_resume; by rewrite Ht].
  destruct (Loader.t_phase t) eqn:Hp;
    [unfold Loader.loop_resume; by rewrite Ht, Hp| |
     unfold Loader.loop_resume; by rewrite Ht, Hp].
  destruct Hinv as (Hnd & Hb & Hc).
  destruct (loop_resume_trace task o w t Hb Ht Hp)
    as (Hev & (t' & Ht' & Hfin & Hoc & Hoe) & del & Hdel & Htr).
  set (o' := if Loader.t_must_cancel t then Loader.CancelledError else o) in *.
  assert (task ∉ call_ids (Loader.trace w)) as Hfresh.
  { intros (f & arg & Hin)%elem_of_call_ids.
    destruct (Hc task f arg Hin) as (t0 & Ht0 & Hfin0 & _). congruence. }
  split; [|split].
  - rewrite Htr, !call_ids_app, (call_ids_deleted task del Hdel), app_nil_r.
    destruct (call_ids_expected task o' (Loader.t_on_complete t) (Loader.t_on_error t))
      as [-> | ->].
    + by rewrite app_nil_r.
    + apply NoDup_app. split; [exact Hnd|]. split; [|apply NoDup_singleton].
      intros x Hx ->%list_elem_of_singleton. done.
  - by apply (evolves_bounded w).
  - intros i f arg Hin. rewrite Htr, !elem_of_app in Hin.
    destruct Hin as [Hin|[Hin|Hin]].
    + destruct (Hc i f arg Hin) as (t0 & Ht0 & Hfin0 & Hown).
      destruct Hev as (_ & Hk & _).
      destruct (Hk i t0 Ht0) as (t1 & Ht1 & Hoc1 & Hoe1 & Hf1).
      exists t1. split; [exact Ht1|]. split; [auto|].
      destruct arg; simpl in *; congruence.
    + destruct (expected_calls_own task o' t i f arg Hin) as [-> Hown].
      exists t'. split; [exact Ht'|]. split; [exact Hfin|].
      destruct arg; simpl in *; congruence.
    + destruct Hdel as [-> | ->]; [by apply elem_of_nil in Hin|].
      apply list_elem_of_singleton in Hin. discriminate.
Qed.

Lemma act_invariant (a : Loader.action value exn cb) w :
  invariant w → invariant (Loader.act body w a).
Proof.
  intros Hinv. destruct a; simpl.
  - destruct (create_task_evolves on_complete on_error w) as [Hev Htr];
      [apply Hinv|]. by apply (invariant_silent w).
  - destruct (cancel_task_evolves task_id w) as [Hev Htr]. by apply (invariant_silent w).
  - destruct (cancel_all_tasks_evolves w) as [Hev Htr]. by apply (invariant_silent w).
  - destruct (loop_start_evolves task w) as [Hev Htr]. by apply (invariant_silent w).
  - by apply loop_resume_invariant.
Qed.

Lemma invariant_empty : invariant (Loader.empty (value := value) (exn := exn) (cb := cb)).
Proof.
  split; [apply NoDup_nil_2|]. split.
  - intros i. simpl. rewrite lookup_empty. split; [by intros [? ?]|lia].
  - intros i f arg Hin. by apply elem_of_nil in Hin.
Qed.

Lemma run_invariant (actions : list (Loader.action value exn cb)) :
  invariant (Loader.run body actions).
Proof.
  unfold Loader.run. generalize invariant_empty.
  generalize (Loader.empty (value := value) (exn := exn) (cb := cb)).
  induction actions as [|a actions IH]; intros w Hw; simpl; [exact Hw|].
  apply IH. by apply act_invariant.
Qed.

Lemma all_calls_length tr : length (Loader.all_calls tr) = length (call_ids tr).
Proof.
  induction tr as [|[i f arg|i] tr IH]; simpl; [reflexivity| |exact IH].
  unfold call_ids in *. simpl. by rewrite IH.
Qed.

Lemma all_calls_app tr evs :
  Loader.all_calls (tr ++ evs) = Loader.all_calls tr ++ Loader.all_calls evs.
Proof. apply List.filter_app. Qed.

Lemma all_calls_expected (task : nat) (o : Loader.outcome value exn)
    (on_complete on_error : option cb) :
  Loader.all_calls (expected_calls task o on_complete on_error)
  = expected_calls task o on_complete on_error.
Proof. destruct o; simpl; [destruct on_complete|destruct on_error|]; reflexivity. Qed.

(** The loop holds one task for every call of [create_task]. *)
Lemma tasks_size w : bounded w → size (Loader.tasks w) = Loader.next_uuid w.
Proof.
  intros Hb. rewrite <- (size_dom (D := gset nat)).
  assert (dom (Loader.tasks w) = (set_seq 0 (Loader.next_uuid w) : gset nat)) as ->.
  { apply set_eq. intros i. rewrite elem_of_dom, elem_of_set_seq, (Hb i). lia. }
  apply size_set_seq.
Qed.

(** No more callback calls than tasks. *)
Lemma invariant_calls_bounded w :
  invariant w → (length (Loader.all_calls (Loader.trace w)) ≤ size (Loader.tasks w))%nat.
Proof.
  intros (Hnd & Hb & Hc). rewrite (tasks_size w Hb), all_calls_length.
  rewrite <- (length_seq (Loader.next_uuid w) 0).
  apply submseteq_length, NoDup_submseteq; [exact Hnd|].
  intros i (f & arg & Hin)%elem_of_call_ids.
  destruct (Hc i f arg Hin) as (t & Ht & _).
  apply elem_of_seq. pose proof (proj1 (Hb i) ltac:(eauto)). lia.
Qed.

End LoaderProperties.

(** C6, as the code has it: over any run of the loader, no task has more
    than one callback call, a call made for a task is a call of that task's
    own [on_complete] with a result or of its own [on_error] with an
    exception, and the N tasks scheduled so far see at most N calls in
    all.  When the
    event loop resumes a task at its [await], the wrapper calls
    [on_complete] with the result if the operation returned and the
    callback was given, [on_error] with the exception if it raised and the
    callback was given, and nothing if the callback for that end is None or
    if the task was cancelled before. *)
Theorem C6_at_most_one_callback {value exn cb : Type}
    (body : cb → value + exn → list (Loader.command cb) * bool)
    (actions : list (Loader.action value exn cb)) :
  NoDup (call_ids (Loader.trace (Loader.run body actions)))
  ∧ (length (Loader.all_calls (Loader.trace (Loader.run body actions)))
     ≤ size (Loader.tasks (Loader.run body actions)))%nat
  ∧ (∀ i f arg,
       Loader.Called i f arg ∈ Loader.trace (Loader.run body actions) →
       ∃ t, Loader.tasks (Loader.run body actions) !! i = Some t ∧ own_callback t f arg)
  ∧ (∀ task t o,
       Loader.tasks (Loader.run body actions) !! task = Some t →
       Loader.t_phase t = Loader.Suspended →
       Loader.all_calls
         (Loader.trace (Loader.loop_resume body task o (Loader.run body actions)))
       = Loader.all_calls (Loader.trace (Loader.run body actions))
         ++ expected_calls task
              (if Loader.t_must_cancel t then Loader.CancelledError else o)
              (Loader.t_on_complete t) (Loader.t_on_error t)).
Proof.
  pose proof (run_invariant body actions) as Hinv.
  split; [apply Hinv|]. split; [by apply invariant_calls_bounded|]. split.
  - intros i f arg Hin. destruct Hinv as (_ & _ & Hc).
    destruct (Hc i f arg Hin) as (t & Ht & _ & Hown). eauto.
  - intros task t o Ht Hp.
    destruct (loop_resume_trace body task o _ t (proj1 (proj2 Hinv)) Ht Hp)
      as (_ & _ & del & Hdel & ->).
    rewrite !all_calls_app, all_calls_expected.
    destruct Hdel as [-> | ->]; simpl; by rewrite app_nil_r.
Qed.

Lemma C6_at_most_one_callback_witness :
  Loader.all_calls
    (Loader.trace
       (Loader.loop_resume idle 0 (Loader.Returned 5%nat)
          (Loader.run idle [Loader.DoCreate (Some 1%nat) (Some 2%nat); Loader.DoStart 0])))
  = [Loader.Called 0 1%nat (inl 5%nat)]
  ∧ Loader.all_calls
      (Loader.trace
         (Loader.loop_resume idle 0 (Loader.Raised 6%nat)
            (Loader.run idle [Loader.DoCreate (Some 1%nat) (Some 2%nat); Loader.DoStart 0])))
    = [Loader.Called 0 2%nat (inr 6%nat)].
Proof.
  split.
  - refine (proj2 (proj2 (proj2
              (C6_at_most_one_callback idle
                 [Loader.DoCreate (Some 1%nat) (Some 2%nat); Loader.DoStart 0])))
              0%nat
              {| Loader.t_phase := Loader.Suspended; Loader.t_must_cancel := false;
                 Loader.t_on_complete := Some 1%nat; Loader.t_on_error := Some 2%nat |}
              (Loader.Returned 5%nat) _ _); reflexivity.
  - refine (proj2 (proj2 (proj2
              (C6_at_most_one_callback idle
                 [Loader.DoCreate (Some 1%nat) (Some 2%nat); Loader.DoStart 0])))
              0%nat
              {| Loader.t_phase := Loader.Suspended; Loader.t_must_cancel := false;
                 Loader.t_on_complete := Some 1%nat; Loader.t_on_error := Some 2%nat |}
              (Loader.Raised 6%nat) _ _); reflexivity.
Defined.

(** C6 as stated fails for a task that was given no [on_complete], as
    the refresh task of [_on_message_marked_read] is: its operation
    returns, the task is finished and out of the table, and neither
    callback was called. *)
Lemma C6_counterexample :
  Loader.all_calls
    (Loader.trace
       (Loader.run idle
          [Loader.DoCreate None (Some 2%nat); Loader.DoStart 0;
           Loader.DoResume 0 (Loader.Returned 5%nat)]))
  = []
  ∧ Loader.t_phase
      <$> Loader.tasks
            (Loader.run idle
               [Loader.DoCreate None (Some 2%nat); Loader.DoStart 0;
                Loader.DoResume 0 (Loader.Returned 5%nat)]) !! 0%nat
    = Some Loader.Finished
  ∧ Loader.is_task_active 0
      (Loader.run idle
         [Loader.DoCreate None (Some 2%nat); Loader.DoStart 0;
          Loader.DoResume 0 (Loader.Returned 5%nat)])
    = false.
Proof. repeat split. Qed.

(** C7 on the code: a task that is cancelled with [cancel_task] before
    the event loop has run it for the first time never enters the wrapper,
    so its [finally] never runs: the task is finished, yet it stays in
    [active_tasks]; nothing was deleted, and no later turn of the event
    loop, for this task or another, changes anything. *)
Theorem C7_cancelled_before_start_stays_active {value exn cb : Type}
    (body : cb → value + exn → list (Loader.command cb) * bool)
    (on_complete on_error : option cb) (task : nat) (o : Loader.outcome value exn) :
  let w := Loader.run body
             [Loader.DoCreate on_complete on_error; Loader.DoCancel 0; Loader.DoStart 0] in
  Loader.is_task_active 0 w = true
  ∧ Loader.get_active_tasks_count w = 1%nat
  ∧ Loader.t_phase <$> Loader.tasks w !! 0%nat = Some Loader.Finished
  ∧ Loader.trace w = []
  ∧ Loader.loop_start task w = w
  ∧ Loader.loop_resume body task o w = w.
Proof.
  intros w.
  assert (Loader.tasks w
          = {[ 0%nat := {| Loader.t_phase := Loader.Finished; Loader.t_must_cancel := true;
                           Loader.t_on_complete := on_complete;
                           Loader.t_on_error := on_error |} ]}) as Htasks by reflexivity.
  do 4 (split; [reflexivity|]).
  unfold Loader.loop_start, Loader.loop_resume. rewrite Htasks.
  destruct (decide (task = 0%nat)) as [->|Hne].
  - rewrite lookup_singleton_eq. by split.
  - rewrite lookup_singleton_ne by done. by split.
Qed.

(** * More properties *)

(** ** The cache: storing, evicting, cleaning, restoring *)

Section CacheMore.
Context {Dialogs Messages : Type}.
Implicit Types (c : Cache.CacheManager Dialogs Messages).

(** X1: a conversation list stored at time t under a filter flag is
    read back exactly by the reads that ask for the same flag at a time
    less than the TTL after t; every other read misses. *)
Theorem store_dialogs_get_dialogs c (t t' : Z) (v v' : Dialogs) (k k' : bool) :
  Cache.get_dialogs (Cache.store_dialogs c t v k) t' k' = Some v'
  ↔ v' = v ∧ k' = k ∧ t' - t < Cache.max_age_minutes c * 60.
Proof.
  rewrite get_dialogs_valid. unfold Cache.dialogs_valid. simpl. split.
  - intros ([= ->] & Hfresh & ->). by repeat split.
  - intros (-> & -> & Hfresh). by repeat split.
Qed.

(** X2: a message list stored for a conversation at time t is read
    back for that conversation until the TTL has passed, and storing it
    changes no read for another conversation. *)
Theorem store_messages_get_messages c (t t' : Z) (dialog_id dialog_id' : Z)
    (v : Messages) :
  Cache.get_messages (Cache.store_messages c t dialog_id v) t' dialog_id'
  = if decide (dialog_id' = dialog_id)
    then (if t' - t <? Cache.max_age_minutes c * 60 then Some v else None)
    else Cache.get_messages c t' dialog_id'.
Proof.
  unfold Cache.get_messages, Cache.store_messages. simpl.
  destruct (decide (dialog_id' = dialog_id)) as [->|Hne].
  - by rewrite lookup_insert_eq.
  - by rewrite lookup_insert_ne.
Qed.

(** X3: eviction.  After [invalidate_messages_cache(dialog_id)] that
    conversation misses and every other read is as before; evicting a
    conversation that is not cached changes nothing; after
    [invalidate_messages_cache()] every conversation misses; and after
    [invalidate_dialog_cache()] the conversation list misses under either
    flag while the message lists are read as before. *)
Theorem invalidate_then_miss c (now : Z) (dialog_id dialog_id' : Z) (k : bool) :
  Cache.get_messages (Cache.invalidate_messages_cache c (Some dialog_id)) now dialog_id'
  = (if decide (dialog_id' = dialog_id) then None else Cache.get_messages c now dialog_id')
  ∧ Cache.get_dialogs (Cache.invalidate_messages_cache c (Some dialog_id)) now k
    = Cache.get_dialogs c now k
  ∧ (Cache.messages_cache c !! dialog_id = None →
     Cache.invalidate_messages_cache c (Some dialog_id) = c)
  ∧ Cache.get_messages (Cache.invalidate_messages_cache c None) now dialog_id' = None
  ∧ Cache.get_dialogs (Cache.invalidate_dialog_cache c) now k = None
  ∧ Cache.get_messages (Cache.invalidate_dialog_cache c) now dialog_id'
    = Cache.get_messages c now dialog_id'.
Proof.
  split; [|split; [|split; [|split; [|split]]]]; try reflexivity.
  - unfold Cache.get_messages. simpl.
    destruct (decide (dialog_id' = dialog_id)) as [->|Hne].
    + by rewrite lookup_delete_eq.
    + by rewrite lookup_delete_ne.
  - intros Hnone. unfold Cache.invalidate_messages_cache, Cache.set_messages_cache.
    rewrite (delete_id _ _ Hnone). by destruct c.
Qed.

(** What [clean_old_cache] leaves of the message cache. *)
Lemma fold_invalidate (l : list Z) c (k : Z) :
  Cache.messages_cache
    (fold_left (λ c dialog_id, Cache.invalidate_messages_cache c (Some dialog_id)) l c) !! k
  = (if decide (k ∈ l) then None else Cache.messages_cache c !! k)
  ∧ Cache.dialogs_cache
      (fold_left (λ c dialog_id, Cache.invalidate_messages_cache c (Some dialog_id)) l c)
    = Cache.dialogs_cache c
  ∧ Cache.max_age_minutes
      (fold_left (λ c dialog_id, Cache.invalidate_messages_cache c (Some dialog_id)) l c)
    = Cache.max_age_minutes c.
Proof.
  revert c. induction l as [|x l IH]; intros c; cbn [fold_left].
  - split; [|by split]. rewrite decide_False; [reflexivity|]. apply not_elem_of_nil.
  - destruct (IH (Cache.invalidate_messages_cache c (Some x))) as (Hm & Hd & Ha).
    split; [|split; [by rewrite Hd|by rewrite Ha]].
    rewrite Hm. cbn [Cache.invalidate_messages_cache Cache.set_messages_cache
                     Cache.messages_cache]. destruct (decide (k ∈ l)) as [Hin|Hnin].
    + rewrite decide_True; [reflexivity|]. by right.
    + destruct (decide (k = x)) as [->|Hne].
      * rewrite decide_True by left. apply lookup_delete_eq.
      * rewrite decide_False; [by rewrite lookup_delete_ne|].
        rewrite elem_of_cons. intros [?|?]; done.
Qed.

Lemma clean_old_cache_messages c (current_time : Z) (k : Z) :
  Cache.messages_cache (Cache.clean_old_cache c current_time) !! k
  = match Cache.messages_cache c !! k with
    | Some entry =>
        if decide (current_time - Cache.m_timestamp entry > Cache.max_age_minutes c * 60)
        then None else Some entry
    | None => None
    end.
Proof.
  unfold Cache.clean_old_cache.
  set (c1 := if current_time - Cache.d_timestamp (Cache.dialogs_cache c)
                >? Cache.max_age_minutes c * 60
             then Cache.invalidate_dialog_cache c else c).
  assert (Cache.messages_cache c1 = Cache.messages_cache c
          ∧ Cache.max_age_minutes c1 = Cache.max_age_minutes c) as [Hm Ha].
  { subst c1. by destruct (_ >? _). }
  destruct (fold_invalidate
              (map fst
                 (filter (λ '(_, entry),
                    current_time - Cache.m_timestamp entry > Cache.max_age_minutes c * 60)
                    (map_to_list (Cache.messages_cache c1)))) c1 k) as (-> & _ & _).
  rewrite Hm.
  destruct (Cache.messages_cache c !! k) as [entry|] eqn:He.
  - destruct (decide (current_time - Cache.m_timestamp entry
                      > Cache.max_age_minutes c * 60)) as [Hold|Hyoung].
    + rewrite decide_True; [reflexivity|].
      apply list_elem_of_fmap. exists (k, entry). split; [reflexivity|].
      apply list_elem_of_filter. split; [exact Hold|]. by apply elem_of_map_to_list.
    + rewrite decide_False; [reflexivity|].
      intros ([k' e'] & Hk & Hin)%list_elem_of_fmap. simpl in Hk. subst k'.
      apply list_elem_of_filter in Hin as [Hold Hin].
      apply elem_of_map_to_list in Hin. rewrite He in Hin. injection Hin as <-. done.
  - by destruct (decide _).
Qed.

Lemma clean_old_cache_dialogs c (current_time : Z) :
  Cache.dialogs_cache (Cache.clean_old_cache c current_time)
  = (if current_time - Cache.d_timestamp (Cache.dialogs_cache c)
        >? Cache.max_age_minutes c * 60
     then Cache.dialogs_cache (Cache.invalidate_dialog_cache c)
     else Cache.dialogs_cache c)
  ∧ Cache.max_age_minutes (Cache.clean_old_cache c current_time)
    = Cache.max_age_minutes c.
Proof.
  unfold Cache.clean_old_cache.
  match goal with
  | |- context [fold_left ?f ?l ?c0] => destruct (fold_invalidate l c0 0) as (_ & -> & ->)
  end.
  by destruct (_ >? _).
Qed.

(** X4: [clean_old_cache] at some time changes no read made at that
    time or later: what it evicts would have missed anyway. *)
Theorem clean_old_cache_unseen c (current_time now : Z) (dialog_id : Z) (k : bool) :
  current_time ≤ now →
  Cache.get_messages (Cache.clean_old_cache c current_time) now dialog_id
  = Cache.get_messages c now dialog_id
  ∧ Cache.get_dialogs (Cache.clean_old_cache c current_time) now k
    = Cache.get_dialogs c now k.
Proof.
  intros Hle. split.
  - unfold Cache.get_messages. rewrite clean_old_cache_messages.
    destruct (clean_old_cache_dialogs c current_time) as [_ ->].
    destruct (Cache.messages_cache c !! dialog_id) as [entry|]; [|reflexivity].
    destruct (decide _) as [Hold|]; [|reflexivity].
    destruct (Z.ltb_spec (now - Cache.m_timestamp entry) (Cache.max_age_minutes c * 60));
      [lia|reflexivity].
  - unfold Cache.get_dialogs.
    destruct (clean_old_cache_dialogs c current_time) as [-> ->].
    destruct (Z.gtb_spec (current_time - Cache.d_timestamp (Cache.dialogs_cache c))
                (Cache.max_age_minutes c * 60)) as [Hold|]; [|reflexivity].
    simpl.
    destruct (Z.ltb_spec (now - Cache.d_timestamp (Cache.dialogs_cache c))
                (Cache.max_age_minutes c * 60)); [lia|].
    by rewrite !andb_false_r.
Qed.

End CacheMore.

Lemma invalidate_then_miss_witness :
  Cache.invalidate_messages_cache sample_cache (Some 8) = sample_cache.
Proof.
  refine (proj1 (proj2 (proj2 (invalidate_then_miss sample_cache 0 8 7 false))) _).
  reflexivity.
Defined.

Lemma clean_old_cache_unseen_witness :
  Cache.get_messages (Cache.clean_old_cache sample_cache 500) 600 7
  = Cache.get_messages sample_cache 600 7
  ∧ Cache.get_dialogs (Cache.clean_old_cache sample_cache 500) 600 false
    = Cache.get_dialogs sample_cache 600 false.
Proof. apply (clean_old_cache_unseen sample_cache 500 600 7 false). lia. Defined.

(** X5: [clean_old_cache] keeps exactly the message lists that are not
    older than the TTL, each as it was. *)
Theorem clean_old_cache_keeps {Dialogs Messages : Type}
    (c : Cache.CacheManager Dialogs Messages) (current_time : Z) (dialog_id : Z)
    (entry : Cache.messages_entry Messages) :
  Cache.messages_cache (Cache.clean_old_cache c current_time) !! dialog_id = Some entry
  ↔ Cache.messages_cache c !! dialog_id = Some entry
    ∧ current_time - Cache.m_timestamp entry ≤ Cache.max_age_minutes c * 60.
Proof.
  rewrite clean_old_cache_messages.
  destruct (Cache.messages_cache c !! dialog_id) as [e|];
    [|split; [discriminate|intros [? _]; discriminate]].
  destruct (decide _) as [Hold|Hyoung].
  - split; [discriminate|]. intros [[= ->] ?]. lia.
  - split.
    + intros [= ->]. split; [reflexivity|lia].
    + by intros [? _].
Qed.

(** ** The cache on disk *)

Section CacheDisk.
Context {Dialogs Messages : Type}.
Implicit Types (c : Cache.CacheManager Dialogs Messages).

Lemma load_saved_lookup (l : list (Z * Cache.messages_entry Messages))
    (cache : gmap Z (Cache.messages_entry Messages)) (k : Z) :
  NoDup l.*1 →
  Cache.load_messages (map saved l) cache !! k
  = match list_to_map (M := gmap Z (Cache.messages_entry Messages)) l !! k with
    | Some e => Some {| Cache.m_data := None; Cache.m_timestamp := Cache.m_timestamp e |}
    | None => cache !! k
    end.
Proof.
  intros Hnd.
  destruct (list_to_map (M := gmap Z (Cache.messages_entry Messages)) l !! k)
    as [e|] eqn:He.
  - apply load_saved_entry; [exact Hnd|]. by apply elem_of_list_to_map.
  - apply load_saved_other. by apply not_elem_of_list_to_map.
Qed.

(** X6: saving and restoring keeps the metadata and drops the payload.
    A manager built over the files that [save_cache] wrote has the time
    stamp and the filter flag of the conversation list and no list; it has
    an entry for exactly the conversations that had one, each with its time
    stamp and no messages; and its conversation list misses under either
    flag at any time. *)
Theorem save_cache_init c (max_age now : Z) (dialog_id : Z) (k : bool) :
  let restored :=
    Cache.init (Dialogs := Dialogs) (Messages := Messages) (Cache.save_cache c) max_age in
  Cache.d_timestamp (Cache.dialogs_cache restored) = Cache.d_timestamp (Cache.dialogs_cache c)
  ∧ Cache.d_only_unread (Cache.dialogs_cache restored)
    = Cache.d_only_unread (Cache.dialogs_cache c)
  ∧ Cache.d_data (Cache.dialogs_cache restored) = None
  ∧ Cache.messages_cache restored !! dialog_id
    = (λ entry, {| Cache.m_data := None; Cache.m_timestamp := Cache.m_timestamp entry |})
        <$> Cache.messages_cache c !! dialog_id
  ∧ Cache.get_dialogs restored now k = None.
Proof.
  intros restored. repeat split.
  subst restored. unfold Cache.init, Cache.load_cache, Cache.save_cache. simpl.
  change (map (λ '(dialog_id, entry), (Some dialog_id, Some (Cache.m_timestamp entry))))
    with (map (saved (Messages := Messages))).
  rewrite load_saved_lookup by apply NoDup_fst_map_to_list.
  rewrite list_to_map_to_list, lookup_empty.
  by destruct (Cache.messages_cache c !! dialog_id).
Qed.

(** X7: a key of the message file that is not a number ends the
    loading: the entries before it are restored, the entries after it are
    not. *)
Theorem load_messages_stops (before after : Cache.messages_file) (timestamp : option Z)
    (cache : gmap Z (Cache.messages_entry Messages)) :
  Cache.load_messages (before ++ (None, timestamp) :: after) cache
  = Cache.load_messages before cache.
Proof.
  revert cache. induction before as [|[[dialog_id|] ts] before IH]; intros cache; simpl.
  - reflexivity.
  - apply IH.
  - reflexivity.
Qed.

End CacheDisk.

(** ** The state manager: listeners, data, going back *)

Section StateMore.
Context {V : Type}.
Implicit Types (sm : State.StateManager V) (data : gmap string V).

Lemma notify_loop_calls (state : State.AppState) (cbs : list (State.callback (V := V)))
    (k : nat) data :
  map State.listener (State.notify_loop state cbs k data).2 = seq k (length cbs)
  ∧ Forall (λ call, State.for_state call = state) (State.notify_loop state cbs k data).2
  ∧ (State.notify_loop state cbs k data).1 = listeners_leave cbs data
  ∧ ∀ (j : nat) listener call,
      cbs !! j = Some listener →
      (State.notify_loop state cbs k data).2 !! j = Some call →
      State.raised call = (listener (listeners_leave (take j cbs) data)).2.
Proof.
  revert k data. induction cbs as [|cb cbs IH]; intros k data; simpl.
  - repeat split; try done; intros j listener call Hj; by destruct j.
  - unfold listeners_leave. simpl. fold (listeners_leave cbs (cb data).1).
    destruct (cb data) as [data1 r] eqn:Hcb.
    specialize (IH (S k) data1).
    destruct (State.notify_loop state cbs (S k) data1) as [data2 calls].
    simpl in *. destruct IH as (-> & Hfor & -> & Hraised).
    split; [reflexivity|]. split; [by constructor|]. split; [reflexivity|].
    intros [|j] listener call Hj Hcall; simpl in *.
    + injection Hj as <-. injection Hcall as <-. simpl. by rewrite Hcb.
    + rewrite Hcb. simpl. by apply Hraised.
Qed.

(** X8: a change of state calls every listener registered for the new
    state, once each and in the order of registration, whether or not some
    of them raise, and no listener of another state.  Each listener is
    given the state data as the listeners before it left it, what it does to
    the data stays also when it raises, whether it raised is what the call
    records, and the state data after the change is what the last listener
    left.  Registering puts the listener last among those of its state and
    leaves the listeners of the other states as they were. *)
Theorem set_state_calls_listeners sm (state state' : State.AppState) data
    (cb : State.callback (V := V)) :
  (state ≠ State.current_state sm →
   let callbacks := default [] (State.state_change_callbacks sm !! state) in
   let given := data ∪ State.state_data sm in
   map State.listener (State.set_state sm state data).2 = seq 0 (length callbacks)
   ∧ Forall (λ call, State.for_state call = state) (State.set_state sm state data).2
   ∧ State.state_data (State.set_state sm state data).1 = listeners_leave callbacks given
   ∧ ∀ (k : nat) listener call,
       callbacks !! k = Some listener →
       (State.set_state sm state data).2 !! k = Some call →
       State.raised call = (listener (listeners_leave (take k callbacks) given)).2)
  ∧ State.state_change_callbacks (State.register_state_change_callback sm state cb)
    !! state'
    = (if decide (state' = state)
       then Some (default [] (State.state_change_callbacks sm !! state) ++ [cb])
       else State.state_change_callbacks sm !! state').
Proof.
  split.
  - intros Hne callbacks given. subst callbacks given.
    unfold State.set_state. rewrite (bool_decide_eq_true_2 _ Hne).
    unfold State.notify_state_change. simpl.
    destruct (State.state_change_callbacks sm !! state) as [cbs|]; simpl.
    + pose proof (notify_loop_calls state cbs 0 (data ∪ State.state_data sm)) as Hcalls.
      by destruct (State.notify_loop state cbs 0 (data ∪ State.state_data sm)).
    + repeat split; try done; intros k listener call Hk; by destruct k.
  - simpl. destruct (decide (state' = state)) as [->|Hne].
    + by rewrite lookup_insert_eq.
    + by rewrite lookup_insert_ne.
Qed.

(** X9: a change to a state without listeners merges the data it is
    given into the state data: a key that is given takes the new value, any
    other key keeps its value. *)
Theorem set_state_merges_data sm (state : State.AppState) data (key : string) :
  state ≠ State.current_state sm →
  default [] (State.state_change_callbacks sm !! state) = [] →
  State.state_data (State.set_state sm state data).1 !! key
  = match data !! key with
    | Some v => Some v
    | None => State.state_data sm !! key
    end.
Proof.
  intros Hne Hnone. unfold State.set_state. rewrite (bool_decide_eq_true_2 _ Hne).
  unfold State.notify_state_change. simpl.
  destruct (State.state_change_callbacks sm !! state) as [cbs|]; simpl in *.
  - subst cbs. simpl. rewrite lookup_union. by destruct (data !! key), (_ !! key).
  - rewrite lookup_union. by destruct (data !! key), (_ !! key).
Qed.

Lemma set_state_distinct sm (state : State.AppState) data :
  distinct_states sm → distinct_states (State.set_state sm state data).1.
Proof.
  intros Hd. destruct (decide (state = State.current_state sm)) as [->|Hne].
  - by rewrite set_state_same.
  - destruct (set_state_other sm state data Hne) as [Hc Hp].
    unfold distinct_states. rewrite Hc, Hp. congruence.
Qed.

Lemma apply_distinct sm (o : StateOps.op V) :
  distinct_states sm → distinct_states (StateOps.apply sm o).
Proof.
  intros Hd. destruct o; simpl.
  - by apply set_state_distinct.
  - unfold State.return_to_previous_state.
    destruct (State.prev_state sm); [by apply set_state_distinct|exact Hd].
  - exact Hd.
  - exact Hd.
Qed.

Lemma run_distinct (ops : list (StateOps.op V)) : distinct_states (StateOps.run ops).
Proof.
  unfold StateOps.run.
  assert (distinct_states (State.new (V := V))) as Hnew by (intros [=]).
  revert Hnew. generalize (State.new (V := V)).
  induction ops as [|o ops IH]; intros sm Hsm; simpl; [exact Hsm|].
  apply IH. by apply apply_distinct.
Qed.

(** X10: in a manager that was only used through its methods the
    previous state is never the current one, so
    [return_to_previous_state()] does nothing when no state was left yet,
    and otherwise swaps the current and the previous state; called twice,
    it brings the current state back. *)
Theorem return_to_previous_state_swaps (ops : list (StateOps.op V)) :
  let sm := StateOps.run ops in
  State.prev_state sm ≠ Some (State.current_state sm)
  ∧ (State.prev_state sm = None → State.return_to_previous_state sm = (sm, []))
  ∧ (∀ previous, State.prev_state sm = Some previous →
       State.current_state (State.return_to_previous_state sm).1 = previous
       ∧ State.prev_state (State.return_to_previous_state sm).1
         = Some (State.current_state sm)
       ∧ State.current_state
           (State.return_to_previous_state (State.return_to_previous_state sm).1).1
         = State.current_state sm).
Proof.
  intros sm. pose proof (run_distinct ops) as Hd. fold sm in Hd.
  split; [exact Hd|]. split.
  - intros Hnone. unfold State.return_to_previous_state. by rewrite Hnone.
  - intros previous Hp.
    assert (previous ≠ State.current_state sm) as Hne.
    { intros ->. by apply Hd. }
    assert (State.return_to_previous_state sm = State.set_state sm previous ∅) as ->.
    { unfold State.return_to_previous_state. by rewrite Hp. }
    destruct (set_state_other sm previous ∅ Hne) as [Hc Hpr].
    split; [exact Hc|]. split; [exact Hpr|].
    unfold State.return_to_previous_state at 1. rewrite Hpr.
    apply set_state_current.
Qed.

End StateMore.

Lemma set_state_calls_listeners_witness :
  State.state_data
    (State.set_state
       (State.register_state_change_callback
          (State.register_state_change_callback (State.new (V := nat)) State.CHAT
             raising_listener)
          State.CHAT sample_listener)
       State.CHAT ∅).1
  = listeners_leave [raising_listener; sample_listener] ∅.
Proof.
  refine (proj1 (proj2 (proj2 (proj1 (set_state_calls_listeners
                          (State.register_state_change_callback
                             (State.register_state_change_callback
                                (State.new (V := nat)) State.CHAT raising_listener)
                             State.CHAT sample_listener)
                          State.CHAT State.CHAT ∅ sample_listener) _)))).
  discriminate.
Defined.

Lemma set_state_merges_data_witness :
  State.state_data
    (State.set_state
       (StateOps.set_state_data (StateOps.set_state_data State.new "a" 1%nat) "b" 2%nat)
       State.CHAT {["b" := 3%nat]}).1 !! "b" = Some 3%nat
  ∧ State.state_data
      (State.set_state
         (StateOps.set_state_data (StateOps.set_state_data State.new "a" 1%nat) "b" 2%nat)
         State.CHAT {["b" := 3%nat]}).1 !! "a" = Some 1%nat.
Proof.
  split.
  - rewrite (set_state_merges_data
               (StateOps.set_state_data (StateOps.set_state_data State.new "a" 1%nat)
                  "b" 2%nat) State.CHAT {["b" := 3%nat]} "b"); [reflexivity| |];
      [discriminate|reflexivity].
  - rewrite (set_state_merges_data
               (StateOps.set_state_data (StateOps.set_state_data State.new "a" 1%nat)
                  "b" 2%nat) State.CHAT {["b" := 3%nat]} "a"); [reflexivity| |];
      [discriminate|reflexivity].
Defined.

Lemma return_to_previous_state_swaps_witness :
  State.current_state
    (State.return_to_previous_state
       (StateOps.run (V := nat)
          [StateOps.SetState State.DIALOGS ∅; StateOps.SetState State.CHAT ∅])).1
  = State.DIALOGS
  ∧ State.prev_state
      (State.return_to_previous_state
         (StateOps.run (V := nat)
            [StateOps.SetState State.DIALOGS ∅; StateOps.SetState State.CHAT ∅])).1
    = Some State.CHAT
  ∧ State.current_state
      (State.return_to_previous_state
         (State.return_to_previous_state
            (StateOps.run (V := nat)
               [StateOps.SetState State.DIALOGS ∅; StateOps.SetState State.CHAT ∅])).1).1
    = State.CHAT.
Proof.
  refine (proj2 (proj2 (return_to_previous_state_swaps (V := nat)
                          [StateOps.SetState State.DIALOGS ∅;
                           StateOps.SetState State.CHAT ∅]))
            State.DIALOGS _).
  reflexivity.
Defined.

(** ** The task loader: the table *)

Section LoaderMore.
Context {value exn cb : Type}.
Context (body : cb → value + exn → list (Loader.command cb) * bool).
Implicit Types (w : Loader.World value exn cb) (t : Loader.Task cb).

Lemma table_invariant_ext w w' :
  Loader.loader w' = Loader.loader w →
  Loader.next_uuid w' = Loader.next_uuid w →
  deletion_ids (Loader.trace w') = deletion_ids (Loader.trace w) →
  table_invariant w → table_invariant w'.
Proof. intros Hl Hn Ht. unfold table_invariant. by rewrite Hl, Hn, Ht. Qed.

Lemma deletion_ids_app (tr evs : list (Loader.event value exn cb)) :
  deletion_ids (tr ++ evs) = deletion_ids tr ++ deletion_ids evs.
Proof. unfold deletion_ids. apply omap_app. Qed.

Lemma fold_cancel_fields (l : list (nat * (nat * option cb * option cb))) w :
  Loader.loader (fold_left (λ w '(_, (task, _, _)), Loader.task_cancel task w) l w)
  = Loader.loader w
  ∧ Loader.next_uuid (fold_left (λ w '(_, (task, _, _)), Loader.task_cancel task w) l w)
    = Loader.next_uuid w
  ∧ Loader.trace (fold_left (λ w '(_, (task, _, _)), Loader.task_cancel task w) l w)
    = Loader.trace w.
Proof.
  revert w. induction l as [|[k [[task oc] oe]] l IH]; intros w; simpl; [done|].
  destruct (IH (Loader.task_cancel task w)) as (-> & -> & ->). done.
Qed.

Lemma create_task_table (on_complete on_error : option cb) w :
  table_invariant w → table_invariant (Loader.create_task on_complete on_error w).1.
Proof.
  intros (Hnd & Hb & Hdel & Hh). split; [exact Hnd|]. simpl. split; [|split].
  - intros i. rewrite lookup_insert_is_Some. intros [<-|[_ Hi]]; [lia|].
    specialize (Hb i Hi). lia.
  - intros i Hi. destruct (Hdel i Hi) as [Hlt Hnone]. split; [lia|].
    rewrite lookup_insert_ne by lia. exact Hnone.
  - intros i task oc oe. rewrite lookup_insert. case_decide as Hi.
    + by intros [= <- _ _].
    + apply Hh.
Qed.

Lemma cancel_task_table (task_id : nat) w :
  table_invariant w → table_invariant (Loader.cancel_task task_id w).1.
Proof.
  intros Hinv. unfold Loader.cancel_task.
  destruct (Loader.active_tasks (Loader.loader w) !! task_id) as [[[task ?] ?]|];
    [|exact Hinv].
  by apply (table_invariant_ext w).
Qed.

Lemma cancel_all_tasks_table w :
  table_invariant w → table_invariant (Loader.cancel_all_tasks w).
Proof.
  intros (Hnd & Hb & Hdel & Hh). unfold Loader.cancel_all_tasks.
  destruct (fold_cancel_fields (map_to_list (Loader.active_tasks (Loader.loader w))) w)
    as (Hl & Hn & Ht).
  unfold table_invariant. simpl. rewrite Hn, Ht. split; [exact Hnd|]. split; [|split].
  - intros i [? Hi]. by rewrite lookup_empty in Hi.
  - intros i Hi. split; [by apply Hdel|apply lookup_empty].
  - intros i task oc oe Hi. by rewrite lookup_empty in Hi.
Qed.

Lemma run_commands_table (cmds : list (Loader.command cb)) w :
  table_invariant w → table_invariant (fold_left Loader.run_command cmds w).
Proof.
  revert w. induction cmds as [|c cmds IH]; intros w Hinv; simpl; [exact Hinv|].
  apply IH. destruct c; simpl.
  - by apply create_task_table.
  - by apply cancel_task_table.
  - by apply cancel_all_tasks_table.
Qed.

Lemma call_table (task_id : nat) (f : cb) (arg : value + exn) w :
  table_invariant w → table_invariant (Loader.call body task_id f arg w).
Proof.
  intros Hinv. unfold Loader.call. apply run_commands_table.
  apply (table_invariant_ext w); try reflexivity; [|exact Hinv].
  simpl. rewrite deletion_ids_app. simpl. by rewrite app_nil_r.
Qed.

(** The [finally] of the wrapper. *)
Lemma finally_table (task_id : nat) w :
  table_invariant w →
  table_invariant
    (if bool_decide (is_Some (Loader.active_tasks (Loader.loader w) !! task_id))
     then Loader.emit
            (Loader.set_active_tasks w
               (delete task_id (Loader.active_tasks (Loader.loader w))))
            (Loader.Deleted task_id)
     else w).
Proof.
  intros Hinv. case_bool_decide as Hact; [|exact Hinv].
  destruct Hinv as (Hnd & Hb & Hdel & Hh).
  assert (task_id ∉ deletion_ids (Loader.trace w)) as Hfresh.
  { intros Hin. destruct (Hdel _ Hin) as [_ Hnone]. rewrite Hnone in Hact.
    by destruct Hact. }
  unfold table_invariant. simpl. rewrite deletion_ids_app. simpl.
  split; [|split; [|split]].
  - apply NoDup_app. split; [exact Hnd|]. split; [|apply NoDup_singleton].
    intros x Hx ->%list_elem_of_singleton. done.
  - intros i. rewrite lookup_delete_is_Some. intros [_ Hi]. by apply Hb.
  - intros i. rewrite elem_of_app, list_elem_of_singleton. intros [Hi| ->].
    + destruct (Hdel i Hi) as [Hlt Hnone]. split; [exact Hlt|].
      rewrite lookup_delete. case_decide; [reflexivity|exact Hnone].
    + split; [by apply Hb|apply lookup_delete_eq].
  - intros i task oc oe. rewrite lookup_delete. case_decide; [discriminate|apply Hh].
Qed.

Lemma task_wrapper_table (task_id : nat) (o : Loader.outcome value exn)
    (on_complete on_error : option cb) w :
  table_invariant w →
  table_invariant (Loader.task_wrapper body task_id o on_complete on_error w).1.
Proof.
  intros Hinv. unfold Loader.task_wrapper.
  destruct o as [result|e|]; simpl.
  - apply finally_table. destruct on_complete; [by apply call_table|exact Hinv].
  - apply finally_table. destruct on_error; [by apply call_table|exact Hinv].
  - by apply finally_table.
Qed.

Lemma act_table (a : Loader.action value exn cb) w :
  table_invariant w → table_invariant (Loader.act body w a).
Proof.
  intros Hinv. destruct a; simpl.
  - by apply create_task_table.
  - by apply cancel_task_table.
  - by apply cancel_all_tasks_table.
  - unfold Loader.loop_start.
    destruct (Loader.tasks w !! task) as [t|]; [|exact Hinv].
    destruct (Loader.t_phase t); exact Hinv.
  - unfold Loader.loop_resume.
    destruct (Loader.tasks w !! task) as [t|]; [|exact Hinv].
    destruct (Loader.t_phase t); try exact Hinv.
    eapply table_invariant_ext; [| | |by apply task_wrapper_table]; reflexivity.
Qed.

Lemma run_table (actions : list (Loader.action value exn cb)) :
  table_invariant (Loader.run body actions).
Proof.
  unfold Loader.run.
  assert (table_invariant (Loader.empty (value := value) (exn := exn) (cb := cb)))
    as Hempty.
  { split; [apply NoDup_nil_2|]. split; [|split].
    - intros i [? Hi]. simpl in Hi. by rewrite lookup_empty in Hi.
    - intros i Hi. by apply elem_of_nil in Hi.
    - intros i task oc oe Hi. simpl in Hi. by rewrite lookup_empty in Hi. }
  revert Hempty. generalize (Loader.empty (value := value) (exn := exn) (cb := cb)).
  induction actions as [|a actions IH]; intros w Hw; simpl; [exact Hw|].
  apply IH. by apply act_table.
Qed.

(** X11: [create_task] names the new task by an identifier that is not
    in the table: the table grows by one entry, the new task is active, and
    the entries of the other tasks stay as they were. *)
Theorem create_task_fresh (actions : list (Loader.action value exn cb))
    (on_complete on_error : option cb) (other : nat) :
  let w := Loader.run body actions in
  let w' := (Loader.create_task on_complete on_error w).1 in
  let task_id := (Loader.create_task on_complete on_error w).2 in
  Loader.is_task_active task_id w = false
  ∧ Loader.is_task_active task_id w' = true
  ∧ Loader.get_active_tasks_count w' = S (Loader.get_active_tasks_count w)
  ∧ (other ≠ task_id →
     Loader.active_tasks (Loader.loader w') !! other
     = Loader.active_tasks (Loader.loader w) !! other).
Proof.
  intros w w' task_id. destruct (run_table actions) as (_ & Hb & _ & _). fold w in Hb.
  assert (Loader.active_tasks (Loader.loader w) !! Loader.next_uuid w = None) as Hnone.
  { apply eq_None_not_Some. intros Hi. specialize (Hb _ Hi). lia. }
  split; [|split; [|split]].
  - unfold Loader.is_task_active. subst task_id. simpl. rewrite Hnone.
    apply bool_decide_eq_false_2. by intros [? ?].
  - unfold Loader.is_task_active. subst w' task_id. simpl. rewrite lookup_insert_eq.
    apply bool_decide_eq_true_2. eauto.
  - unfold Loader.get_active_tasks_count. subst w'. simpl.
    by apply map_size_insert_None.
  - intros Hne. subst w' task_id. simpl. by rewrite lookup_insert_ne.
Qed.

(** X12: over any run of the loader no wrapper deletes a task twice,
    and a task that a wrapper deleted is not active again. *)
Theorem deleted_once (actions : list (Loader.action value exn cb)) (task_id : nat) :
  NoDup (deletion_ids (Loader.trace (Loader.run body actions)))
  ∧ (task_id ∈ deletion_ids (Loader.trace (Loader.run body actions)) →
     Loader.is_task_active task_id (Loader.run body actions) = false).
Proof.
  destruct (run_table actions) as (Hnd & _ & Hdel & _). split; [exact Hnd|].
  intros Hin. destruct (Hdel _ Hin) as [_ Hnone].
  unfold Loader.is_task_active. rewrite Hnone. apply bool_decide_eq_false_2. by intros [? ?].
Qed.

End LoaderMore.

Lemma create_task_fresh_witness :
  Loader.active_tasks
    (Loader.loader
       (Loader.create_task (Some 3%nat) None
          (Loader.run idle [Loader.DoCreate (Some 1%nat) None])).1) !! 0%nat
  = Loader.active_tasks
      (Loader.loader (Loader.run idle [Loader.DoCreate (Some 1%nat) None])) !! 0%nat.
Proof.
  refine (proj2 (proj2 (proj2
            (create_task_fresh idle [Loader.DoCreate (Some 1%nat) None]
               (Some 3%nat) None 0%nat))) _).
  simpl. lia.
Defined.

Lemma deleted_once_witness :
  Loader.is_task_active 0
    (Loader.run idle
       [Loader.DoCreate (Some 1%nat) None; Loader.DoStart 0;
        Loader.DoResume 0 (Loader.Returned 5%nat)])
  = false.
Proof.
  refine (proj2 (deleted_once idle
                   [Loader.DoCreate (Some 1%nat) None; Loader.DoStart 0;
                    Loader.DoResume 0 (Loader.Returned 5%nat)] 0%nat) _).
  vm_compute. left.
Defined.

(** ** The task loader: cancelling *)

Section LoaderCancel.
Context {value exn cb : Type}.
Context (body : cb → value + exn → list (Loader.command cb) * bool).
Implicit Types (w : Loader.World value exn cb) (t : Loader.Task cb).

Lemma request_cancel_twice t :
  Loader.request_cancel (Loader.request_cancel t) = Loader.request_cancel t.
Proof. unfold Loader.request_cancel. by destruct (Loader.t_phase t) eqn:Hp; simpl; rewrite ?Hp. Qed.

Lemma fold_cancel_tasks (l : list (nat * (nat * option cb * option cb))) w (h : nat) :
  Loader.tasks (fold_left (λ w '(_, (task, _, _)), Loader.task_cancel task w) l w) !! h
  = (if decide (h ∈ handles l)
     then Loader.request_cancel <$> Loader.tasks w !! h
     else Loader.tasks w !! h).
Proof.
  revert w. induction l as [|[k [[task oc] oe]] l IH]; intros w; cbn [fold_left handles map].
  - rewrite decide_False; [reflexivity|]. apply not_elem_of_nil.
  - rewrite IH. cbn [Loader.task_cancel Loader.set_tasks Loader.tasks].
    rewrite lookup_alter. fold (handles l).
    destruct (decide (h ∈ handles l)) as [Hin|Hnin].
    + destruct (decide (h ∈ task :: handles l)) as [_|Hn];
        [|exfalso; apply Hn, elem_of_cons; by right].
      destruct (decide (task = h)) as [->|Hh]; [|reflexivity].
      destruct (Loader.tasks w !! h); simpl; [|reflexivity].
      by rewrite request_cancel_twice.
    + destruct (decide (task = h)) as [->|Hh].
      * destruct (decide (h ∈ h :: handles l)) as [_|Hn]; [reflexivity|].
        exfalso. apply Hn, elem_of_cons. by left.
      * destruct (decide (h ∈ task :: handles l)) as [[?|?]%elem_of_cons|_];
          [congruence|done|reflexivity].
Qed.

Lemma active_entry (actions : list (Loader.action value exn cb)) (i : nat) :
  Loader.is_task_active i (Loader.run body actions) = true →
  ∃ on_complete on_error,
    Loader.active_tasks (Loader.loader (Loader.run body actions)) !! i
    = Some (i, on_complete, on_error).
Proof.
  unfold Loader.is_task_active. intros [[[task oc] oe] He]%bool_decide_eq_true.
  destruct (run_table body actions) as (_ & _ & _ & Hh).
  rewrite (Hh _ _ _ _ He) in He. eauto.
Qed.

(** X13: cancelling a task that waits at its [await].  [cancel_task]
    answers True and leaves the entry where it is; when the event loop
    runs the task again, no callback is called, whatever the operation had
    come to, and the wrapper takes the task out of the table. *)
Theorem cancel_task_started (actions : list (Loader.action value exn cb)) (i : nat) t
    (o : Loader.outcome value exn) :
  let w := Loader.run body actions in
  Loader.tasks w !! i = Some t →
  Loader.t_phase t = Loader.Suspended →
  Loader.is_task_active i w = true →
  (Loader.cancel_task i w).2 = true
  ∧ Loader.is_task_active i (Loader.cancel_task i w).1 = true
  ∧ Loader.all_calls (Loader.trace (Loader.loop_resume body i o (Loader.cancel_task i w).1))
    = Loader.all_calls (Loader.trace w)
  ∧ Loader.is_task_active i (Loader.loop_resume body i o (Loader.cancel_task i w).1)
    = false.
Proof.
  intros w Ht Hp Hact.
  destruct (active_entry actions i Hact) as (oc & oe & He). fold w in He.
  assert (Loader.cancel_task i w = (Loader.task_cancel i w, true)) as Hc.
  { unfold Loader.cancel_task. by rewrite He. }
  rewrite Hc. simpl.
  assert (Loader.tasks (Loader.task_cancel i w) !! i = Some (Loader.request_cancel t))
    as Ht1.
  { simpl. by rewrite lookup_alter_eq, Ht. }
  assert (Loader.t_phase (Loader.request_cancel t) = Loader.Suspended
          ∧ Loader.t_must_cancel (Loader.request_cancel t) = true) as [Hp1 Hm1].
  { unfold Loader.request_cancel. by rewrite Hp. }
  split; [reflexivity|]. split; [exact Hact|]. split.
  - destruct (run_invariant body actions) as (_ & Hb & _). fold w in Hb.
    destruct (task_cancel_evolves i w) as [Hev Htr].
    destruct (loop_resume_trace body i o _ _ (evolves_bounded _ _ Hev Hb) Ht1 Hp1)
      as (_ & _ & del & Hdel & ->).
    rewrite Hm1. simpl. rewrite all_calls_app.
    destruct Hdel as [-> | ->]; simpl; by rewrite app_nil_r.
  - by apply (loop_resume_removes body i o _ (Loader.request_cancel t)).
Qed.

(** X14: [cancel_all_tasks] empties the table and cancels what was in
    it: a task that was active and waiting at its [await] calls no callback
    when the event loop runs it again, and a task that was active and had
    not started never runs. *)
Theorem cancel_all_tasks_silences (actions : list (Loader.action value exn cb)) (i : nat) t
    (o : Loader.outcome value exn) :
  let w := Loader.run body actions in
  Loader.get_active_tasks_count (Loader.cancel_all_tasks w) = 0%nat
  ∧ (Loader.tasks w !! i = Some t →
     Loader.is_task_active i w = true →
     (Loader.t_phase t = Loader.Suspended →
      Loader.all_calls
        (Loader.trace (Loader.loop_resume body i o (Loader.cancel_all_tasks w)))
      = Loader.all_calls (Loader.trace w))
     ∧ (Loader.t_phase t = Loader.Created →
        Loader.t_phase
          <$> Loader.tasks (Loader.loop_start i (Loader.cancel_all_tasks w)) !! i
        = Some Loader.Finished
        ∧ Loader.trace (Loader.loop_start i (Loader.cancel_all_tasks w))
          = Loader.trace w)).
Proof.
  intros w. split; [apply cancel_all_tasks_count|].
  intros Ht Hact.
  destruct (active_entry actions i Hact) as (oc & oe & He). fold w in He.
  assert (Loader.tasks (Loader.cancel_all_tasks w) !! i = Some (Loader.request_cancel t))
    as Ht1.
  { unfold Loader.cancel_all_tasks. simpl. rewrite fold_cancel_tasks, Ht. simpl.
    rewrite decide_True; [reflexivity|].
    apply (list_elem_of_fmap_2' _ _ (i, (i, oc, oe))); [|reflexivity].
    by apply elem_of_map_to_list. }
  destruct (cancel_all_tasks_evolves w) as [Hev Htr].
  split.
  - intros Hp.
    assert (Loader.t_phase (Loader.request_cancel t) = Loader.Suspended
            ∧ Loader.t_must_cancel (Loader.request_cancel t) = true) as [Hp1 Hm1].
    { unfold Loader.request_cancel. by rewrite Hp. }
    destruct (run_invariant body actions) as (_ & Hb & _). fold w in Hb.
    destruct (loop_resume_trace body i o _ _ (evolves_bounded _ _ Hev Hb) Ht1 Hp1)
      as (_ & _ & del & Hdel & ->).
    rewrite Hm1, Htr. simpl. rewrite all_calls_app.
    destruct Hdel as [-> | ->]; simpl; by rewrite app_nil_r.
  - intros Hp.
    assert (Loader.t_phase (Loader.request_cancel t) = Loader.Created
            ∧ Loader.t_must_cancel (Loader.request_cancel t) = true) as [Hp1 Hm1].
    { unfold Loader.request_cancel. by rewrite Hp. }
    unfold Loader.loop_start. rewrite Ht1, Hp1, Hm1. simpl.
    split; [by rewrite lookup_insert_eq|].
    destruct (fold_cancel_fields (map_to_list (Loader.active_tasks (Loader.loader w))) w)
      as (_ & _ & Hfold). exact Hfold.
Qed.

End LoaderCancel.

Lemma cancel_task_started_witness :
  Loader.all_calls
    (Loader.trace
       (Loader.loop_resume idle 0 (Loader.Returned 5%nat)
          (Loader.cancel_task 0
             (Loader.run idle [Loader.DoCreate (Some 1%nat) None; Loader.DoStart 0])).1))
  = Loader.all_calls
      (Loader.trace (Loader.run idle [Loader.DoCreate (Some 1%nat) None; Loader.DoStart 0])).
Proof.
  refine (proj1 (proj2 (proj2
            (cancel_task_started idle [Loader.DoCreate (Some 1%nat) None; Loader.DoStart 0]
               0%nat
               {| Loader.t_phase := Loader.Suspended; Loader.t_must_cancel := false;
                  Loader.t_on_complete := Some 1%nat; Loader.t_on_error := None |}
               (Loader.Returned 5%nat) _ _ _)))); reflexivity.
Defined.

Lemma cancel_all_tasks_silences_witness :
  Loader.all_calls
    (Loader.trace
       (Loader.loop_resume idle 0 (Loader.Returned 5%nat)
          (Loader.cancel_all_tasks
             (Loader.run idle [Loader.DoCreate (Some 1%nat) None; Loader.DoStart 0]))))
  = Loader.all_calls
      (Loader.trace (Loader.run idle [Loader.DoCreate (Some 1%nat) None; Loader.DoStart 0])).
Proof.
  refine (proj1 (proj2
            (cancel_all_tasks_silences idle
               [Loader.DoCreate (Some 1%nat) None; Loader.DoStart 0] 0%nat
               {| Loader.t_phase := Loader.Suspended; Loader.t_must_cancel := false;
                  Loader.t_on_complete := Some 1%nat; Loader.t_on_error := None |}
               (Loader.Returned 5%nat)) _ _) _); reflexivity.
Defined.

(** ** The keys *)

Lemma dict_fold_is_Some (entries : list (Z * Keys.handler)) (m : gmap Z Keys.handler)
    (key : Z) :
  is_Some (fold_left (λ m '(k, h), <[k := h]> m) entries m !! key)
  ↔ key ∈ entries.*1 ∨ is_Some (m !! key).
Proof.
  revert m. induction entries as [|[k h] entries IH]; intros m; simpl.
  - rewrite elem_of_nil. tauto.
  - rewrite IH, elem_of_cons, lookup_insert_is_Some. 
    destruct (decide (k = key)) as [->|Hne]; [tauto|].
    split; [intros [?|[?|[_ ?]]]|intros [[?|?]|?]]; try tauto; congruence.
Qed.

Lemma dict_is_Some (entries : list (Z * Keys.handler)) (key : Z) :
  is_Some (Keys.dict entries !! key) ↔ key ∈ entries.*1.
Proof.
  unfold Keys.dict. rewrite dict_fold_is_Some, lookup_empty.
  split; [intros [?|[? ?]]; [done|discriminate]|by left].
Qed.

Lemma dict_fold_handler (entries : list (Z * Keys.handler)) (m : gmap Z Keys.handler)
    (key : Z) (h : Keys.handler) :
  fold_left (λ m '(k, h), <[k := h]> m) entries m !! key = Some h →
  h ∈ entries.*2 ∨ m !! key = Some h.
Proof.
  revert m. induction entries as [|[k h'] entries IH]; intros m; simpl; [by right|].
  intros [Hin|Hm]%IH; [left; by right|].
  apply lookup_insert_Some in Hm as [[_ <-]|[_ Hm]]; [left; by left|by right].
Qed.

Lemma dict_handler (entries : list (Z * Keys.handler)) (key : Z) (h : Keys.handler) :
  Keys.dict entries !! key = Some h → h ∈ entries.*2.
Proof.
  intros [?|Hm]%dict_fold_handler; [done|]. by rewrite lookup_empty in Hm.
Qed.

Ltac not_listed H :=
  repeat (apply elem_of_cons in H as [H|H]; [discriminate H|]);
  by apply elem_of_nil in H.

Lemma dict_last (entries : list (Z * Keys.handler)) (key : Z) (h : Keys.handler) :
  Keys.dict (entries ++ [(key, h)]) !! key = Some h.
Proof. unfold Keys.dict. rewrite fold_left_app. simpl. by rewrite lookup_insert_eq. Qed.

(** X15: which keys [handle_key] handles.  A key is handled exactly
    when it is one of the three global keys or a key of the table of the
    current state; the states INIT, SETTINGS and ERROR have no table.  The
    global keys go to their global handlers in every state, whatever codes
    curses gives the arrows; and the key q leaves the program from the
    conversation list, leaves the chat from a chat, and is not handled in
    reply mode. *)
Theorem handle_key_handled (c : Keys.curses) (key : Z) (state : State.AppState) :
  (is_Some (Keys.handle_key c key state)
   ↔ key ∈ [Keys.CTRL_C; Keys.CTRL_R; Keys.CTRL_L]
     ∨ (state = State.DIALOGS
        ∧ key ∈ [Keys.KEY_UP c; Keys.KEY_DOWN c; Keys.KEY_RIGHT c; Keys.TAB; Keys.Q])
     ∨ (state = State.CHAT
        ∧ key ∈ [Keys.KEY_UP c; Keys.KEY_DOWN c; Keys.KEY_LEFT c; Keys.R; Keys.S; Keys.Q])
     ∨ (state = State.REPLY ∧ key ∈ [Keys.ESC; Keys.ENTER]))
  ∧ Keys.handle_key c Keys.CTRL_C state = Some Keys._handle_exit
  ∧ Keys.handle_key c Keys.CTRL_R state = Some Keys._handle_reconnect
  ∧ Keys.handle_key c Keys.CTRL_L state = Some Keys._handle_refresh
  ∧ Keys.handle_key c Keys.Q State.DIALOGS = Some Keys._handle_exit
  ∧ Keys.handle_key c Keys.Q State.CHAT = Some Keys._handle_back_to_dialogs
  ∧ Keys.handle_key c Keys.Q State.REPLY = None.
Proof.
  split; [|repeat split; try reflexivity].
  - unfold Keys.handle_key.
    pose proof (dict_is_Some
                  [(Keys.CTRL_C, Keys._handle_exit); (Keys.CTRL_R, Keys._handle_reconnect);
                   (Keys.CTRL_L, Keys._handle_refresh)] key) as Hg.
    fold Keys.global_handlers in Hg. simpl in Hg.
    destruct (Keys.global_handlers !! key) as [h|].
    + split; [intros _; left; by apply Hg|by eauto].
    + assert (key ∉ [Keys.CTRL_C; Keys.CTRL_R; Keys.CTRL_L]) as Hn.
      { intros Hin. apply Hg in Hin. by destruct Hin. }
      destruct state; simpl;
        try (rewrite dict_is_Some; simpl; split;
             [intros ?; right; tauto
             |intros [?|[[? ?]|[[? ?]|[? ?]]]]; done]);
        (split; [by intros [? ?]|intros [?|[[? ?]|[[? ?]|[? ?]]]]; done]).
  - unfold Keys.handle_key. 
    change (Keys.global_handlers !! Keys.Q) with (@None Keys.handler). simpl.
    apply (dict_last [(Keys.KEY_UP c, Keys._handle_dialog_up);
                      (Keys.KEY_DOWN c, Keys._handle_dialog_down);
                      (Keys.KEY_RIGHT c, Keys._handle_open_dialog);
                      (Keys.TAB, Keys._handle_toggle_dialog_mode)]).
  - unfold Keys.handle_key. 
    change (Keys.global_handlers !! Keys.Q) with (@None Keys.handler). simpl.
    apply (dict_last [(Keys.KEY_UP c, Keys._handle_message_up);
                      (Keys.KEY_DOWN c, Keys._handle_message_down);
                      (Keys.KEY_LEFT c, Keys._handle_back_to_dialogs);
                      (Keys.R, Keys._handle_reply_mode);
                      (Keys.S, Keys._handle_save_media)]).
Qed.

(** ** The session: the selection *)

Lemma len_nil_or_pos {A} (l : list A) : l = [] ∧ Py.len l = 0 ∨ l ≠ [] ∧ 0 < Py.len l.
Proof. destruct l; [by left|right]. split; [done|]. unfold Py.len. simpl. lia. Qed.

Lemma selection_ok_ext (c c' : Cli.TelegramCLI) :
  Cli.dialog_list c' = Cli.dialog_list c →
  Cli.selected_dialog_index c' = Cli.selected_dialog_index c →
  Cli.selected_messages c' = Cli.selected_messages c →
  Cli.selected_message_index c' = Cli.selected_message_index c →
  selection_ok c → selection_ok c'.
Proof. unfold selection_ok. by intros -> -> -> ->. Qed.

Lemma refresh_dialogs_selection (screen_raises : bool) (c : Cli.TelegramCLI) :
  selection_ok c → selection_ok (CliOps.refresh_dialogs screen_raises c).
Proof. apply selection_ok_ext; unfold CliOps.refresh_dialogs; by destruct screen_raises. Qed.

Lemma toggle_dialogs_mode_selection (screen_raises : bool) (c : Cli.TelegramCLI) :
  selection_ok c → selection_ok (CliOps.toggle_dialogs_mode screen_raises c).
Proof.
  apply selection_ok_ext; unfold CliOps.toggle_dialogs_mode, CliOps.refresh_dialogs;
    by destruct screen_raises.
Qed.

Lemma on_dialogs_loaded_selection (dialogs : list Cli.Dialog) (c : Cli.TelegramCLI) :
  selection_ok c → selection_ok (CliOps._on_dialogs_loaded dialogs c).
Proof.
  unfold selection_ok, CliOps._on_dialogs_loaded. intros (Hd & _ & Hm & Hml). simpl.
  destruct (Z.geb_spec (Cli.selected_dialog_index c) (Py.len dialogs)); simpl.
  - destruct (len_nil_or_pos dialogs) as [[-> _]|[_ ?]]; repeat split; auto; lia.
  - repeat split; auto.
Qed.

Lemma move_dialog_selection (m : CliOps.move) (c : Cli.TelegramCLI) :
  selection_ok c → selection_ok (CliOps.move_dialog m c).
Proof.
  unfold selection_ok. intros (Hd & Hdl & Hm & Hml).
  destruct m; simpl; unfold CliOps._handle_dialog_up, CliOps._handle_dialog_down;
    case_bool_decide as Hnil; simpl; try done;
    (destruct Hdl as [?|Hlt]; [done|]); repeat split; auto; lia.
Qed.

Lemma move_message_selection (m : CliOps.move) (c : Cli.TelegramCLI) :
  selection_ok c → selection_ok (CliOps.move_message m c).
Proof.
  unfold selection_ok. intros (Hd & Hdl & Hm & Hml).
  destruct m; simpl; unfold CliOps._handle_message_up, CliOps._handle_message_down;
    case_bool_decide as Hnil; simpl; try done;
    (destruct Hml as [?|Hlt]; [done|]); repeat split; auto; lia.
Qed.

Lemma reset_message_index_selection (c : Cli.TelegramCLI) :
  0 ≤ Cli.selected_dialog_index c →
  Cli.dialog_list c = [] ∨ Cli.selected_dialog_index c < Py.len (Cli.dialog_list c) →
  0 ≤ Cli.selected_message_index c →
  selection_ok (Cli.reset_message_index c).
Proof.
  intros Hd Hdl Hm. unfold selection_ok, Cli.reset_message_index.
  destruct (Z.geb_spec (Cli.selected_message_index c) (Py.len (Cli.selected_messages c)));
    simpl.
  - destruct (len_nil_or_pos (Cli.selected_messages c)) as [[-> _]|[_ ?]];
      repeat split; auto; lia.
  - repeat split; auto.
Qed.

Lemma refresh_messages_selection (now : Z) (screen_raises : bool) (c : Cli.TelegramCLI) :
  selection_ok c → selection_ok (Cli.refresh_messages now screen_raises c).
Proof.
  intros (Hd & Hdl & Hm & Hml). unfold Cli.refresh_messages.
  destruct (_ || _); [by repeat split; auto|].
  destruct (Py.getitem _ _) as [dialog|]; [|by repeat split; auto].
  cbn zeta.
  destruct (Cache.get_messages _ now (Cli.id dialog)) as [[|m ms]|].
  - destruct screen_raises; by repeat split; auto.
  - by apply reset_message_index_selection.
  - destruct screen_raises; by repeat split; auto.
Qed.

Lemma on_messages_loaded_selection (now dialog_id : Z) (messages : list Cli.Message)
    (c : Cli.TelegramCLI) :
  selection_ok c → selection_ok (Cli._on_messages_loaded now dialog_id messages c).
Proof.
  intros (Hd & Hdl & Hm & Hml). unfold Cli._on_messages_loaded. cbn zeta.
  eapply selection_ok_ext; [..|apply reset_message_index_selection]; simpl; try reflexivity;
    auto.
Qed.

Lemma send_reply_selection (text : Text.str) (c : Cli.TelegramCLI) :
  selection_ok c → selection_ok (Cli.send_reply text c).
Proof.
  apply selection_ok_ext; unfold Cli.send_reply; repeat case_match; reflexivity.
Qed.

Section SessionMore.
Context {V : Type}.
Implicit Types (s : Session.TelegramApp V).

Lemma set_app_state_state s (state : State.AppState) :
  State.get_state (Session.state_manager (Session.set_app_state s state)) = state.
Proof. apply set_state_current. Qed.

Lemma open_selected_dialog_selection (now : Z) (screen_raises : bool) s :
  selection_ok (Session.cli s) →
  selection_ok (Session.cli (Session.open_selected_dialog now screen_raises s)).
Proof.
  intros Hok. unfold Session.open_selected_dialog. destruct (_ || _); [done|].
  simpl. by apply refresh_messages_selection.
Qed.

Lemma back_to_dialogs_selection (screen_raises : bool) s :
  selection_ok (Session.cli s) →
  selection_ok (Session.cli (Session.back_to_dialogs screen_raises s)).
Proof.
  intros (Hd & Hdl & _ & _). unfold Session.back_to_dialogs. simpl.
  apply refresh_dialogs_selection. repeat split; simpl; auto; lia.
Qed.

Lemma enter_reply_mode_selection (reply_text : option Text.str) s :
  selection_ok (Session.cli s) →
  selection_ok (Session.cli (Session.enter_reply_mode reply_text s).1).
Proof.
  intros Hok. unfold Session.enter_reply_mode. destruct (_ || _); [done|].
  destruct reply_text as [text|]; [|done]. simpl.
  destruct (Text.truthy _); [|done]. simpl. by apply send_reply_selection.
Qed.

Lemma save_media_cli s :
  Cli.dialog_list (Session.cli (Session.save_media s).1) = Cli.dialog_list (Session.cli s)
  ∧ Cli.selected_dialog_index (Session.cli (Session.save_media s).1)
    = Cli.selected_dialog_index (Session.cli s)
  ∧ Cli.selected_messages (Session.cli (Session.save_media s).1)
    = Cli.selected_messages (Session.cli s)
  ∧ Cli.selected_message_index (Session.cli (Session.save_media s).1)
    = Cli.selected_message_index (Session.cli s)
  ∧ Cli.cache_manager (Session.cli (Session.save_media s).1)
    = Cli.cache_manager (Session.cli s).
Proof. unfold Session.save_media. repeat case_match; by repeat split. Qed.

Lemma dispatch_selection (h : Keys.handler) (e : Session.env) s :
  selection_ok (Session.cli s) → selection_ok (Session.cli (Session.dispatch h e s).1).
Proof.
  intros Hok. destruct h; simpl; try done.
  - destruct (Session.reconnect_raises e); [done|]. simpl.
    by apply refresh_dialogs_selection.
  - by apply (move_dialog_selection CliOps.Up).
  - by apply (move_dialog_selection CliOps.Down).
  - by apply open_selected_dialog_selection.
  - by apply toggle_dialogs_mode_selection.
  - by apply (move_message_selection CliOps.Up).
  - by apply (move_message_selection CliOps.Down).
  - by apply back_to_dialogs_selection.
  - unfold Session._handle_reply_mode. destruct (Session.reply_mode s); [done|].
    pose proof (enter_reply_mode_selection (Session.reply_text e)
                  (Session.set_app_state s State.REPLY) Hok) as Hr.
    destruct (Session.enter_reply_mode _ _) as [s' []]; exact Hr.
  - destruct (save_media_cli s) as (? & ? & ? & ? & _). by eapply selection_ok_ext.
Qed.

Lemma step_selection (c : Keys.curses) s (ev : Session.event) :
  selection_ok (Session.cli s) → selection_ok (Session.cli (Session.step c s ev)).
Proof.
  intros Hok. unfold Session.step. destruct (Session.running s); [|done].
  destruct ev as [key e| | | | | | |]; simpl; try done.
  - unfold Session.handle_key.
    destruct (Keys.handle_key c key _) as [h|]; [|done].
    pose proof (dispatch_selection h e s Hok) as Hd.
    destruct (Session.dispatch h e s) as [s' []]; exact Hd.
  - by apply on_dialogs_loaded_selection.
  - by apply on_messages_loaded_selection.
  - by apply refresh_messages_selection.
Qed.

Lemma start_selection cache_manager (sm : State.StateManager V) (screen_raises : bool) :
  selection_ok (Session.cli (Session.start screen_raises (Session.init cache_manager sm))).
Proof.
  unfold Session.start. simpl. apply refresh_dialogs_selection.
  unfold selection_ok. simpl. repeat split; auto; lia.
Qed.

Lemma run_selection (c : Keys.curses) (events : list Session.event) s :
  selection_ok (Session.cli s) → selection_ok (Session.cli (Session.run c events s)).
Proof.
  unfold Session.run. revert s.
  induction events as [|ev events IH]; intros s Hs; simpl; [exact Hs|].
  apply IH. by apply step_selection.
Qed.

Lemma getitem_in_range {A} (l : list A) (i : Z) :
  0 ≤ i → i < Py.len l → is_Some (Py.getitem l i).
Proof.
  intros H0 Hlt. rewrite <- (Z2Nat.id i H0), getitem_nat.
  apply lookup_lt_is_Some_2. unfold Py.len in Hlt. lia.
Qed.

(** X16: the selection stays inside the lists.  The session as it
    starts has each selected index not negative and below the length of its
    list when the list is not empty, and every event of the loop keeps it
    so; and then [refresh_screen] does not fail on
    [dialog_list[selected_dialog_index]] or on the selected message, on a
    screen of any size. *)
Theorem selection_stays_in_range (c : Keys.curses) (events : list Session.event) s
    (height width : Z) :
  (∀ cache_manager (sm : State.StateManager V) (screen_raises : bool),
     selection_ok
       (Session.cli (Session.start screen_raises (Session.init cache_manager sm))))
  ∧ (selection_ok (Session.cli s) →
     selection_ok (Session.cli (Session.run c events s))
     ∧ is_Some (Session.refresh_screen height width (Session.run c events s))).
Proof.
  split; [apply start_selection|]. intros Hok0.
  pose proof (run_selection c events s Hok0) as Hok.
  set (s' := Session.run c events s) in *. split; [exact Hok|].
  destruct Hok as (Hd & Hdl & Hm & Hml). unfold Session.refresh_screen.
  destruct (State.get_state _); try by eexists.
  case_bool_decide as Hnil.
  - simpl. by eexists.
  - destruct Hdl as [?|Hdl]; [done|].
    destruct (getitem_in_range _ _ Hd Hdl) as [dialog ->]. simpl.
    unfold ChatView.messages_screen.
    destruct (Cli.is_loading _ && _); [by eexists|].
    case_bool_decide as Hmnil; [by eexists|].
    destruct Hml as [?|Hml]; [done|].
    set (heights := ChatView.message_heights true width
                      (Cli.selected_messages (Session.cli s'))).
    assert (is_Some (heights !! Z.to_nat (Cli.selected_message_index (Session.cli s'))))
      as [h Hh].
    { apply lookup_lt_is_Some_2. unfold heights, ChatView.message_heights.
      rewrite length_map. apply Nat2Z.inj_lt. rewrite Z2Nat.id by exact Hm. exact Hml. }
    destruct (layout_selected heights height _ h
                (message_heights_nonneg true width _) Hh) as (start & drawn & Hl & _).
    rewrite Z2Nat.id in Hl by exact Hm. rewrite Hl. simpl. by eexists.
Qed.

(** ** The session: the states *)

Lemma enter_reply_mode_fields (reply_text : option Text.str) s :
  Session.reply_mode s = false →
  let r := Session.enter_reply_mode reply_text s in
  Session.running r.1 = Session.running s
  ∧ Session.state_manager r.1 = Session.state_manager s
  ∧ (r.2 = false → Session.reply_mode r.1 = false).
Proof.
  intros Hr. unfold Session.enter_reply_mode. destruct (_ || _); [done|].
  destruct reply_text as [text|]; [|done]. simpl. by destruct (Text.truthy _).
Qed.

Lemma save_media_fields s :
  Session.running (Session.save_media s).1 = Session.running s
  ∧ Session.state_manager (Session.save_media s).1 = Session.state_manager s
  ∧ Session.reply_mode (Session.save_media s).1 = Session.reply_mode s.
Proof. unfold Session.save_media. repeat case_match; by repeat split. Qed.

Lemma step_between_keys (c : Keys.curses) s (ev : Session.event) :
  (Session.running s = true →
   Session.reply_mode s = false
   ∧ (State.get_state (Session.state_manager s) = State.DIALOGS
      ∨ State.get_state (Session.state_manager s) = State.CHAT)) →
  Session.running (Session.step c s ev) = true →
  Session.reply_mode (Session.step c s ev) = false
  ∧ (State.get_state (Session.state_manager (Session.step c s ev)) = State.DIALOGS
     ∨ State.get_state (Session.state_manager (Session.step c s ev)) = State.CHAT).
Proof.
  intros Hinv. unfold Session.step.
  destruct (Session.running s) eqn:Hrun; [|by rewrite Hrun].
  destruct (Hinv eq_refl) as [Hreply Hstate]. clear Hinv.
  destruct ev as [key e| | | | | | |]; simpl; try done.
  unfold Session.handle_key.
  destruct (Keys.handle_key c key _) as [h|]; [|simpl; by rewrite Hrun].
  destruct h; simpl; rewrite ?Hrun; try done.
  - destruct (Session.reconnect_raises e); done.
  - destruct (Session.screen_raises e); done.
  - unfold Session.open_selected_dialog. destruct (_ || _); [done|].
    intros _. split; [done|]. right. apply set_app_state_state.
  - intros _. split; [done|]. left. apply set_app_state_state.
  - unfold Session._handle_reply_mode. rewrite Hreply.
    pose proof (enter_reply_mode_fields (Session.reply_text e)
                  (Session.set_app_state s State.REPLY) Hreply) as (Hr1 & _ & Hr3).
    destruct (Session.enter_reply_mode _ _) as [s' []]; simpl in *; [done|].
    intros _. split; [by apply Hr3|]. right. apply set_app_state_state.
  - destruct (save_media_fields s) as (Hr1 & Hr2 & Hr3).
    destruct (Session.save_media s) as [s' []]; simpl in *; [done|].
    intros _. by rewrite Hr2, Hr3.
  - intros _. split; [done|]. right. apply set_app_state_state.
Qed.

(** X17: between two events of the loop the session is never in the
    state REPLY and never in reply mode.  The session starts in the state
    DIALOGS with [reply_mode] False, and every event keeps this while the
    loop runs: the state is DIALOGS or CHAT and [reply_mode] is False,
    because [_handle_reply_mode] enters the state REPLY and leaves it within
    one call.  So [handle_key] never calls [_handle_cancel_reply] or
    [_handle_send_reply], the handlers of the table of REPLY. *)
Theorem reply_state_not_reached (c : Keys.curses) (events : list Session.event) s
    (key : Z) :
  (∀ cache_manager (sm : State.StateManager V) (screen_raises : bool),
     let s0 := Session.start screen_raises (Session.init cache_manager sm) in
     Session.reply_mode s0 = false
     ∧ State.get_state (Session.state_manager s0) = State.DIALOGS)
  ∧ (Session.reply_mode s = false →
     State.get_state (Session.state_manager s) = State.DIALOGS
     ∨ State.get_state (Session.state_manager s) = State.CHAT →
     let s' := Session.run c events s in
     Session.running s' = true →
     Session.reply_mode s' = false
     ∧ (State.get_state (Session.state_manager s') = State.DIALOGS
        ∨ State.get_state (Session.state_manager s') = State.CHAT)
     ∧ Keys.handle_key c key (State.get_state (Session.state_manager s'))
       ≠ Some Keys._handle_cancel_reply
     ∧ Keys.handle_key c key (State.get_state (Session.state_manager s'))
       ≠ Some Keys._handle_send_reply).
Proof.
  split.
  { intros cache_manager sm screen_raises s0. split; [reflexivity|].
    unfold s0, Session.start. simpl. apply set_state_current. }
  intros Hreply0 Hstate0 s' Hrun.
  assert (Session.reply_mode s' = false
          ∧ (State.get_state (Session.state_manager s') = State.DIALOGS
             ∨ State.get_state (Session.state_manager s') = State.CHAT)) as [Hreply Hstate].
  { revert Hrun. unfold s', Session.run.
    assert (Session.running s = true →
            Session.reply_mode s = false
            ∧ (State.get_state (Session.state_manager s) = State.DIALOGS
               ∨ State.get_state (Session.state_manager s) = State.CHAT)) as Hs
      by (intros _; by split).
    clear Hreply0 Hstate0 s'. revert s Hs.
    induction events as [|ev events IH]; intros s0 Hs0; simpl; [exact Hs0|].
    apply IH. by apply step_between_keys. }
  split; [exact Hreply|]. split; [exact Hstate|].
  assert (∀ h, Keys.handle_key c key (State.get_state (Session.state_manager s')) = Some h →
               h ≠ Keys._handle_cancel_reply ∧ h ≠ Keys._handle_send_reply) as Hh.
  { intros h. unfold Keys.handle_key.
    destruct (Keys.global_handlers !! key) as [g|] eqn:Hg.
    - intros [= <-]. apply dict_handler in Hg. simpl in Hg.
      split; intros ->; not_listed Hg.
    - destruct Hstate as [-> | ->]; simpl; intros Hd%dict_handler; simpl in Hd;
        split; intros ->; not_listed Hd. }
  split; intros Heq; destruct (Hh _ Heq); done.
Qed.

(** ** The session: the cache *)

Lemma init_dialogs_no_payload (disk : Cache.files) (max_age : Z) :
  Cache.d_data
    (Cache.dialogs_cache
       (Cache.init (Dialogs := list Cli.Dialog) (Messages := list Cli.Message) disk max_age))
  = None.
Proof.
  unfold Cache.init, Cache.load_cache.
  by destruct (Cache.dialogs_cache_json disk), (Cache.messages_cache_json disk).
Qed.

Lemma cli_step_keeps_cache (c c' : Cli.TelegramCLI) :
  Cli.cache_manager c' = Cli.cache_manager c →
  Cache.dialogs_cache (Cli.cache_manager c') = Cache.dialogs_cache (Cli.cache_manager c)
  ∧ ∀ dialog_id : Z,
      is_Some (Cache.messages_cache (Cli.cache_manager c) !! dialog_id) →
      is_Some (Cache.messages_cache (Cli.cache_manager c') !! dialog_id).
Proof. by intros ->. Qed.

Lemma refresh_messages_cache (now : Z) (screen_raises : bool) (c : Cli.TelegramCLI) :
  Cli.cache_manager (Cli.refresh_messages now screen_raises c) = Cli.cache_manager c.
Proof.
  unfold Cli.refresh_messages, Cli.reset_message_index. repeat case_match; reflexivity.
Qed.

Lemma dispatch_cache (h : Keys.handler) (e : Session.env) s :
  Cli.cache_manager (Session.cli (Session.dispatch h e s).1)
  = Cli.cache_manager (Session.cli s).
Proof.
  destruct h; simpl; try reflexivity.
  - destruct (Session.reconnect_raises e); [done|]. simpl.
    unfold CliOps.refresh_dialogs. by destruct (Session.screen_raises e).
  - unfold CliOps._handle_dialog_up. by case_match.
  - unfold CliOps._handle_dialog_down. by case_match.
  - unfold Session.open_selected_dialog. destruct (_ || _); [done|]. simpl.
    apply refresh_messages_cache.
  - unfold CliOps.toggle_dialogs_mode, CliOps.refresh_dialogs.
    by destruct (Session.screen_raises e).
  - unfold CliOps._handle_message_up. by case_match.
  - unfold CliOps._handle_message_down. by case_match.
  - unfold Session.back_to_dialogs, CliOps.refresh_dialogs. simpl.
    by destruct (Session.screen_raises e).
  - unfold Session._handle_reply_mode. destruct (Session.reply_mode s); [done|].
    unfold Session.enter_reply_mode. destruct (_ || _); [done|].
    destruct (Session.reply_text e) as [text|]; [|done]. simpl.
    destruct (Text.truthy _); [|done]. simpl.
    unfold Cli.send_reply. repeat case_match; reflexivity.
  - by destruct (save_media_cli s) as (_ & _ & _ & _ & ?).
Qed.

Lemma step_cache (c : Keys.curses) s (ev : Session.event) :
  Cache.dialogs_cache (Cli.cache_manager (Session.cli (Session.step c s ev)))
  = Cache.dialogs_cache (Cli.cache_manager (Session.cli s))
  ∧ ∀ dialog_id : Z,
      is_Some (Cache.messages_cache (Cli.cache_manager (Session.cli s)) !! dialog_id) →
      is_Some (Cache.messages_cache
                 (Cli.cache_manager (Session.cli (Session.step c s ev))) !! dialog_id).
Proof.
  unfold Session.step. destruct (Session.running s); [|done].
  destruct ev as [key e| |now dialog_id' messages| | | | |]; simpl;
    try (apply cli_step_keeps_cache; reflexivity).
  - apply cli_step_keeps_cache. unfold Session.handle_key.
    destruct (Keys.handle_key c key _) as [h|]; [|done].
    pose proof (dispatch_cache h e s) as Hd.
    destruct (Session.dispatch h e s) as [s' []]; exact Hd.
  - apply cli_step_keeps_cache. unfold CliOps._on_dialogs_loaded. simpl. by case_match.
  - unfold Cli._on_messages_loaded, Cli.reset_message_index. cbn zeta.
    split; [by case_match|]. intros dialog_id Hin.
    assert (is_Some (<[dialog_id' := {| Cache.m_data := Some messages;
                                        Cache.m_timestamp := now |}]>
                       (Cache.messages_cache (Cli.cache_manager (Session.cli s)))
                     !! dialog_id)) as Hres.
    { rewrite lookup_insert_is_Some. destruct (decide (dialog_id' = dialog_id)); auto. }
    by case_match.
  - apply cli_step_keeps_cache. apply refresh_messages_cache.
Qed.

(** X18: how the session uses its cache.  It never stores a
    conversation list: no event changes the slot of the conversation list,
    so in a session started on the cache manager that [CacheManager()] gives
    a read of the cached conversation list misses after any events, at any
    time and under either flag.  And it never evicts: a conversation that
    has an entry in the message cache keeps one through all later events. *)
Theorem session_cache_only_grows (c : Keys.curses) (events later : list Session.event) s
    (now : Z) (only_unread : bool) (dialog_id : Z) :
  let cache_of events := Cli.cache_manager (Session.cli (Session.run c events s)) in
  Cache.dialogs_cache (cache_of events) = Cache.dialogs_cache (Cli.cache_manager (Session.cli s))
  ∧ (∀ (disk : Cache.files) (max_age : Z) (sm : State.StateManager V)
       (screen_raises : bool),
       s = Session.start screen_raises (Session.init (Cache.init disk max_age) sm) →
       Cache.get_dialogs (cache_of events) now only_unread = None)
  ∧ (is_Some (Cache.messages_cache (cache_of events) !! dialog_id) →
     is_Some (Cache.messages_cache (cache_of (events ++ later)) !! dialog_id)).
Proof.
  intros cache_of.
  assert (Cache.dialogs_cache (cache_of events)
          = Cache.dialogs_cache (Cli.cache_manager (Session.cli s))) as Hslot.
  { unfold cache_of, Session.run. clear cache_of. revert s.
    induction events as [|ev events IH]; intros s; simpl; [reflexivity|].
    by rewrite IH, (proj1 (step_cache c s ev)). }
  split; [exact Hslot|]. split.
  - intros disk max_age sm screen_raises Hs.
    unfold Cache.get_dialogs. rewrite Hslot, Hs.
    assert (Cache.d_data
              (Cache.dialogs_cache
                 (Cli.cache_manager
                    (Session.cli
                       (Session.start screen_raises
                          (Session.init (Cache.init disk max_age) sm))))) = None) as ->;
      [|reflexivity].
    unfold Session.start, CliOps.refresh_dialogs. simpl.
    destruct screen_raises; apply init_dialogs_no_payload.
  - unfold cache_of, Session.run. rewrite fold_left_app.
    generalize (fold_left (Session.step c) events s).
    induction later as [|ev later IH]; intros s0 Hs; simpl; [exact Hs|].
    apply IH. by apply step_cache.
Qed.

End SessionMore.

(** ** The views when every text is there *)

Lemma draw_rows_scroll (dialogs : list DialogRow.Dialog) (width start : Z) (rows : list Z) :
  Forall (has_text width) dialogs →
  0 ≤ start →
  Forall (λ i, 0 ≤ i) rows →
  DialogsView.draw_rows dialogs width start rows
  = Some (DialogsView.scroll_rows (Py.len dialogs) start rows).
Proof.
  intros Htexts Hstart Hrows. induction Hrows as [|i rows Hi _ IH]; simpl; [reflexivity|].
  destruct (Z.geb_spec (start + i) (Py.len dialogs)) as [|Hlt]; [reflexivity|].
  destruct (getitem_in_range dialogs (start + i)) as [dialog Hd]; [lia|lia|].
  rewrite Hd. simpl.
  assert (has_text width dialog) as [name Hname].
  { rewrite Forall_forall in Htexts. apply Htexts.
    rewrite <- (Z2Nat.id (start + i)), getitem_nat in Hd by lia.
    by apply list_elem_of_lookup_2 in Hd. }
  rewrite Hname, IH. reflexivity.
Qed.

Lemma render_dialogs_scroll (height width : Z) (dialogs : list DialogRow.Dialog)
    (selected_index : Z) (is_loading : bool) :
  Forall (has_text width) dialogs →
  DialogsView.render_dialogs height width dialogs selected_index is_loading
  = Some (DialogsView.scroll height dialogs selected_index is_loading).
Proof.
  intros Htexts. unfold DialogsView.render_dialogs, DialogsView.scroll.
  destruct (is_loading && _); [reflexivity|]. case_bool_decide; [reflexivity|].
  rewrite (draw_rows_scroll _ _ _ _ Htexts); [reflexivity|..].
  - unfold DialogsView.start_index. lia.
  - rewrite range_seq. apply Forall_map, Forall_forall. intros k _. simpl. lia.
Qed.

Lemma render_chat_scroll (height width : Z) (dialog : DialogRow.Dialog)
    (messages : list ChatView.Message) (selected_index : Z)
    (is_loading media_handler : bool) :
  has_text width dialog →
  ChatView.render_chat height width (Some dialog) messages selected_index is_loading
    media_handler
  = ChatView.scroll height width (Some dialog) messages selected_index is_loading
      media_handler.
Proof. intros [header Hheader]. unfold ChatView.render_chat. by rewrite Hheader. Qed.

Lemma selection_stays_in_range_witness :
  is_Some
    (Session.refresh_screen 24 80
       (Session.run (V := nat) sample_curses
          [Session.DialogsLoaded [sample_dialog]; Session.KeyPressed 261 sample_env;
           Session.MessagesLoaded 100 7 [sample_message]; Session.KeyPressed 258 sample_env]
          (Session.start false (Session.init (Cache.init empty_disk 5) State.new)))).
Proof.
  refine (proj2 (proj2 (selection_stays_in_range (V := nat) sample_curses
                          [Session.DialogsLoaded [sample_dialog];
                           Session.KeyPressed 261 sample_env;
                           Session.MessagesLoaded 100 7 [sample_message];
                           Session.KeyPressed 258 sample_env]
                          (Session.start false
                             (Session.init (Cache.init empty_disk 5) State.new))
                          24 80) _)).
  split; [vm_compute; discriminate|]. split; [left; reflexivity|].
  split; [vm_compute; discriminate|]. left; reflexivity.
Defined.

Lemma reply_state_not_reached_witness :
  Session.reply_mode
    (Session.run (V := nat) sample_curses
       [Session.DialogsLoaded [sample_dialog]; Session.KeyPressed 261 sample_env;
        Session.MessagesLoaded 100 7 [sample_message]; Session.KeyPressed 114 sample_env]
       (Session.start false (Session.init (Cache.init empty_disk 5) State.new)))
  = false.
Proof.
  refine (proj1 (proj2 (reply_state_not_reached (V := nat) sample_curses
                          [Session.DialogsLoaded [sample_dialog];
                           Session.KeyPressed 261 sample_env;
                           Session.MessagesLoaded 100 7 [sample_message];
                           Session.KeyPressed 114 sample_env]
                          (Session.start false
                             (Session.init (Cache.init empty_disk 5) State.new)) 27)
                   _ _ _)).
  - reflexivity.
  - left. reflexivity.
  - vm_compute. reflexivity.
Defined.

Lemma session_cache_only_grows_witness :
  is_Some
    (Cache.messages_cache
       (Cli.cache_manager
          (Session.cli
             (Session.run (V := nat) sample_curses
                ([Session.MessagesLoaded 100 7 [sample_message]]
                 ++ [Session.KeyPressed 261 sample_env])
                (Session.start false (Session.init (Cache.init empty_disk 5) State.new)))))
     !! 7).
Proof.
  refine (proj2 (proj2 (session_cache_only_grows (V := nat) sample_curses
                          [Session.MessagesLoaded 100 7 [sample_message]]
                          [Session.KeyPressed 261 sample_env]
                          (Session.start false
                             (Session.init (Cache.init empty_disk 5) State.new))
                          0 false 7)) _).
  vm_compute. eexists. reflexivity.
Defined.

(** ** The rows of the views *)

Lemma shorten_len (name : Text.str) (width : Z) :
  7 ≤ width → Py.len (DialogRow.shorten name width) ≤ width - 4.
Proof.
  intros Hw. unfold DialogRow.shorten.
  destruct (Z.gtb_spec (Py.len name) (width - 4)) as [Hlong|Hfit]; [|exact Hfit].
  unfold Py.slice_to. destruct (Z.leb_spec 0 (width - 7)); [|lia].
  unfold Py.len in *. rewrite length_app, length_take. simpl. lia.
Qed.

(** X19: the text of a row of the conversation list, and of the header
    of the chat.  Building it raises exactly when the entity has no true
    title, has the attribute [first_name] with the value None, has no true
    last name, and no message is unread: the name is None then and
    [len(name)] raises.  On a screen at least 7 columns wide the text is at
    most [width - 4] characters long; and a name that fits is shown as it
    is when no message is unread. *)
Theorem row_text_fits (entity : DialogRow.Entity) (unread_count width : Z) :
  (DialogRow.row_text (DialogRow.get_dialog_display_name entity) unread_count width = None
   ↔ unread_count ≤ 0
     ∧ DialogRow.present (DialogRow.title entity) = None
     ∧ DialogRow.first_name entity = Some None
     ∧ DialogRow.present (DialogRow.last_name entity) = None)
  ∧ (∀ text,
       7 ≤ width →
       DialogRow.row_text (DialogRow.get_dialog_display_name entity) unread_count width
       = Some text →
       Py.len text ≤ width - 4)
  ∧ (∀ name,
       unread_count ≤ 0 →
       DialogRow.get_dialog_display_name entity = Some name →
       Py.len name ≤ width - 4 →
       DialogRow.row_text (DialogRow.get_dialog_display_name entity) unread_count width
       = Some name).
Proof.
  split; [|split].
  - unfold DialogRow.row_text, DialogRow.get_dialog_display_name.
    destruct (Z.gtb_spec unread_count 0) as [Hpos|Hle].
    + split; [discriminate|]. intros [? _]. lia.
    + destruct (DialogRow.present (DialogRow.title entity)) as [t|].
      { split; [discriminate|]. by intros (_ & ? & _). }
      destruct (DialogRow.first_name entity) as [[first|]|].
      * destruct (DialogRow.present (DialogRow.last_name entity));
          (split; [discriminate|]); by intros (_ & _ & ? & _).
      * destruct (DialogRow.present (DialogRow.last_name entity)).
        -- split; [discriminate|]. by intros (_ & _ & _ & ?).
        -- by split.
      * split; [discriminate|]. by intros (_ & _ & ? & _).
  - intros text Hw. unfold DialogRow.row_text.
    destruct (if unread_count >? 0 then _ else _) as [name|]; [|discriminate].
    intros [= <-]. by apply shorten_len.
  - intros name Hle Hname Hfit. unfold DialogRow.row_text. rewrite Hname.
    destruct (Z.gtb_spec unread_count 0); [lia|].
    unfold DialogRow.shorten. by destruct (Z.gtb_spec (Py.len name) (width - 4)); [lia|].
Qed.

(** ** The preview of a message *)




(** ** Texts that fit *)

Lemma wrap_lines_fit (width : Z) (lines acc : list Text.str) :
  Forall (λ line, Py.len line ≤ width) lines →
  fold_left (ChatView.wrap_line width) lines acc = acc ++ lines.
Proof.
  intros Hfit. revert acc. induction Hfit as [|line lines Hline _ IH]; intros acc; simpl.
  - by rewrite app_nil_r.
  - unfold ChatView.wrap_line at 2.
    destruct (Z.leb_spec (Py.len line) width); [|lia].
    by rewrite IH, <- app_assoc.
Qed.

(** X21: a text whose lines all fit the width is not changed by the
    wrapping: [format_message_text] gives its lines as they are, and
    joining them with newlines gives the text back. *)
Theorem wrap_text_fitting (text : Text.str) (width : Z) :
  Forall (λ line, Py.len line ≤ width) (Text.split Text.newline text) →
  ChatView.wrap_text text width = Text.split Text.newline text
  ∧ Text.join [Text.newline] (ChatView.wrap_text text width) = text.
Proof.
  intros Hfit. unfold ChatView.wrap_text. rewrite (wrap_lines_fit _ _ _ Hfit). simpl.
  split; [reflexivity|]. apply join_split.
Qed.

(** ** The configuration *)

Section ConfigMore.
Context {V : Type} (truthy : V → bool).

(** X22: [update_config] writes a key that exists and no other.  The
    keys of the configuration never change; for a key that exists
    [get_value] then gives the new value, and for a key that does not exist
    the configuration stays as it was; the other keys read as before; and
    [validate] does not depend on the keys other than the API id and the API
    hash. *)
Theorem update_config_existing (config : gmap string V) (key key' : string) (value : V)
    (default : option V) :
  dom (Config.update_config config key value) = dom config
  ∧ (key ∈ dom config →
     Config.get_value (Config.update_config config key value) key default = Some value)
  ∧ (key ∉ dom config → Config.update_config config key value = config)
  ∧ (key' ≠ key →
     Config.get_value (Config.update_config config key value) key' default
     = Config.get_value config key' default)
  ∧ (key ≠ "api_id" → key ≠ "api_hash" →
     Config.validate truthy (Config.update_config config key value)
     = Config.validate truthy config).
Proof.
  unfold Config.update_config, Config.get_value, Config.validate.
  case_bool_decide as Hin.
  - repeat split.
    + rewrite dom_insert_L. apply subseteq_union_1_L, singleton_subseteq_l.
      by apply elem_of_dom.
    + intros _. by rewrite lookup_insert_eq.
    + intros Hn. by apply elem_of_dom in Hin.
    + intros Hne. by rewrite lookup_insert_ne.
    + intros H1 H2. by rewrite !lookup_insert_ne.
  - repeat split; try done. intros Hd. by apply elem_of_dom in Hd.
Qed.

End ConfigMore.

(** ** The scroll bar *)

Lemma map_seq_const {A} (f : nat → A) (v : A) (start n : nat) :
  (∀ k, (start ≤ k < start + n)%nat → f k = v) →
  map f (seq start n) = replicate n v.
Proof.
  revert start. induction n as [|n IH]; intros start Hf; simpl; [reflexivity|].
  rewrite Hf by lia. f_equal. apply IH. intros k Hk. apply Hf. lia.
Qed.

Lemma rows_segments (a b c : nat) :
  map (Scrollbar.filled (Z.of_nat b, Z.of_nat a))
      (map (λ k, 0 + Z.of_nat k) (seq 0 (a + b + c)))
  = replicate a false ++ replicate b true ++ replicate c false.
Proof.
  rewrite map_map, !seq_app, !map_app, app_assoc. simpl.
  rewrite (map_seq_const _ false 0 a), (map_seq_const _ true a b),
    (map_seq_const _ false (a + b) c); [by rewrite <- app_assoc|..];
    intros k Hk; unfold Scrollbar.filled;
    destruct (Z.leb_spec (Z.of_nat a) (0 + Z.of_nat k)),
      (Z.ltb_spec (0 + Z.of_nat k) (Z.of_nat a + Z.of_nat b));
    simpl; try reflexivity; lia.
Qed.

Lemma thumb_in_track (track shown total offset : Z) :
  1 ≤ track → 0 ≤ shown ≤ total → 0 < total → 0 ≤ offset →
  in_track track (Scrollbar.thumb track shown total offset).
Proof.
  intros Ht Hs Htot Ho. unfold Scrollbar.thumb, Scrollbar.int_div.
  rewrite !Z.quot_div_nonneg by nia.
  assert (0 ≤ track * shown / total ≤ track) as Hq.
  { split; [apply Z.div_pos; nia|]. apply Z.div_le_upper_bound; nia. }
  assert (0 ≤ offset * track / total) as Hp by (apply Z.div_pos; nia).
  set (sh := Z.max 1 (track * shown / total)).
  set (pos := Z.min (track - sh) (offset * track / total)).
  assert (1 ≤ sh ≤ track) by (unfold sh; lia).
  assert (0 ≤ pos ∧ pos + sh ≤ track) by (unfold pos; lia).
  unfold in_track. simpl. repeat split; try lia.
  unfold Scrollbar.rows. rewrite range_seq.
  replace (Z.to_nat (track - 0))
    with (Z.to_nat pos + Z.to_nat sh + Z.to_nat (track - pos - sh))%nat by lia.
  rewrite <- (Z2Nat.id sh) at 1 by lia. rewrite <- (Z2Nat.id pos) at 1 by lia.
  apply rows_segments.
Qed.

(** ** The messages that are drawn *)

Lemma draw_messages_fit (heights : list Z) (height : Z) (start n : nat) :
  ∀ (a : nat) (y d r : Z),
    (start + a + n ≤ length heights)%nat →
    ChatView.draw_messages heights height
      (map (λ k, Z.of_nat start + Z.of_nat k) (seq a n)) y d = Some r →
    d ≤ r ≤ d + Z.of_nat n
    ∧ (r = d
       ∨ y + ViewportSpec.sum (take (Z.to_nat (r - d)) (drop (start + a) heights))
         ≤ height - 2)
    ∧ (r < d + Z.of_nat n →
       height - 2
       < y + ViewportSpec.sum (take (Z.to_nat (r - d) + 1) (drop (start + a) heights))).
Proof.
  induction n as [|n IH]; intros a y d r Hlen; simpl.
  - intros [= <-]. split; [lia|]. split; [by left|lia].
  - destruct (lookup_lt_is_Some_2 heights (start + a)) as [h Hh]; [lia|].
    replace (Z.of_nat start + Z.of_nat a) with (Z.of_nat (start + a)) by lia.
    rewrite getitem_nat, Hh. simpl.
    rewrite (drop_S _ _ _ Hh).
    destruct (Z.gtb_spec (y + h) (height - 2)) as [Hbig|Hfit].
    + intros [= <-]. split; [lia|]. split; [by left|]. intros _.
      rewrite Z.sub_diag. simpl. lia.
    + intros Hr. apply IH in Hr as (Hb & Hf & Hn); [|lia].
      replace (start + S a)%nat with (S (start + a)) in Hf, Hn by lia.
      split; [lia|].
      replace (Z.to_nat (r - d)) with (S (Z.to_nat (r - (d + 1)))) by lia.
      simpl. split.
      * right. destruct Hf as [->|Hf]; [|lia].
        rewrite Z.sub_diag. simpl. lia.
      * intros Hlt. specialize (Hn ltac:(lia)).
        rewrite Nat.add_1_r in Hn. simpl in Hn. rewrite Nat.add_1_r. simpl. lia.
Qed.

Lemma layout_bounds (heights : list Z) (height : Z) (S : nat) (start drawn : Z) :
  (S < length heights)%nat →
  ChatView.layout heights height (Z.of_nat S) = Some (start, drawn) →
  0 ≤ start ≤ Z.of_nat S ∧ 0 ≤ drawn ∧ start + drawn ≤ Py.len heights.
Proof.
  intros HS. unfold ChatView.layout. rewrite (start_index_spec _ _ _ HS). simpl.
  pose proof (spec_start_le heights (height - 4) S) as Hle.
  rewrite range_seq. unfold Py.len.
  destruct (ChatView.draw_messages _ _ _ _ _) as [r|] eqn:Hr; [|discriminate].
  simpl. intros [= <- <-].
  apply (draw_messages_fit heights height _ _ 0%nat 2 0 r) in Hr as (Hb & Hf & Hn);
    [|lia].
  lia.
Qed.

(** X23: the scroll bars of the two views.  When the list does not fit
    and the screen leaves a track of at least one row, the thumb lies in the
    track: it is at least one row high, it starts at a row of the track and
    ends in it, and the rows of the track are drawn empty, then full for the
    thumb, then empty.  This holds for the conversation list at every
    selected index, and for the chat at every selected index inside the
    list. *)
Theorem scrollbar_in_track (height : Z) (bar : Z * Z) :
  (∀ n_dialogs selected_index : Z,
     4 ≤ height →
     Scrollbar.dialogs_scrollbar (height - 3) n_dialogs
       (DialogsView.start_index (height - 3) n_dialogs selected_index) = Some bar →
     in_track (height - 3) bar)
  ∧ (∀ (heights : list Z) (S : nat) (start drawn : Z),
       5 ≤ height →
       (S < length heights)%nat →
       ChatView.layout heights height (Z.of_nat S) = Some (start, drawn) →
       Scrollbar.chat_scrollbar (height - 4) (Py.len heights) start drawn = Some bar →
       in_track (height - 4) bar).
Proof.
  split.
  - intros n_dialogs selected_index Hh. unfold Scrollbar.dialogs_scrollbar.
    destruct (Z.gtb_spec n_dialogs (height - 3)); [|discriminate].
    intros [= <-]. apply thumb_in_track; try lia.
    unfold DialogsView.start_index. lia.
  - intros heights S start drawn Hh HS Hl. unfold Scrollbar.chat_scrollbar.
    destruct (Z.gtb_spec (Py.len heights) drawn); [|discriminate].
    intros [= <-].
    destruct (layout_bounds _ _ _ _ _ HS Hl) as (Hst & Hd & Hsd).
    apply thumb_in_track; lia.
Qed.

(** X24: which messages [render_chat] draws.  For a selected index
    inside the list, the drawn messages are those from the start index on,
    as many as the list has; what is drawn fits the content area of
    [height - 4] rows; and when messages are left below, the next one would
    not fit any more. *)
Theorem drawn_messages_fit (heights : list Z) (height : Z) (S : nat) (start drawn : Z) :
  (S < length heights)%nat →
  ChatView.layout heights height (Z.of_nat S) = Some (start, drawn) →
  0 ≤ start ≤ Z.of_nat S
  ∧ 0 ≤ drawn
  ∧ start + drawn ≤ Py.len heights
  ∧ (drawn = 0
     ∨ Py.sum (take (Z.to_nat drawn) (drop (Z.to_nat start) heights)) ≤ height - 4)
  ∧ (start + drawn < Py.len heights →
     height - 4 < Py.sum (take (Z.to_nat drawn + 1) (drop (Z.to_nat start) heights))).
Proof.
  intros HS. unfold ChatView.layout. rewrite (start_index_spec _ _ _ HS). simpl.
  set (st := ViewportSpec.start heights (height - 4) S).
  pose proof (spec_start_le heights (height - 4) S) as Hle. fold st in Hle.
  rewrite range_seq. unfold Py.len.
  destruct (ChatView.draw_messages _ _ _ _ _) as [r|] eqn:Hr; [|discriminate].
  simpl. intros [= <- <-].
  apply (draw_messages_fit heights height st _ 0%nat 2 0 r) in Hr as (Hb & Hf & Hn);
    [|lia].
  rewrite Nat.add_0_r, Z.sub_0_r in Hf, Hn. rewrite !py_sum_spec, Nat2Z.id.
  split; [lia|]. split; [lia|]. split; [lia|]. split.
  - destruct Hf as [?|?]; [by left|right; lia].
  - intros Hlt. specialize (Hn ltac:(lia)). lia.
Qed.

(** ** The conversation list and its mode *)

(** X25: loading the conversation list.  [refresh_dialogs] always
    asks the client, for the conversations with unread messages exactly when
    the mode is not "all", and does not touch the cache.  When the answer of
    the client arrives the loading flag is cleared; in the mode "all" the
    list is what the remote side lists, otherwise it holds exactly the
    listed conversations with an unread message.  Two calls of
    [toggle_dialogs_mode] give the mode back, and leave two requests, one
    for each mode. *)
Theorem dialogs_loaded_for_mode (remote : list Cli.Dialog) (screen_raises screen_raises' : bool)
    (c : Cli.TelegramCLI) :
  let only_unread := negb (Cli.is_all_dialogs_mode c) in
  let c1 := CliOps.refresh_dialogs screen_raises c in
  let c2 := CliOps._on_dialogs_loaded (CliOps.get_dialogs remote only_unread) c1 in
  let c3 := CliOps.toggle_dialogs_mode screen_raises'
              (CliOps.toggle_dialogs_mode screen_raises c) in
  Cli.scheduled c1 = Cli.scheduled c ++ [Cli.GetDialogs only_unread]
  ∧ Cli.cache_manager c1 = Cli.cache_manager c
  ∧ Cli.is_loading c2 = false
  ∧ (Cli.is_all_dialogs_mode c = true → Cli.dialog_list c2 = remote)
  ∧ (Cli.is_all_dialogs_mode c = false →
     ∀ dialog, dialog ∈ Cli.dialog_list c2
               ↔ dialog ∈ remote ∧ 0 < Cli.unread_count dialog)
  ∧ Cli.is_all_dialogs_mode c3 = Cli.is_all_dialogs_mode c
  ∧ Cli.scheduled c3
    = Cli.scheduled c ++ [Cli.GetDialogs (Cli.is_all_dialogs_mode c);
                          Cli.GetDialogs (negb (Cli.is_all_dialogs_mode c))].
Proof.
  intros only_unread c1 c2 c3.
  assert (Cli.dialog_list c2 = CliOps.get_dialogs remote only_unread) as Hlist.
  { unfold c2, CliOps._on_dialogs_loaded. simpl. by destruct (_ >=? _). }
  split; [|split; [|split; [|split; [|split; [|split]]]]].
  - unfold c1, CliOps.refresh_dialogs. by destruct screen_raises.
  - unfold c1, CliOps.refresh_dialogs. by destruct screen_raises.
  - reflexivity.
  - intros Hmode. rewrite Hlist. unfold only_unread. by rewrite Hmode.
  - intros Hmode dialog. rewrite Hlist. unfold only_unread. rewrite Hmode. simpl.
    rewrite !list_elem_of_In, filter_In, Z.gtb_lt. reflexivity.
  - unfold c3, CliOps.toggle_dialogs_mode, CliOps.refresh_dialogs.
    destruct screen_raises, screen_raises'; simpl; apply negb_involutive.
  - unfold c3, CliOps.toggle_dialogs_mode, CliOps.refresh_dialogs.
    destruct screen_raises, screen_raises'; simpl;
      by rewrite <- app_assoc, !negb_involutive.
Qed.

Lemma dialogs_loaded_for_mode_witness :
  sample_dialog ∈ Cli.dialog_list
                    (CliOps._on_dialogs_loaded
                       (CliOps.get_dialogs [sample_dialog]
                          (negb (Cli.is_all_dialogs_mode (sample_cli 100 []))))
                       (CliOps.refresh_dialogs false (sample_cli 100 [])))
  ↔ sample_dialog ∈ [sample_dialog] ∧ 0 < Cli.unread_count sample_dialog.
Proof.
  refine (proj1 (proj2 (proj2 (proj2 (proj2
            (dialogs_loaded_for_mode [sample_dialog] false false (sample_cli 100 []))))))
            _ sample_dialog).
  reflexivity.
Defined.

Lemma row_text_fits_witness :
  Py.len [104; 105]%N ≤ 80 - 4.
Proof.
  refine (proj1 (proj2
            (row_text_fits
               {| DialogRow.title := Some (Some [104; 105]%N);
                  DialogRow.first_name := None; DialogRow.last_name := None |} 0 80))
            [104; 105]%N _ _).
  - lia.
  - reflexivity.
Defined.

Lemma wrap_text_fitting_witness :
  Text.join [Text.newline] (ChatView.wrap_text [104; 105; 10; 121; 111]%N 10)
  = [104; 105; 10; 121; 111]%N.
Proof.
  refine (proj2 (wrap_text_fitting [104; 105; 10; 121; 111]%N 10 _)).
  apply (bool_decide_unpack _). vm_compute. exact I.
Defined.

Lemma update_config_existing_witness :
  Config.get_value (Config.update_config ({["dialogs_limit" := 100%nat]}) "dialogs_limit" 50%nat)
    "dialogs_limit" None
  = Some 50%nat.
Proof.
  refine (proj1 (proj2
            (update_config_existing (λ n, negb (Nat.eqb n 0))
               ({["dialogs_limit" := 100%nat]}) "dialogs_limit" "api_id" 50%nat None)) _).
  apply elem_of_dom. exists 100%nat. reflexivity.
Defined.

Lemma scrollbar_in_track_witness : in_track (10 - 3) (2, 0).
Proof.
  refine (proj1 (scrollbar_in_track 10 (2, 0)) 20 5 _ _).
  - lia.
  - reflexivity.
Defined.

Lemma drawn_messages_fit_witness : 2 + 1 ≤ Py.len [3; 3; 3].
Proof.
  refine (proj1 (proj2 (proj2 (drawn_messages_fit [3; 3; 3] 10 2 2 1 _ _)))).
  - simpl. lia.
  - reflexivity.
Defined.

(** ** The session: replying, and opening a conversation *)

Section SessionReply.
Context {V : Type}.
Implicit Types (s : Session.TelegramApp V).

Lemma getitem_nil {A} (i : Z) : Py.getitem (@nil A) i = None.
Proof. unfold Py.getitem. by repeat case_match. Qed.

Lemma handle_key_reply (c : Keys.curses) :
  Keys.handle_key c Keys.R State.CHAT = Some Keys._handle_reply_mode.
Proof.
  unfold Keys.handle_key.
  change (Keys.global_handlers !! Keys.R) with (@None Keys.handler). simpl.
  unfold Keys.dict. simpl.
  rewrite lookup_insert_ne by done. rewrite lookup_insert_ne by done.
  by rewrite lookup_insert_eq.
Qed.

(** X26: the key r in a chat.  With a selected message, in the state
    CHAT and outside reply mode, the key reads a line; a line that is not
    blank is sent to the selected conversation as a reply to the selected
    message, by one task, and the loading flag is set; a blank line sends
    nothing.  In both cases the session is back in the state CHAT and out of
    reply mode when the handler returns. *)
Theorem reply_is_sent (c : Keys.curses) (e : Session.env) s (text : Text.str)
    (dialog : Cli.Dialog) (message : Cli.Message) :
  Session.running s = true →
  State.get_state (Session.state_manager s) = State.CHAT →
  Session.reply_mode s = false →
  Session.reply_text e = Some text →
  selection_ok (Session.cli s) →
  Py.getitem (Cli.dialog_list (Session.cli s)) (Cli.selected_dialog_index (Session.cli s))
  = Some dialog →
  Py.getitem (Cli.selected_messages (Session.cli s))
    (Cli.selected_message_index (Session.cli s)) = Some message →
  let s' := Session.step c s (Session.KeyPressed Keys.R e) in
  State.get_state (Session.state_manager s') = State.CHAT
  ∧ Session.reply_mode s' = false
  ∧ Session.running s' = true
  ∧ Cli.scheduled (Session.cli s')
    = Cli.scheduled (Session.cli s)
      ++ (if Text.truthy (Fmt.strip text) then [Cli.SendMessage dialog text message] else [])
  ∧ Cli.is_loading (Session.cli s')
    = (if Text.truthy (Fmt.strip text) then true else Cli.is_loading (Session.cli s)).
Proof.
  intros Hrun Hstate Hreply Htext (Hd & Hdl & Hm & Hml) Hdialog Hmessage s'.
  assert (Cli.dialog_list (Session.cli s) ≠ []) as Hdnil.
  { intros Hnil. by rewrite Hnil, getitem_nil in Hdialog. }
  assert (Cli.selected_messages (Session.cli s) ≠ []) as Hmnil.
  { intros Hnil. by rewrite Hnil, getitem_nil in Hmessage. }
  destruct Hdl as [?|Hdl]; [done|]. destruct Hml as [?|Hml]; [done|].
  unfold s', Session.step, Session.handle_key. rewrite Hrun.
  unfold State.get_state in Hstate |- *. rewrite Hstate, handle_key_reply. simpl.
  unfold Session._handle_reply_mode. rewrite Hreply.
  unfold Session.enter_reply_mode. simpl.
  rewrite (bool_decide_eq_false_2 _ Hmnil). simpl.
  destruct (Z.geb_spec (Cli.selected_message_index (Session.cli s))
              (Py.len (Cli.selected_messages (Session.cli s)))); [lia|].
  rewrite Htext.
  destruct (Text.truthy (Fmt.strip text)); simpl.
  - rewrite set_state_current. unfold Cli.send_reply.
    rewrite (bool_decide_eq_false_2 _ Hdnil), (bool_decide_eq_false_2 _ Hmnil). simpl.
    destruct (Z.geb_spec (Cli.selected_dialog_index (Session.cli s))
                (Py.len (Cli.dialog_list (Session.cli s)))); [lia|].
    destruct (Z.geb_spec (Cli.selected_message_index (Session.cli s))
                (Py.len (Cli.selected_messages (Session.cli s)))); [lia|].
    rewrite Hdialog, Hmessage. simpl. by rewrite app_nil_r || done.
  - rewrite set_state_current. by rewrite app_nil_r.
Qed.

(** X27: opening a conversation and going back.  With an empty
    conversation list, or a selected index past its end,
    [open_selected_dialog] does nothing.  Otherwise it leaves the session in
    the state CHAT; and [back_to_dialogs] then gives the state DIALOGS with
    CHAT as the previous state, an empty message list, the selected message
    index 0, reply mode off, the conversation list and its selected index as
    they were, and a request for the conversation list as the last task. *)
Theorem open_and_back (now : Z) (screen_raises screen_raises' : bool) s :
  (Cli.dialog_list (Session.cli s) = []
   ∨ Py.len (Cli.dialog_list (Session.cli s)) ≤ Cli.selected_dialog_index (Session.cli s) →
   Session.open_selected_dialog now screen_raises s = s)
  ∧ (Cli.dialog_list (Session.cli s) ≠ [] →
     Cli.selected_dialog_index (Session.cli s) < Py.len (Cli.dialog_list (Session.cli s)) →
     let s1 := Session.open_selected_dialog now screen_raises s in
     let s2 := Session.back_to_dialogs screen_raises' s1 in
     State.get_state (Session.state_manager s1) = State.CHAT
     ∧ State.get_state (Session.state_manager s2) = State.DIALOGS
     ∧ State.get_previous_state (Session.state_manager s2) = Some State.CHAT
     ∧ Cli.selected_messages (Session.cli s2) = []
     ∧ Cli.selected_message_index (Session.cli s2) = 0
     ∧ Session.reply_mode s2 = false
     ∧ Cli.dialog_list (Session.cli s2) = Cli.dialog_list (Session.cli s)
     ∧ Cli.selected_dialog_index (Session.cli s2) = Cli.selected_dialog_index (Session.cli s)
     ∧ last (Cli.scheduled (Session.cli s2))
       = Some (Cli.GetDialogs (negb (Cli.is_all_dialogs_mode (Session.cli s))))).
Proof.
  split.
  - intros Hout. unfold Session.open_selected_dialog.
    destruct Hout as [Hnil|Hpast].
    + by rewrite (bool_decide_eq_true_2 _ Hnil).
    + destruct (Z.geb_spec (Cli.selected_dialog_index (Session.cli s))
                  (Py.len (Cli.dialog_list (Session.cli s)))); [|lia].
      by rewrite orb_true_r.
  - intros Hnil Hlt s1 s2.
    assert (Session.cli s1 = Cli.refresh_messages now screen_raises (Session.cli s)
            ∧ State.get_state (Session.state_manager s1) = State.CHAT) as [Hcli Hchat].
    { unfold s1, Session.open_selected_dialog.
      rewrite (bool_decide_eq_false_2 _ Hnil). simpl.
      destruct (Z.geb_spec (Cli.selected_dialog_index (Session.cli s))
                  (Py.len (Cli.dialog_list (Session.cli s)))); [lia|].
      split; [reflexivity|]. apply set_state_current. }
    assert (Cli.dialog_list (Session.cli s1) = Cli.dialog_list (Session.cli s)
            ∧ Cli.selected_dialog_index (Session.cli s1)
              = Cli.selected_dialog_index (Session.cli s)
            ∧ Cli.is_all_dialogs_mode (Session.cli s1)
              = Cli.is_all_dialogs_mode (Session.cli s)) as (Hl & Hi & Hmode).
    { rewrite Hcli. unfold Cli.refresh_messages, Cli.reset_message_index.
      repeat case_match; by repeat split. }
    split; [exact Hchat|].
    unfold s2, Session.back_to_dialogs, State.get_state, State.get_previous_state.
    cbn [Session.state_manager Session.set_app_state Session.cli Session.set_cli
         Session.set_reply_mode Session.reply_mode].
    destruct (set_state_other (Session.state_manager s1) State.DIALOGS ∅) as [Hcur Hprev].
    { unfold State.get_state in Hchat. by rewrite Hchat. }
    rewrite Hcur, Hprev. unfold State.get_state in Hchat. rewrite Hchat.
    unfold CliOps.refresh_dialogs.
    destruct screen_raises'; simpl; rewrite last_snoc, Hmode; by repeat split.
Qed.

End SessionReply.

Lemma reply_is_sent_witness :
  Cli.scheduled
    (Session.cli
       (Session.step (V := nat) sample_curses
          {| Session.cli := sample_cli 100 [sample_message];
             Session.state_manager :=
               (State.set_state (V := nat) State.new State.CHAT ∅).1;
             Session.reply_mode := false; Session.running := true;
             Session.media_tasks := [] |}
          (Session.KeyPressed Keys.R sample_env)))
  = [] ++ [Cli.SendMessage sample_dialog [104; 105]%N sample_message].
Proof.
  refine (proj1 (proj2 (proj2 (proj2
            (reply_is_sent (V := nat) sample_curses sample_env
               {| Session.cli := sample_cli 100 [sample_message];
                  Session.state_manager :=
                    (State.set_state (V := nat) State.new State.CHAT ∅).1;
                  Session.reply_mode := false; Session.running := true;
                  Session.media_tasks := [] |}
               [104; 105]%N sample_dialog sample_message _ _ _ _ _ _ _))))).
  - reflexivity.
  - reflexivity.
  - reflexivity.
  - reflexivity.
  - split; [vm_compute; discriminate|]. split; [right; reflexivity|].
    split; [vm_compute; discriminate|]. right; reflexivity.
  - reflexivity.
  - reflexivity.
Defined.

Lemma open_and_back_witness :
  State.get_state
    (Session.state_manager
       (Session.open_selected_dialog (V := nat) 130 false
          {| Session.cli := sample_cli 100 [];
             Session.state_manager :=
               (State.set_state (V := nat) State.new State.DIALOGS ∅).1;
             Session.reply_mode := false; Session.running := true;
             Session.media_tasks := [] |}))
  = State.CHAT.
Proof.
  refine (proj1 (proj2
            (open_and_back (V := nat) 130 false false
               {| Session.cli := sample_cli 100 [];
                  Session.state_manager :=
                    (State.set_state (V := nat) State.new State.DIALOGS ∅).1;
                  Session.reply_mode := false; Session.running := true;
                  Session.media_tasks := [] |}) _ _)).
  - discriminate.
  - reflexivity.
Defined.
